(** * Session and token lifecycle of the kapkorn admin client

    A shallow embedding of the token utilities ([lib/auth/token.utils]),
    the NextAuth configuration ([lib/auth/auth.config]), the route proxy
    ([proxy.ts]), the login and logout server actions, the login page's
    submit handler, the API client and the navigation configuration,
    followed by the properties they satisfy.  Three dependencies are
    modelled from their behaviour where the sources call them:
    [jwt-decode], the [auth] wrapper of [next-auth], and [redirect] of
    [next/navigation].

    Conventions.
    - A JavaScript [number] holding a timestamp or a count is a [Z]:
      timestamps are whole milliseconds within the range of [Date]
      (below 2^53, where doubles are exact), so that [exp * 1000] and the
      sums and differences of instants are computed exactly and the
      [toISOString] calls of the log records do not throw.
    - An optional field ([x?: string]) is an [option]; JavaScript truthiness
      is written out ([JS.truthy_str], [JS.truthy_num]).
    - [Date.now()] is an input: a function that reads the clock once takes
      the reading as [now]; the NextAuth callbacks, which read it several
      times, run in the [AuthConfig.M] state monad over a clock.
    - [console.log] / [console.error] calls are not modelled, except that a
      clock reading made while building a log record is still consumed. *)

From Stdlib Require Import ZArith List String Ascii Bool Lia DecimalString.
Import ListNotations.
Set Warnings "-register-all".
Open Scope string_scope.
Open Scope Z_scope.

(** ** JavaScript primitives used by the sources *)
Module JS.

(** [!!s] for a string. *)
Definition truthy_str (s : string) : bool := negb (s =? "")%string.

(** [!!s] for an optional string ([undefined] is falsy). *)
Definition truthy_opt (o : option string) : bool :=
  match o with
  | Some s => truthy_str s
  | None => false
  end.

(** [!!n] for a number (no NaN arises from integers). *)
Definition truthy_num (n : Z) : bool := negb (n =? 0).

(** [a || b] on strings. *)
Definition or_str (a : option string) (b : string) : string :=
  match a with
  | Some s => if truthy_str s then s else b
  | None => b
  end.

(** [s.split(sep)] for a one-character separator: the result is never
    empty, [''.split('.')] is [['']]. *)
Fixpoint split (sep : ascii) (s : string) : list string :=
  match s with
  | EmptyString => [EmptyString]
  | String c rest =>
      if Ascii.eqb c sep then EmptyString :: split sep rest
      else match split sep rest with
           | [] => [String c EmptyString]
           | hd :: tl => String c hd :: tl
           end
  end.

(** [s.startsWith(p)]. *)
Definition startsWith (s p : string) : bool := String.prefix p s.

(** [xs.some(f)]. *)
Definition some {A : Type} (f : A -> bool) (xs : list A) : bool := existsb f xs.

(** [s.endsWith(suffix)]. *)
Fixpoint endsWith (s suffix : string) : bool :=
  (s =? suffix)%string
  || match s with
     | EmptyString => false
     | String _ rest => endsWith rest suffix
     end.

End JS.

(** ** lib/auth/token.utils *)
Module JwtUtils.

(** [EnhancedJwtPayload]: the registered claims of [JwtPayload] and the
    custom claims of the API. *)
Inductive TokenType : Type := Access | Refresh.

Record EnhancedJwtPayload : Type := mkPayload {
  sub : option string;
  iss : option string;
  aud : option string;
  iat : option Z;
  exp : option Z;
  nbf : option Z;
  jti : option string;
  user_id : option string;
  username : option string;
  role : option string;
  permissions : option (list string);
  token_type : option TokenType
}.

(** The object literal [{}]. *)
Definition emptyPayload : EnhancedJwtPayload :=
  mkPayload None None None None None None None None None None None None.

(** [TOKEN_CONFIG]. *)
Definition REFRESH_BUFFER_MS : Z := 5 * 60 * 1000.
Definition MIN_VALID_TIME_MS : Z := 2 * 60 * 1000.
Definition MAX_REFRESH_AGE_MS : Z := 7 * 24 * 60 * 60 * 1000.

(** The template strings of [timeToExpiryString], by shape:
    ['Expired'], [`${d}d ${h}h ${m}m`], [`${h}h ${m}m`], [`${m}m`]. *)
Inductive ExpiryString : Type :=
| Expired
| DaysHoursMinutes (d h m : Z)
| HoursMinutes (h m : Z)
| Minutes (m : Z).

(** [TokenInfo]. *)
Record TokenInfo : Type := mkTokenInfo {
  payload : EnhancedJwtPayload;
  isExpired : bool;
  willExpireSoon : bool;
  timeUntilExpiry : Z;
  timeToExpiryString : ExpiryString
}.

(** Result of [validateTokenFormat]. *)
Record Validation : Type := mkValidation {
  isValid : bool;
  error : option string
}.

Section Codec.

(** The [jwt-decode] package is a dependency, not part of the repository.
    [jwtDecode(token)] takes [token.split('.')[1]], base64url-decodes it and
    hands the text to [JSON.parse]; it throws [InvalidTokenError] when the
    second segment is missing or either step fails.  The last two steps are
    the parameter [decodeSegment] ([None] when one of them throws), with
    the result typed as the source types it; no signature is checked and
    the number of segments is not inspected. *)
Variable decodeSegment : string -> option EnhancedJwtPayload.

Definition jwtDecode (token : string) : option EnhancedJwtPayload :=
  match nth_error (JS.split "." token) 1 with
  | Some part => decodeSegment part
  | None => None
  end.

(** [decodeToken]: the [catch] turns every exception into [null]. *)
Definition decodeToken (token : string) : option EnhancedJwtPayload :=
  jwtDecode token.

(** [payload.exp ? payload.exp * 1000 : null]. *)
Definition expiryOfPayload (p : EnhancedJwtPayload) : option Z :=
  match exp p with
  | Some e => if JS.truthy_num e then Some (e * 1000) else None
  | None => None
  end.

(** [getTokenExpiry]: [payload?.exp ? payload.exp * 1000 : null]. *)
Definition getTokenExpiry (token : string) : option Z :=
  match decodeToken token with
  | Some p => expiryOfPayload p
  | None => None
  end.

(** [isTokenExpired(token, bufferMs)]. *)
Definition isTokenExpired (now : Z) (token : string) (bufferMs : Z) : bool :=
  match getTokenExpiry token with
  | Some expiry =>
      if JS.truthy_num expiry then expiry - bufferMs <=? now else true
  | None => true
  end.

(** [getTokenInfo]. *)
Definition getTokenInfo (now : Z) (token : string) : TokenInfo :=
  let payload :=
    match decodeToken token with
    | Some p => p
    | None => emptyPayload
    end in
  let expiry := expiryOfPayload payload in
  let timeUntilExpiry :=
    match expiry with
    | Some e => if JS.truthy_num e then Z.max 0 (e - now) else 0
    | None => 0
    end in
  let isExpired :=
    match expiry with
    | Some e => negb (JS.truthy_num e) || (e <=? now)
    | None => true
    end in
  let willExpireSoon :=
    negb isExpired && (timeUntilExpiry <=? REFRESH_BUFFER_MS) in
  let minutes := timeUntilExpiry / (1000 * 60) in
  let hours := minutes / 60 in
  let days := hours / 24 in
  let timeToExpiryString :=
    if negb isExpired then
      if 0 <? days then DaysHoursMinutes days (hours mod 24) (minutes mod 60)
      else if 0 <? hours then HoursMinutes hours (minutes mod 60)
      else Minutes minutes
    else Expired in
  mkTokenInfo payload isExpired willExpireSoon timeUntilExpiry timeToExpiryString.

(** [validateTokenFormat]. *)
Definition validateTokenFormat (token : string) : Validation :=
  if negb (JS.truthy_str token) then
    mkValidation false (Some "Token is required and must be a string")
  else if negb (Nat.eqb (List.length (JS.split "." token)) 3) then
    mkValidation false (Some "Invalid JWT format: must have 3 parts")
  else
    match decodeToken token with
    | None => mkValidation false (Some "Failed to decode token payload")
    | Some p =>
        match exp p with
        | Some e =>
            if JS.truthy_num e then mkValidation true None
            else mkValidation false (Some "Token missing expiration claim (exp)")
        | None => mkValidation false (Some "Token missing expiration claim (exp)")
        end
    end.

(** [isRefreshTokenValid]. *)
Definition isRefreshTokenValid (now : Z) (refreshToken : string) : bool :=
  if negb (JS.truthy_str refreshToken) then false
  else
    let info := getTokenInfo now refreshToken in
    if isExpired info then false
    else MIN_VALID_TIME_MS <=? timeUntilExpiry info.

(** [shouldRefreshToken(accessToken?)]. *)
Definition shouldRefreshToken (now : Z) (accessToken : option string) : bool :=
  match accessToken with
  | None => true
  | Some tok =>
      if negb (JS.truthy_str tok) then true
      else
        let info := getTokenInfo now tok in
        isExpired info || willExpireSoon info
  end.

End Codec.

(** *** [TokenError] and [safeTokenRefresh] *)

(** What a [catch] clause can receive: a [TokenError] (with its optional
    [originalError]), another [Error] (by constructor name and message), or
    a thrown value that is not an [Error]. *)
Inductive Thrown : Type :=
| TokenError (message code : string) (originalError : option Thrown)
| OtherError (name message : string)
| NonError (shown : string).

(** [error instanceof TokenError]. *)
Definition isTokenError (e : Thrown) : bool :=
  match e with
  | TokenError _ _ _ => true
  | _ => false
  end.

(** [error.code] of a [TokenError]. *)
Definition codeOf (e : Thrown) : option string :=
  match e with
  | TokenError _ code _ => Some code
  | _ => None
  end.

(** The test guarding [break]: a [TokenError] whose code is
    ['INVALID_CREDENTIALS'] or ['INVALID_REFRESH_RESULT']. *)
Definition noRetry (e : Thrown) : bool :=
  match e with
  | TokenError _ code _ =>
      (code =? "INVALID_CREDENTIALS")%string
      || (code =? "INVALID_REFRESH_RESULT")%string
  | _ => false
  end.

(** Observable steps of one [safeTokenRefresh] run, in order: a call of
    [refreshFn] (with the loop counter) and a [setTimeout] wait. *)
Inductive Event : Type :=
| Call (attempt : Z)
| Wait (ms : Z).

Definition isCall (e : Event) : bool :=
  match e with
  | Call _ => true
  | Wait _ => false
  end.

(** Number of [refreshFn] invocations in a run. *)
Definition calls (tr : list Event) : nat := List.length (filter isCall tr).

(** Total time spent in backoff waits. *)
Fixpoint waited (tr : list Event) : Z :=
  match tr with
  | [] => 0
  | Wait ms :: tr' => ms + waited tr'
  | Call _ :: tr' => waited tr'
  end.

Section Refresh.

Variable decodeSegment : string -> option EnhancedJwtPayload.

(** [T], the result type of [refreshFn]; [accessOf r] is [r.access] when
    [r] is an object with an ['access'] key, [None] otherwise. *)
Variable T : Type.
Variable accessOf : T -> option string.

(** [refreshFn] may answer differently at every call: it runs on a state
    [St] (the server, the network) and either resolves or rejects. *)
Variable St : Type.
Variable refreshFn : St -> (Thrown + T) * St.

(** The body of the [try] block after [await refreshFn()]: the thrown
    [TokenError] when the result carries a truthy [access] that
    [validateTokenFormat] rejects. *)
Definition checkResult (result : T) : Thrown + T :=
  match accessOf result with
  | Some access =>
      if JS.truthy_str access
         && negb (isValid (validateTokenFormat decodeSegment access))
      then inl (TokenError "Invalid access token from refresh"
                           "INVALID_REFRESH_RESULT" None)
      else inr result
  | None => inr result
  end.

(** The statements after the loop. *)
Definition giveUp (lastError : option Thrown) : Thrown :=
  match lastError with
  | Some (TokenError m c o) => TokenError m c o
  | _ => TokenError "Token refresh failed after retries" "REFRESH_FAILED" lastError
  end.

(** One pass through the [try] block: [await refreshFn()] and the check
    of its result; [inl] is what the [catch] clause receives. *)
Definition tryRefresh (st : St) : (Thrown + T) * St :=
  let '(outcome, st1) := refreshFn st in
  (match outcome with
   | inr result => checkResult result
   | inl e => inl e
   end, st1).

(** The [for] loop from [attempt] on; [n] counts the iterations the guard
    [attempt <= maxRetries] still admits. *)
Fixpoint attempts (n : nat) (attempt maxRetries : Z)
    (lastError : option Thrown) (st : St) : (Thrown + T) * list Event * St :=
  match n with
  | O => (inl (giveUp lastError), [], st)
  | S n' =>
      let '(tried, st1) := tryRefresh st in
      match tried with
      | inr result => (inr result, [Call attempt], st1)
      | inl e =>
          if noRetry e then (inl (giveUp (Some e)), [Call attempt], st1)
          else
            let pause :=
              if attempt <? maxRetries then [Wait (1000 * 2 ^ attempt)] else [] in
            let '(res, tr, st2) := attempts n' (attempt + 1) maxRetries (Some e) st1 in
            (res, Call attempt :: pause ++ tr, st2)
      end
  end.

(** [safeTokenRefresh(refreshFn, maxRetries)]: the promise settles with
    [inr result] or rejects with [inl error]. *)
Definition safeTokenRefresh (maxRetries : Z) (st : St)
  : (Thrown + T) * list Event * St :=
  attempts (Z.to_nat (maxRetries + 1)) 0 maxRetries None st.

(** The default [maxRetries = 2]. *)
Definition safeTokenRefreshDefault (st : St) : (Thrown + T) * list Event * St :=
  safeTokenRefresh 2 st.

End Refresh.

Arguments checkResult decodeSegment {T} accessOf result.
Arguments tryRefresh decodeSegment {T} accessOf {St} refreshFn st.
Arguments attempts decodeSegment {T} accessOf {St} refreshFn n attempt maxRetries lastError st.
Arguments safeTokenRefresh decodeSegment {T} accessOf {St} refreshFn maxRetries st.
Arguments safeTokenRefreshDefault decodeSegment {T} accessOf {St} refreshFn st.

End JwtUtils.

(** ** lib/auth/auth.config *)
Module AuthConfig.

(** The [User] of the module augmentation. *)
Record User : Type := mkUser {
  u_id : string;
  u_username : string;
  u_email : string;
  u_name : string;
  u_firstName : string;
  u_lastName : string;
  u_role : string;
  u_permissions : list string;
  u_accessToken : option string;
  u_refreshToken : option string
}.

(** The augmented [JWT]: identity fields, the token pair with its expiry
    instant, and the error flag.  The remaining default claims of the
    session cookie are copied unchanged by every operation and are left
    out. *)
Record JWT : Type := mkJWT {
  id : option string;
  username : option string;
  email : option string;
  name : option string;
  firstName : option string;
  lastName : option string;
  role : option string;
  permissions : option (list string);
  accessToken : option string;
  refreshToken : option string;
  accessTokenExpires : option Z;
  error : option string
}.

(** [{ ...token, error: e }]. *)
Definition with_error (e : option string) (t : JWT) : JWT :=
  mkJWT (id t) (username t) (email t) (name t) (firstName t) (lastName t)
        (role t) (permissions t) (accessToken t) (refreshToken t)
        (accessTokenExpires t) e.

(** [token.accessTokenExpires = x]. *)
Definition with_expires (x : option Z) (t : JWT) : JWT :=
  mkJWT (id t) (username t) (email t) (name t) (firstName t) (lastName t)
        (role t) (permissions t) (accessToken t) (refreshToken t) x (error t).

(** [token.name = x]. *)
Definition with_name (x : option string) (t : JWT) : JWT :=
  mkJWT (id t) (username t) (email t) x (firstName t) (lastName t)
        (role t) (permissions t) (accessToken t) (refreshToken t)
        (accessTokenExpires t) (error t).

(** The ten assignments [token.id = user.id; ...; token.refreshToken =
    user.refreshToken] of the sign-in branch. *)
Definition with_user (u : User) (t : JWT) : JWT :=
  mkJWT (Some (u_id u)) (Some (u_username u)) (Some (u_email u))
        (Some (u_name u)) (Some (u_firstName u)) (Some (u_lastName u))
        (Some (u_role u)) (Some (u_permissions u))
        (u_accessToken u) (u_refreshToken u)
        (accessTokenExpires t) (error t).

(** [trigger]. *)
Inductive Trigger : Type := SignIn | SignUp | Update.

(** The [session] argument of the [jwt] callback (the payload of a
    client-side update), reduced to what is read: [session.user?.name]. *)
Record UpdatePayload : Type := mkUpdate {
  upd_user_name : option string
}.

(** *** The clock *)

(** The callbacks read [Date.now()] several times.  The world holds the
    readings the clock will give, how many were consumed, and a counter of
    refresh-executor invocations that only [counted] touches. *)
Record World : Type := mkWorld {
  clock : nat -> Z;
  ticks : nat;
  refreshCalls : nat
}.

Definition M (A : Type) : Type := World -> A * World.

Definition ret {A : Type} (a : A) : M A := fun w => (a, w).

Definition bind {A B : Type} (m : M A) (k : A -> M B) : M B :=
  fun w => let '(a, w') := m w in k a w'.

Notation "x <- m ;; k" := (bind m (fun x => k))
  (at level 61, m at next level, right associativity).
Notation "m ;;; k" := (bind m (fun _ => k))
  (at level 61, right associativity).

(** The world after one clock reading. *)
Definition tick (w : World) : World :=
  mkWorld (clock w) (S (ticks w)) (refreshCalls w).

(** [Date.now()]. *)
Definition Date_now : M Z := fun w => (clock w (ticks w), tick w).

(** One hour, [60 * 60 * 1000]. *)
Definition ONE_HOUR_MS : Z := 60 * 60 * 1000.

(** [REFRESH_BUFFER_MS], local to the [jwt] callback. *)
Definition REFRESH_BUFFER_MS : Z := 5 * 60 * 1000.

Section Callbacks.

Variable decodeSegment : string -> option JwtUtils.EnhancedJwtPayload.

(** The module's own [getTokenExpiry]: [jwtDecode] in a [try], [exp]
    converted from seconds to milliseconds. *)
Definition getTokenExpiry (token : string) : option Z :=
  match JwtUtils.jwtDecode decodeSegment token with
  | Some decoded =>
      match JwtUtils.exp decoded with
      | Some e => if JS.truthy_num e then Some (e * 1000) else None
      | None => None
      end
  | None => None
  end.

(** The module's own [isTokenExpired]; the clock is read only when an
    expiry was parsed. *)
Definition isTokenExpired (token : string) (bufferMs : Z) : M bool :=
  match getTokenExpiry token with
  | Some expiry =>
      if JS.truthy_num expiry then
        now <- Date_now ;; ret (expiry - bufferMs <=? now)
      else ret true
  | None => ret true
  end.

(** [refreshAccessToken]: mock mode.  Nothing in its [try] block throws,
    so the [catch] branch (which would return [{...token, error:
    'RefreshAccessTokenError'}]) is never taken. *)
Definition refreshAccessToken (token : JWT) : M (option JWT) :=
  now <- Date_now ;;
  ret (Some (with_error None (with_expires (Some (now + ONE_HOUR_MS)) token))).

(** The sign-in branch, [if (user) { ... }]. *)
Definition initialSignIn (token : JWT) (user : User) : M JWT :=
  let token := with_user user token in
  let tokenExpiry :=
    match u_accessToken user with
    | Some a => if JS.truthy_str a then getTokenExpiry a else None
    | None => None
    end in
  expires <-
    match tokenExpiry with
    | Some e =>
        if JS.truthy_num e then ret e
        else (now <- Date_now ;; ret (now + ONE_HOUR_MS))
    | None => now <- Date_now ;; ret (now + ONE_HOUR_MS)
    end ;;
  ret (with_expires (Some expires) token).

(** [if (trigger === 'update' && session) token.name =
    session.user?.name || token.name]. *)
Definition applyUpdate (trigger : option Trigger)
    (session : option UpdatePayload) (token : JWT) : JWT :=
  match trigger, session with
  | Some Update, Some s =>
      match upd_user_name s with
      | Some n => if JS.truthy_str n then with_name (Some n) token else token
      | None => token
      end
  | _, _ => token
  end.

(** [!token.accessToken || isTokenExpired(token.accessToken,
    REFRESH_BUFFER_MS)]. *)
Definition shouldRefresh (token : JWT) : M bool :=
  match accessToken token with
  | Some a =>
      if JS.truthy_str a then isTokenExpired a REFRESH_BUFFER_MS else ret true
  | None => ret true
  end.

(** The clock reading inside the 'Token needs refresh' log record. *)
Definition logNeedsRefresh (token : JWT) : M unit :=
  match accessTokenExpires token with
  | Some e => if JS.truthy_num e then (Date_now ;;; ret tt) else ret tt
  | None => ret tt
  end.

(** [!refreshedToken || refreshedToken.error]. *)
Definition refreshFailed (refreshed : option JWT) : bool :=
  match refreshed with
  | Some r => JS.truthy_opt (error r)
  | None => true
  end.

(** What the callback returns once [refreshAccessToken] has settled. *)
Definition afterRefresh (token : JWT) (refreshed : option JWT) : JWT :=
  match refreshed with
  | Some r =>
      if JS.truthy_opt (error r)
      then with_error (Some "RefreshAccessTokenError") token
      else r
  | None => with_error (Some "RefreshAccessTokenError") token
  end.

(** The [jwt] callback over a refresh executor [refresh]: the source calls
    [refreshAccessToken]; the callback's own failure branch is reachable
    only with an executor that can fail. *)
Definition jwtWith (refresh : JWT -> M (option JWT))
    (token : JWT) (user : option User) (trigger : option Trigger)
    (session : option UpdatePayload) : M JWT :=
  token <-
    match user with
    | Some u => initialSignIn token u
    | None => ret token
    end ;;
  let token := applyUpdate trigger session token in
  should <- shouldRefresh token ;;
  if negb should then ret token
  else
    logNeedsRefresh token ;;;
    refreshed <- refresh token ;;
    ret (afterRefresh token refreshed).

(** [authConfig.callbacks.jwt]. *)
Definition jwt : JWT -> option User -> option Trigger -> option UpdatePayload -> M JWT :=
  jwtWith refreshAccessToken.

End Callbacks.

(** *** The [session] callback *)

(** [session.user] after the callback filled it in. *)
Record SessionUser : Type := mkSessionUser {
  su_id : option string;
  su_username : option string;
  su_email : option string;
  su_name : option string;
  su_firstName : option string;
  su_lastName : option string;
  su_role : option string;
  su_permissions : option (list string)
}.

Record Session : Type := mkSession {
  user : option SessionUser;
  s_accessToken : option string;
  s_refreshToken : option string
}.

(** [authConfig.callbacks.session]: [null] when the token carries an error
    or is missing. *)
Definition session (s : Session) (token : option JWT) : option Session :=
  match token with
  | None => None
  | Some t =>
      if JS.truthy_opt (error t) then None
      else
        match user s with
        | Some _ =>
            Some (mkSession
                    (Some (mkSessionUser (id t) (username t) (email t) (name t)
                             (firstName t) (lastName t) (role t) (permissions t)))
                    (accessToken t) (refreshToken t))
        | None => Some s
        end
  end.

(** *** Overlapping evaluations of the [jwt] callback

    Every request decodes the session cookie and runs the callback on its
    own copy of the token.  The callback suspends once, at [await
    refreshAccessToken(token)]; several requests of one session may all
    have passed that point before any of them resumes.  The module keeps no
    pending promise and no lock. *)

(** Counting executor invocations: the wrapped executor bumps
    [refreshCalls] and then behaves as [refresh]. *)
Definition counted (refresh : JWT -> M (option JWT)) : JWT -> M (option JWT) :=
  fun token w =>
    refresh token (mkWorld (clock w) (ticks w) (S (refreshCalls w))).

(** One evaluation of the callback for an established session ([user]
    undefined, no update): not started, suspended at the [await] with the
    executor invoked, or returned. *)
Inductive Evaluation : Type :=
| NotStarted (token : JWT)
| InFlight (token : JWT) (refreshed : option JWT)
| Returned (result : JWT).

Definition isInFlight (e : Evaluation) : bool :=
  match e with
  | InFlight _ _ => true
  | _ => false
  end.

Section Overlap.

Variable decodeSegment : string -> option JwtUtils.EnhancedJwtPayload.
Variable refresh : JWT -> M (option JWT).

(** The callback up to its suspension point. *)
Definition jwtStart (token : JWT) : M Evaluation :=
  should <- shouldRefresh decodeSegment token ;;
  if negb should then ret (Returned token)
  else
    logNeedsRefresh token ;;;
    refreshed <- refresh token ;;
    ret (InFlight token refreshed).

(** One scheduling step of an evaluation. *)
Definition advance (e : Evaluation) : M Evaluation :=
  match e with
  | NotStarted token => jwtStart token
  | InFlight token refreshed => ret (Returned (afterRefresh token refreshed))
  | Returned result => ret (Returned result)
  end.

(** Advance the [i]-th evaluation of a pool. *)
Fixpoint advanceAt (i : nat) (pool : list Evaluation) : M (list Evaluation) :=
  match pool, i with
  | [], _ => ret []
  | e :: rest, O => e' <- advance e ;; ret (e' :: rest)
  | e :: rest, S i' => rest' <- advanceAt i' rest ;; ret (e :: rest')
  end.

(** Run a schedule: the indices of the evaluations to advance, in order. *)
Fixpoint runSchedule (schedule : list nat) (pool : list Evaluation)
  : M (list Evaluation) :=
  match schedule with
  | [] => ret pool
  | i :: rest => pool' <- advanceAt i pool ;; runSchedule rest pool'
  end.

End Overlap.

(** [w'] lies on the timeline of [w]: the same clock, no fewer readings
    consumed. *)
Definition later (w w' : World) : Prop :=
  clock w' = clock w /\ (ticks w <= ticks w')%nat.

(** An evaluation that has not started yet holds the cookie [token]. *)
Definition sameCookie (token : JWT) (e : Evaluation) : Prop :=
  match e with
  | NotStarted t => t = token
  | _ => True
  end.

(** Evaluations that have passed the refresh check. *)
Definition hasStarted (e : Evaluation) : bool :=
  match e with
  | NotStarted _ => false
  | _ => true
  end.

Definition started (pool : list Evaluation) : nat :=
  List.length (filter hasStarted pool).

(** Evaluations suspended at the [await], i.e. refreshes in flight. *)
Definition inFlight (pool : list Evaluation) : nat :=
  List.length (filter isInFlight pool).

(** [n] requests arriving with the same session cookie. *)
Definition arrivals (n : nat) (token : JWT) : list Evaluation :=
  repeat (NotStarted token) n.

(** The expiry instant a finished evaluation hands back. *)
Definition observedExpiry (e : Evaluation) : option Z :=
  match e with
  | Returned result => accessTokenExpires result
  | _ => None
  end.

(** What [refreshAccessToken] answers when it is invoked for [token] at
    the [k]-th reading of the clock [clock0]. *)
Definition invocationAt (clock0 : nat -> Z) (token : JWT) (k : nat) : option JWT :=
  fst (refreshAccessToken token (mkWorld clock0 k 0)).

(** [holdsOwn clock0 token pool ks]: every evaluation of [pool] that has
    passed the refresh check holds the answer of an executor invocation
    made for it: a suspended one holds the answer itself, a finished one
    what the callback returns for that answer.  [ks] lists, in pool order,
    the clock readings at which those invocations ran. *)
Inductive holdsOwn (clock0 : nat -> Z) (token : JWT)
  : list Evaluation -> list nat -> Prop :=
| own_nil : holdsOwn clock0 token [] []
| own_waiting (pool : list Evaluation) (ks : list nat) :
    holdsOwn clock0 token pool ks ->
    holdsOwn clock0 token (NotStarted token :: pool) ks
| own_inFlight (pool : list Evaluation) (ks : list nat) (k : nat) :
    holdsOwn clock0 token pool ks ->
    holdsOwn clock0 token
      (InFlight token (invocationAt clock0 token k) :: pool) (k :: ks)
| own_returned (pool : list Evaluation) (ks : list nat) (k : nat) :
    holdsOwn clock0 token pool ks ->
    holdsOwn clock0 token
      (Returned (afterRefresh token (invocationAt clock0 token k)) :: pool)
      (k :: ks).

End AuthConfig.

(** ** next-auth: the [auth] wrapper *)
Module NextAuth.

(** [next-auth] is a dependency, not part of the repository.
    [auth((request) => ...)] computes [request.auth] before the wrapped
    handler runs.  Without a session cookie it is [null].  With one, the
    [jwt] callback runs on the decoded cookie (no [user], no [trigger]);
    the default session [{ user: { name, email, image }, expires }] is
    built from the token it returns; the [session] callback runs on that
    session; and the default session stands in for a [null] or
    [undefined] answer of the callback
    ([(await callbacks.session(...)) ?? { ...session }]). *)
Section Auth.

Variable jwtCallback : AuthConfig.JWT -> AuthConfig.M AuthConfig.JWT.
Variable sessionCallback :
  AuthConfig.Session -> option AuthConfig.JWT -> option AuthConfig.Session.

Definition defaultSession (token : AuthConfig.JWT) : AuthConfig.Session :=
  AuthConfig.mkSession
    (Some (AuthConfig.mkSessionUser None None (AuthConfig.email token)
             (AuthConfig.name token) None None None None))
    None None.

Definition auth (cookie : option AuthConfig.JWT)
  : AuthConfig.M (option AuthConfig.Session) :=
  match cookie with
  | None => AuthConfig.ret None
  | Some token =>
      AuthConfig.bind (jwtCallback token)
        (fun token' =>
           let session := defaultSession token' in
           AuthConfig.ret
             (Some (match sessionCallback session (Some token') with
                    | Some answered => answered
                    | None => session
                    end)))
  end.

End Auth.

End NextAuth.

(** ** constants/routes *)
Module Routes.

Definition HOME : string := "/".
Definition LOGIN : string := "/login".
Definition LOGOUT : string := "/logout".
Definition FORGOT_PASSWORD : string := "/forgot-password".
Definition DASHBOARD_ROOT : string := "/dashboard".

Definition PUBLIC_ROUTES : list string := [HOME; LOGIN; FORGOT_PASSWORD].

End Routes.

(** ** proxy.ts: the route guard *)
Module Proxy.

(** What the guard reads from the request: [nextUrl.pathname],
    [nextUrl.searchParams.get('returnUrl')] and the session NextAuth
    attached as [request.auth]. *)
Record Request : Type := mkRequest {
  pathname : string;
  returnUrl : option string;
  auth : option AuthConfig.Session
}.

(** [NextResponse.next()] or [NextResponse.redirect(url)], where [url] is
    [new URL(target, request.url)] with the listed search parameters set. *)
Inductive Response : Type :=
| Next
| Redirect (target : string) (searchParams : list (string * string)).

(** [isPublicRoute]. *)
Definition isPublicRoute (pathname : string) : bool :=
  JS.some
    (fun route =>
       (pathname =? route)%string || JS.startsWith pathname (route ++ "/"))
    Routes.PUBLIC_ROUTES.

(** [!!request.auth?.user]. *)
Definition isAuthenticated (request : Request) : bool :=
  match auth request with
  | Some s =>
      match AuthConfig.user s with
      | Some _ => true
      | None => false
      end
  | None => false
  end.

(** The function wrapped by [auth(...)]. *)
Definition middleware (request : Request) : Response :=
  if isPublicRoute (pathname request) then
    if (pathname request =? Routes.LOGIN)%string && isAuthenticated request then
      Redirect (JS.or_str (returnUrl request) Routes.DASHBOARD_ROOT) []
    else Next
  else if negb (isAuthenticated request) then
    Redirect Routes.LOGIN [("returnUrl", pathname request)]
  else Next.

(** [config.matcher].  Its one pattern is a slash followed by a group
    that a negative lookahead guards: the rest of the pathname must not
    begin with [api/auth], [_next/static], [_next/image] or [favicon.ico]
    (the dot of the pattern standing for any one character), and must not
    end in a dot followed by [svg], [png], [jpg], [jpeg], [gif] or
    [webp].  Next.js runs the proxy on a request only when its pathname
    matches.  (A pathname holds no line terminator, so the dots of the
    pattern match each of its characters.) *)
Definition IMAGE_EXTENSIONS : list string :=
  ["svg"; "png"; "jpg"; "jpeg"; "gif"; "webp"].

Definition beginsLikeFavicon (rest : string) : bool :=
  String.prefix "favicon" rest
  && match String.get 7 rest with
     | Some _ => String.prefix "ico" (String.substring 8 (String.length rest - 8) rest)
     | None => false
     end.

Definition matcher (pathname : string) : bool :=
  match pathname with
  | String c rest =>
      Ascii.eqb c "/"
      && negb (String.prefix "api/auth" rest
               || String.prefix "_next/static" rest
               || String.prefix "_next/image" rest
               || beginsLikeFavicon rest
               || existsb (fun ext => JS.endsWith rest ("." ++ ext)) IMAGE_EXTENSIONS)
  | EmptyString => false
  end.

(** The proxy as Next.js runs it: the handler's answer on a matched
    pathname; on the others the handler is not called and the request goes
    on to its route. *)
Definition proxy (request : Request) : option Response :=
  if matcher (pathname request) then Some (middleware request) else None.

End Proxy.

(** ** app/(auth)/login/action: the login server action *)
Module LoginAction.

(** [ActionResponse['error']['code']] is [string | number]. *)
Inductive Code : Type :=
| CodeString (s : string)
| CodeNumber (n : Z).

Record ActionError : Type := mkActionError {
  code : Code;
  message : string
}.

(** [ActionResponse<{ redirectUrl }>]. *)
Record ActionResponse : Type := mkActionResponse {
  success : bool;
  data : option string;
  error : option ActionError
}.

(** What the [catch] clause can receive: an [APIResponseError] from the
    API client, an [AuthError] from NextAuth (by its [type]), another
    [Error], or a value that is not an [Error]. *)
Inductive Thrown : Type :=
| APIResponseError (statusCode message : string) (status : Z)
| AuthError (kind : string)
| OtherError (message : string)
| NonError.

Record LoginRequest : Type := mkLoginRequest {
  username : string;
  password : string
}.

Record UserInfo : Type := mkUserInfo {
  ui_id : string;
  ui_username : string;
  ui_email : string;
  title_name : string;
  first_name : string;
  last_name : string;
  ui_status : string;
  last_login_date : string
}.

Record AuthTokenResponse : Type := mkAuthTokenResponse {
  access_token : string;
  access_token_expires : string;
  refresh_token : string;
  refresh_token_expires : string;
  user_info : UserInfo;
  access_token_expires_in : Z
}.

(** The options [loginAction] passes to [signIn('credentials', ...)]. *)
Record SignInOptions : Type := mkSignInOptions {
  access : string;
  refresh : string;
  so_username : string;
  so_email : string;
  firstName : string;
  lastName : string;
  titleName : string;
  userId : string;
  so_status : string
}.

(** The three user-facing messages. *)
Definition MSG_BAD_LOGIN : string := "ชื่อผู้ใช้หรือรหัสผ่านไม่ถูกต้อง".
Definition MSG_AUTH_ERROR : string := "เกิดข้อผิดพลาดในการเข้าสู่ระบบ".
Definition MSG_UNEXPECTED : string := "เกิดข้อผิดพลาดที่ไม่คาดคิด".

(** The rejection [handleResponse] of the API client builds when
    [!response.ok]: [code] and [message] come from the JSON body when it
    has them, [status] is the HTTP status. *)
Definition httpRejection (bodyCode bodyMessage : option string)
    (status : Z) (statusText : string) : Thrown :=
  APIResponseError
    (match bodyCode with
     | Some c => c
     | None => "INTERNAL_SERVER_ERROR"
     end)
    (match bodyMessage with
     | Some m => m
     | None =>
         "HTTP Error " ++ NilZero.string_of_int (Z.to_int status) ++ ": " ++ statusText
     end)
    status.

(** The [catch] clause of [loginAction]. *)
Definition onError (e : Thrown) : ActionResponse :=
  match e with
  | APIResponseError _ message status =>
      mkActionResponse false None
        (Some (mkActionError (CodeNumber status)
                 (JS.or_str (Some message) MSG_BAD_LOGIN)))
  | AuthError kind =>
      if (kind =? "CredentialsSignin")%string then
        mkActionResponse false None
          (Some (mkActionError (CodeString "INVALID_CREDENTIALS") MSG_BAD_LOGIN))
      else
        mkActionResponse false None
          (Some (mkActionError (CodeString "AUTH_ERROR") MSG_AUTH_ERROR))
  | OtherError message =>
      mkActionResponse false None
        (Some (mkActionError (CodeString "UNKNOWN_ERROR") message))
  | NonError =>
      mkActionResponse false None
        (Some (mkActionError (CodeString "UNKNOWN_ERROR") MSG_UNEXPECTED))
  end.

Section Action.

(** The backend behind [post(API_ROUTES.LOGIN, ...)] and the NextAuth
    session store behind [signIn]: [post] cannot reach the store, [signIn]
    is the only operation that can create a session in it. *)
Variable Server : Type.
Variable Store : Type.
Variable post : LoginRequest -> Server -> (Thrown + AuthTokenResponse) * Server.
(** [signIn] resolves with [result?.error] or rejects. *)
Variable signIn : SignInOptions -> Store -> (Thrown + option string) * Store.

Definition signInOptions (authData : AuthTokenResponse) : SignInOptions :=
  let info := user_info authData in
  mkSignInOptions (access_token authData) (refresh_token authData)
    (ui_username info) (ui_email info) (first_name info) (last_name info)
    (title_name info) (ui_id info) (ui_status info).

(** [loginAction(credentials)]. *)
Definition loginAction (credentials : LoginRequest) (srv : Server) (store : Store)
  : ActionResponse * Server * Store :=
  let payload := mkLoginRequest (username credentials) (password credentials) in
  match post payload srv with
  | (inl e, srv') => (onError e, srv', store)
  | (inr authData, srv') =>
      match signIn (signInOptions authData) store with
      | (inl e, store') => (onError e, srv', store')
      | (inr result, store') =>
          if JS.truthy_opt result then
            (mkActionResponse false None
               (Some (mkActionError (CodeString "AUTH_FAILED") MSG_BAD_LOGIN)),
             srv', store')
          else
            (mkActionResponse true (Some Routes.HOME) None, srv', store')
      end
  end.

End Action.

Arguments loginAction {Server Store} post signIn credentials srv store.

(** [response.error?.code]. *)
Definition errorCode (response : ActionResponse) : option Code :=
  match error response with
  | Some e => Some (code e)
  | None => None
  end.

End LoginAction.

(** ** The specification's vocabulary *)
Module Spec.

(** The cause recorded by a failed refresh; the callbacks know one. *)
Inductive Cause : Type := RefreshAccessTokenError.

Definition causeTag (c : Cause) : string :=
  match c with
  | RefreshAccessTokenError => "RefreshAccessTokenError"
  end.

(** Session State Machine states. *)
Inductive SessionState : Type :=
| Unauthenticated
| Authenticated (pair : AuthConfig.JWT)
| AuthenticatedError (pair : AuthConfig.JWT) (cause : Cause).

(** Route Guard decisions. *)
Inductive Decision : Type :=
| Allow
| RedirectToLogin (returnTo : string)
| RedirectTo (url : string).

(** Expiry Policy classes. *)
Inductive Expiry : Type := Valid | ExpiringSoon | IsExpired.

Definition classify (info : JwtUtils.TokenInfo) : Expiry :=
  if JwtUtils.isExpired info then IsExpired
  else if JwtUtils.willExpireSoon info then ExpiringSoon
  else Valid.

(** The expiry claim a token carries, in seconds since the epoch: the
    [exp] member of the payload that [jwt-decode] reads from the token. *)
Definition expClaim (decodeSegment : string -> option JwtUtils.EnhancedJwtPayload)
    (token : string) : option Z :=
  match JwtUtils.jwtDecode decodeSegment token with
  | Some p => JwtUtils.exp p
  | None => None
  end.

(** The session cookie of a state. *)
Definition cookie (state : SessionState) : option AuthConfig.JWT :=
  match state with
  | Unauthenticated => None
  | Authenticated p => Some (AuthConfig.with_error None p)
  | AuthenticatedError p cause =>
      Some (AuthConfig.with_error (Some (causeTag cause)) p)
  end.

(** A session as NextAuth hands it to the [session] callback: it has a
    [user] object. *)
Definition incomingSession : AuthConfig.Session :=
  AuthConfig.mkSession
    (Some (AuthConfig.mkSessionUser None None None None None None None None))
    None None.

(** [request.auth] for a state: what [auth] of the configured NextAuth
    makes of the state's cookie, with [refresh] as the refresh executor of
    the [jwt] callback. *)
Definition requestAuth
    (decodeSegment : string -> option JwtUtils.EnhancedJwtPayload)
    (refresh : AuthConfig.JWT -> AuthConfig.M (option AuthConfig.JWT))
    (state : SessionState) : AuthConfig.M (option AuthConfig.Session) :=
  NextAuth.auth
    (fun token => AuthConfig.jwtWith decodeSegment refresh token None None None)
    AuthConfig.session (cookie state).

Definition isAuthenticatedState (state : SessionState) : bool :=
  match state with
  | Authenticated _ => true
  | _ => false
  end.

(** Route classification: a table of path prefixes; the login path is
    public only to visitors without a session, the other entries are
    always public, and a path outside the table is protected.  A path
    falls under an entry when it is the entry or lies below it. *)
Inductive RouteClass : Type := PublicLogin | PublicAlways | Protected.

Definition routeTable : list (string * RouteClass) :=
  [("/", PublicAlways); ("/login", PublicLogin); ("/forgot-password", PublicAlways)].

Definition fallsUnder (path entry : string) : bool :=
  (path =? entry)%string || String.prefix (entry ++ "/") path.

Definition routeClass (path : string) : RouteClass :=
  if (path =? "/login")%string then PublicLogin
  else if existsb (fun entry => fallsUnder path (fst entry)) routeTable
       then PublicAlways
       else Protected.

Definition isPublicClass (c : RouteClass) : bool :=
  match c with
  | Protected => false
  | _ => true
  end.

(** The four rules of the Route Guard, in the order the specification
    gives them. *)
Definition authorize (path : string) (returnUrl : option string)
    (state : SessionState) : Decision :=
  match routeClass path, isAuthenticatedState state with
  | PublicLogin, true =>
      RedirectTo (JS.or_str returnUrl Routes.DASHBOARD_ROOT)
  | c, authenticated =>
      if isPublicClass c then Allow
      else if negb authenticated then RedirectToLogin path
      else Allow
  end.


End Spec.

(** ** Tokens used in the examples *)
Module Fixtures.

(** The payload segments of the example tokens, with what base64url
    decoding and [JSON.parse] make of each: [{"exp":9999999999}],
    [{"exp":1000}], [{"sub":"admin"}] and [{"exp":0}].  Any other segment
    used below ([!], [x]) is not base64url-encoded JSON. *)
Definition withExp (e : Z) : JwtUtils.EnhancedJwtPayload :=
  JwtUtils.mkPayload None None None None (Some e) None None None None None None None.

Definition decodeSegment (segment : string) : option JwtUtils.EnhancedJwtPayload :=
  if (segment =? "eyJleHAiOjk5OTk5OTk5OTl9")%string then Some (withExp 9999999999)
  else if (segment =? "eyJleHAiOjEwMDB9")%string then Some (withExp 1000)
  else if (segment =? "eyJzdWIiOiJhZG1pbiJ9")%string then
    Some (JwtUtils.mkPayload (Some "admin") None None None None None None None
            None None None None)
  else if (segment =? "eyJleHAiOjB9")%string then Some (withExp 0)
  else None.

(** [header.payload.signature] tokens over the segments above. *)
Definition HEADER : string := "eyJhbGciOiJIUzI1NiIsInR5cCI6IkpXVCJ9".
Definition tokenFarFuture : string := HEADER ++ ".eyJleHAiOjk5OTk5OTk5OTl9.sig".
Definition tokenExp1000 : string := HEADER ++ ".eyJleHAiOjEwMDB9.sig".
Definition tokenNoExp : string := HEADER ++ ".eyJzdWIiOiJhZG1pbiJ9.sig".

(** A clock that always reads [t], and one that starts at [t] and
    advances by one millisecond per reading. *)
Definition frozenAt (t : Z) : AuthConfig.World :=
  AuthConfig.mkWorld (fun _ => t) 0 0.

Definition tickingFrom (t : Z) : AuthConfig.World :=
  AuthConfig.mkWorld (fun n => t + Z.of_nat n) 0 0.

Definition blankToken : AuthConfig.JWT :=
  AuthConfig.mkJWT None None None None None None None None None None None None.

(** The cookie of an established session whose access token expires at
    second 1000. *)
Definition sessionToken : AuthConfig.JWT :=
  AuthConfig.mkJWT (Some "admin") (Some "admin") (Some "admin@example.org")
    (Some "Ad Min") (Some "Ad") (Some "Min") (Some "admin") (Some [])
    (Some tokenExp1000) (Some "refresh") (Some 1000000) None.


(** A refresh executor that fails the way the [catch] branch of
    [refreshAccessToken] would. *)
Definition failingRefresh (token : AuthConfig.JWT)
  : AuthConfig.M (option AuthConfig.JWT) :=
  AuthConfig.ret
    (Some (AuthConfig.with_error (Some "RefreshAccessTokenError") token)).

(** A login API that answers every attempt with [401 Unauthorized] and a
    JSON body naming the reason, and a [signIn] that would create the
    session (the store records whether one exists). *)
Definition rejectingPost (payload : LoginAction.LoginRequest) (srv : unit)
  : (LoginAction.Thrown + LoginAction.AuthTokenResponse) * unit :=
  (inl (LoginAction.httpRejection (Some "INVALID_CREDENTIALS")
          (Some "Invalid username or password") 401 "Unauthorized"), srv).

Definition creatingSignIn (options : LoginAction.SignInOptions) (store : bool)
  : (LoginAction.Thrown + option string) * bool :=
  (inr None, true).

Definition admin (accessToken : string) : AuthConfig.User :=
  AuthConfig.mkUser "admin" "admin" "admin@example.org" "Ad Min" "Ad" "Min"
    "admin" [] (Some accessToken) (Some "refresh").

End Fixtures.

(** ** lib/auth/token.utils, continued *)
Module TokenMisc.

(** [epochToDate(epoch)]: the time value of the returned [Date];
    [timezoneOffset] is [new Date().getTimezoneOffset()], in minutes. *)
Definition epochToDate (timezoneOffset : Z) (epoch : Z) : Z :=
  let _epoch := if epoch <? 10000000000 then epoch * 1000 else epoch in
  _epoch + timezoneOffset * -60000.

Section Runs.

Variable T : Type.
Variable St : Type.
Variable refreshFn : St -> (JwtUtils.Thrown + T) * St.

(** [failsThrough k st st']: from [st], [refreshFn] rejects [k] times in a
    row with errors that are retried, leaving the state [st']. *)
Inductive failsThrough : nat -> St -> St -> Prop :=
| failsThrough_O (st : St) : failsThrough O st st
| failsThrough_S (k : nat) (st st1 st' : St) (e : JwtUtils.Thrown) :
    refreshFn st = (inl e, st1) ->
    JwtUtils.noRetry e = false ->
    failsThrough k st1 st' ->
    failsThrough (S k) st st'.

End Runs.

Arguments failsThrough {T St} refreshFn k st st'.

(** [Call 0; Wait 1000; Call 1; Wait 2000; ...; Call k] from attempt
    [attempt] on: [k] failed calls, each followed by its backoff, then one
    more call. *)
Fixpoint retryTrace (k : nat) (attempt : Z) : list JwtUtils.Event :=
  match k with
  | O => [JwtUtils.Call attempt]
  | S k' =>
      JwtUtils.Call attempt :: JwtUtils.Wait (1000 * 2 ^ attempt)
        :: retryTrace k' (attempt + 1)
  end.

(** A [refreshFn] for the examples: the state counts the calls; the
    first two fail to reach the server, the third resolves with a
    well-formed access token. *)
Definition flakyRefresh (st : nat) : (JwtUtils.Thrown + string) * nat :=
  (if (st <? 2)%nat
   then inl (JwtUtils.OtherError "TypeError" "fetch failed")
   else inr Fixtures.tokenFarFuture,
   S st).

(** One that never reaches the server. *)
Definition offlineRefresh (st : unit) : (JwtUtils.Thrown + string) * unit :=
  (inl (JwtUtils.OtherError "TypeError" "fetch failed"), st).

End TokenMisc.

(** ** lib/auth/auth.config: the Credentials provider *)
Module CredentialsProvider.

(** The [credentials] object [authorize] receives, by the keys it reads;
    every value may be missing. *)
Record Credentials : Type := mkCredentials {
  access : option string;
  refresh : option string;
  username : option string;
  email : option string;
  firstName : option string;
  lastName : option string;
  permissions : option string
}.

(** The object [authorize] returns.  [email], [firstName] and [lastName]
    are passed on as they came ([as string] changes nothing at run time). *)
Record AuthorizedUser : Type := mkAuthorizedUser {
  a_id : string;
  a_username : string;
  a_email : option string;
  a_name : string;
  a_firstName : option string;
  a_lastName : option string;
  a_role : string;
  a_permissions : list string;
  a_accessToken : string;
  a_refreshToken : string
}.

(** [authorize] resolves with [null], resolves with a user, or rejects
    with the [SyntaxError] of [JSON.parse]. *)
Inductive Outcome : Type :=
| Rejected
| Accepted (user : AuthorizedUser)
| ParseFailed.

Section Authorize.

(** [JSON.parse] on the [permissions] text ([None] when it throws) and
    [String.prototype.trim]. *)
Variable parsePermissions : string -> option (list string).
Variable trim : string -> string.

(** A truthy optional string, as the string it is. *)
Definition truthy (o : option string) : option string :=
  match o with
  | Some s => if JS.truthy_str s then Some s else None
  | None => None
  end.

(** [authorize(credentials)]. *)
Definition authorize (credentials : option Credentials) : Outcome :=
  match credentials with
  | None => Rejected
  | Some c =>
      match truthy (access c), truthy (refresh c), truthy (username c) with
      | Some acc, Some ref, Some name =>
          match parsePermissions (JS.or_str (permissions c) "[]") with
          | Some perms =>
              Accepted
                (mkAuthorizedUser name name (email c)
                   (trim (JS.or_str (firstName c) "" ++ " " ++ JS.or_str (lastName c) ""))
                   (firstName c) (lastName c) "admin" perms acc ref)
          | None => ParseFailed
          end
      | _, _, _ => Rejected
      end
  end.

End Authorize.



(** An API answer for the examples. *)
Definition sampleAuthData : LoginAction.AuthTokenResponse :=
  LoginAction.mkAuthTokenResponse Fixtures.tokenFarFuture "2286-11-20T17:46:39Z"
    "refresh-token" "2286-11-20T17:46:39Z"
    (LoginAction.mkUserInfo "7" "admin" "admin@example.org" "Dr" "Ad" "Min"
       "active" "2026-01-01T00:00:00Z")
    3600.

End CredentialsProvider.

(** ** app/(auth)/login/page: the submit handler *)
Module LoginPage.

(** [searchParams.get(key)]: the first value under [key]. *)
Fixpoint get (key : string) (searchParams : list (string * string)) : option string :=
  match searchParams with
  | [] => None
  | (k, v) :: rest => if (k =? key)%string then Some v else get key rest
  end.

(** What [onSubmit] does once [loginAction] has answered: the success
    toast followed by [router.push(url)] and [router.refresh()], or the
    error toast with its description. *)
Inductive Effect : Type :=
| PushAndRefresh (url : string)
| ToastError (description : string).

(** [result.error?.message]. *)
Definition errorMessage (result : LoginAction.ActionResponse) : option string :=
  match LoginAction.error result with
  | Some e => Some (LoginAction.message e)
  | None => None
  end.

(** The part of [onSubmit] after [await loginAction(...)]. *)
Definition onSubmit (searchParams : list (string * string))
    (result : LoginAction.ActionResponse) : Effect :=
  if LoginAction.success result then
    PushAndRefresh (JS.or_str (get "returnUrl" searchParams) Routes.HOME)
  else
    ToastError (JS.or_str (errorMessage result) LoginAction.MSG_UNEXPECTED).

End LoginPage.

(** ** app/(auth)/logout/action *)
Module LogoutAction.

(** What the action can throw: the error of [signOut], or the
    [NEXT_REDIRECT] signal by which [redirect(path)] of [next/navigation]
    leaves the function (it never returns). *)
Inductive Thrown : Type :=
| SignOutError (message : string)
| NextRedirect (path : string).

(** How a block ends: normally, or by a [throw]. *)
Inductive Completion : Type :=
| Normal
| Throw (e : Thrown).

(** [try { body } catch (error) { handler(error) }]. *)
Definition tryCatch (body : Completion) (handler : Thrown -> Completion) : Completion :=
  match body with
  | Normal => Normal
  | Throw e => handler e
  end.

(** [try { body } finally { finalizer }]: a finalizer that ends by a
    [throw] replaces the completion of the body. *)
Definition tryFinally (body finalizer : Completion) : Completion :=
  match finalizer with
  | Normal => body
  | Throw e => Throw e
  end.

(** [redirect(path)]. *)
Definition redirect (path : string) : Completion := Throw (NextRedirect path).

Section Action.

(** The session store and [signOut({ redirect: false })], which resolves
    or rejects with a message. *)
Variable Store : Type.
Variable signOut : Store -> option string * Store.

(** [logoutAction()]. *)
Definition logoutAction (store : Store) : Completion * Store :=
  let '(failure, store') := signOut store in
  (tryFinally
     (tryCatch
        match failure with
        | None => Normal
        | Some message => Throw (SignOutError message)
        end
        (fun error => Throw error))
     (redirect Routes.LOGIN),
   store').

End Action.

Arguments logoutAction {Store} signOut store.

End LogoutAction.

(** ** services/api/base: the API client *)
Module ApiClient.

(** [s.includes(sub)]. *)
Fixpoint includes (s sub : string) : bool :=
  String.prefix sub s
  || match s with
     | EmptyString => false
     | String _ rest => includes rest sub
     end.

(** [s.endsWith('/')]. *)
Fixpoint endsWithSlash (s : string) : bool :=
  match s with
  | EmptyString => false
  | String c EmptyString => Ascii.eqb c "/"
  | String _ rest => endsWithSlash rest
  end.

(** [s.slice(0, -1)]. *)
Fixpoint dropLast (s : string) : string :=
  match s with
  | EmptyString => EmptyString
  | String _ EmptyString => EmptyString
  | String c rest => String c (dropLast rest)
  end.

(** [s.slice(1)]. *)
Definition slice1 (s : string) : string :=
  match s with
  | EmptyString => EmptyString
  | String _ rest => rest
  end.

(** The test for a full URL in [buildURL]. *)
Definition isFullURL (endpoint : string) : bool :=
  JS.startsWith endpoint "http://" || JS.startsWith endpoint "https://".

Section BuildURL.

(** [apiURL] comes from the environment; [params] is an object with
    [Object.keys(params).length] keys that the [query-string] package
    renders. *)
Variable apiURL : string.
Variable Params : Type.
Variable keyCount : Params -> nat.
Variable stringify : Params -> string.

(** [buildURL(endpoint, params)]. *)
Definition buildURL (endpoint : string) (params : option Params) : string :=
  let baseURL := apiURL in
  if isFullURL endpoint then endpoint
  else
    let cleanEndpoint :=
      if JS.startsWith endpoint "/" then slice1 endpoint else endpoint in
    let cleanBaseURL :=
      if endsWithSlash baseURL then dropLast baseURL else baseURL in
    let url := cleanBaseURL ++ "/" ++ cleanEndpoint in
    match params with
    | Some ps =>
        if Nat.ltb 0 (keyCount ps) then url ++ "?" ++ stringify ps else url
    | None => url
    end.

(** The query string [buildURL] appends: none unless [params] has keys. *)
Definition queryOf (params : option Params) : string :=
  match params with
  | Some ps => if Nat.ltb 0 (keyCount ps) then "?" ++ stringify ps else ""
  | None => ""
  end.

End BuildURL.

(** What a [catch] clause of the client tells apart: an [Error] named
    ['AbortError'], or anything else. *)
Inductive Raised : Type :=
| AbortError
| Raise (e : LoginAction.Thrown).

Section Responses.

(** A parsed JSON body; [codeOf j] is [String(j.code)] when [j] is an
    object with a ['code'] key, [messageOf j] is [j.message] when it has
    a ['message'] key. *)
Variable Json : Type.
Variable codeOf : Json -> option string.
Variable messageOf : Json -> option string.

(** What [handleResponse] resolves with: [{}], the parsed JSON or the
    text of the body. *)
Inductive Data : Type :=
| NoContent
| JsonData (j : Json)
| TextData (s : string).

(** A [Response]: status line, [Content-Type] header, and what reading
    the body gives ([json] is [None] when [response.json()] rejects). *)
Record Response : Type := mkResponse {
  status : Z;
  statusText : string;
  contentType : option string;
  json : option Json;
  text : Raised + string
}.

(** [response.ok]: a status from 200 to 299. *)
Definition ok (r : Response) : bool := (200 <=? status r) && (status r <=? 299).

(** [contentType?.includes('application/json')]. *)
Definition isJson (r : Response) : bool :=
  match contentType r with
  | Some ct => includes ct "application/json"
  | None => false
  end.

Definition bodyCode (d : Data) : option string :=
  match d with
  | JsonData j => codeOf j
  | _ => None
  end.

Definition bodyMessage (d : Data) : option string :=
  match d with
  | JsonData j => messageOf j
  | _ => None
  end.

(** [handleResponse(response)]. *)
Definition handleResponse (r : Response) : Raised + Data :=
  if status r =? 204 then inr NoContent
  else
    let read :=
      if isJson r then
        match json r with
        | Some j => inr (JsonData j)
        | None =>
            inl (Raise (LoginAction.APIResponseError "PARSE_ERROR"
                          ("Response cannot parse to JSON: " ++ statusText r)
                          (status r)))
        end
      else
        match text r with
        | inr s => inr (TextData s)
        | inl e => inl e
        end in
    match read with
    | inl e => inl e
    | inr data =>
        if negb (ok r) then
          inl (Raise (LoginAction.httpRejection (bodyCode data) (bodyMessage data)
                        (status r) (statusText r)))
        else inr data
    end.

(** [fetchBase], from the settling of [fetch] on: the [catch] clause turns
    an ['AbortError'] into the [TIMEOUT] rejection and rethrows the rest.
    (The steps before [fetch] build the URL, the headers and the body and
    do not throw for well-typed options.) *)
Definition fetchBase (fetched : Raised + Response) : LoginAction.Thrown + Data :=
  let settled :=
    match fetched with
    | inl e => inl e
    | inr r => handleResponse r
    end in
  match settled with
  | inl AbortError =>
      inl (LoginAction.APIResponseError "TIMEOUT" "Request timeout after 30 seconds" 408)
  | inl (Raise e) => inl e
  | inr data => inr data
  end.

Section Login.

(** The network behind [post(API_ROUTES.LOGIN, payload, ...)] and the
    cast of the resolved data to [AuthTokenResponse]. *)
Variable Server : Type.
Variable network : LoginAction.LoginRequest -> Server -> (Raised + Response) * Server.
Variable asAuthData : Data -> LoginAction.AuthTokenResponse.

(** [post], as [loginAction] calls it. *)
Definition post (payload : LoginAction.LoginRequest) (srv : Server)
  : (LoginAction.Thrown + LoginAction.AuthTokenResponse) * Server :=
  let '(fetched, srv') := network payload srv in
  (match fetchBase fetched with
   | inl e => inl e
   | inr data => inr (asAuthData data)
   end, srv').

End Login.

End Responses.

Arguments NoContent {Json}.
Arguments TextData {Json} s.
Arguments mkResponse {Json} status statusText contentType json text.
Arguments status {Json} r.
Arguments statusText {Json} r.
Arguments contentType {Json} r.
Arguments json {Json} r.
Arguments text {Json} r.
Arguments ok {Json} r.
Arguments isJson {Json} r.
Arguments handleResponse {Json} codeOf messageOf r.
Arguments fetchBase {Json} codeOf messageOf fetched.
Arguments post {Json} codeOf messageOf {Server} network asAuthData payload srv.

End ApiClient.

(** ** configs/navigation *)
Module Navigation.

(** [NavigationItem], by the fields the configuration sets ([badge] and
    [isActive] are set nowhere and read by none of the utilities). *)
Inductive NavigationItem : Type :=
| mkItem (name href : string) (icon description : option string)
    (roles : option (list string)) (children : option (list NavigationItem))
    (isExternal : option bool).

Definition href (item : NavigationItem) : string :=
  match item with
  | mkItem _ h _ _ _ _ _ => h
  end.

Definition roles (item : NavigationItem) : option (list string) :=
  match item with
  | mkItem _ _ _ _ r _ _ => r
  end.

Definition children (item : NavigationItem) : option (list NavigationItem) :=
  match item with
  | mkItem _ _ _ _ _ c _ => c
  end.

(** An entry without children, and a child entry. *)
Definition entry (name href icon description : string)
    (roles : option (list string)) (isExternal : option bool) : NavigationItem :=
  mkItem name href (Some icon) (Some description) roles None isExternal.

Definition child (name href icon : string) : NavigationItem :=
  mkItem name href (Some icon) None None None None.

Definition DASHBOARD_ITEM : NavigationItem :=
  entry "แดชบอร์ด" "/dashboard" "LayoutDashboard" "ภาพรวมของระบบ" None None.

Definition REPORTS_ITEM : NavigationItem :=
  mkItem "รายงาน" "/dashboard/reports" (Some "FileText") (Some "ดูรายงานต่างๆ")
    (Some ["SUPER_ADMIN"; "ADMIN"; "STAFF"])
    (Some [child "ภาพรวม" "/dashboard/reports/overview" "BarChart3";
           child "รายงานผู้ป่วย" "/dashboard/reports/patients" "Users";
           child "รายงานไรเดอร์" "/dashboard/reports/riders" "Truck";
           child "รายงานบริการ" "/dashboard/reports/services" "Activity"])
    None.

Definition DOCTORS_ITEM : NavigationItem :=
  entry "จัดการแพทย์" "/dashboard/doctors" "UserCheck" "จัดการข้อมูลแพทย์"
    (Some ["SUPER_ADMIN"; "ADMIN"]) None.

Definition PATIENTS_ITEM : NavigationItem :=
  entry "จัดการผู้ป่วย" "/dashboard/patients" "Users" "จัดการข้อมูลผู้ป่วย"
    (Some ["SUPER_ADMIN"; "ADMIN"; "STAFF"]) None.

Definition RIDERS_ITEM : NavigationItem :=
  entry "จัดการไรเดอร์" "/dashboard/riders" "Truck" "จัดการข้อมูลไรเดอร์"
    (Some ["SUPER_ADMIN"; "ADMIN"]) None.

Definition SERVICE_AREAS_ITEM : NavigationItem :=
  entry "พื้นที่บริการ" "/dashboard/service-areas" "MapPin" "จัดการพื้นที่บริการ"
    (Some ["SUPER_ADMIN"; "ADMIN"]) None.

Definition STOCKS_ITEM : NavigationItem :=
  entry "คลังสินค้า" "/dashboard/stocks" "Package" "จัดการคลังสินค้า"
    (Some ["SUPER_ADMIN"; "ADMIN"; "STAFF"]) None.

Definition MAIN_NAVIGATION : list NavigationItem :=
  [DASHBOARD_ITEM; DOCTORS_ITEM; PATIENTS_ITEM; RIDERS_ITEM; SERVICE_AREAS_ITEM;
   STOCKS_ITEM; REPORTS_ITEM].

Definition SECONDARY_NAVIGATION : list NavigationItem :=
  [entry "Profile" "/dashboard/profile" "User" "User profile settings" None None;
   entry "Settings" "/dashboard/settings" "Settings" "Application settings" None None;
   entry "Help" "/help" "HelpCircle" "Get help and support" None (Some true);
   entry "Contact" "/contact" "Phone" "Contact support" None (Some true)].

Definition PUBLIC_ROUTES : list string :=
  ["/login"; "/forgot-password"; "/reset-password"; "/error"; "/maintenance"].

Definition PROTECTED_ROUTES : list string :=
  ["/dashboard"; "/dashboard/doctors"; "/dashboard/patients"; "/dashboard/riders";
   "/dashboard/service-areas"; "/dashboard/stocks"; "/dashboard/reports";
   "/dashboard/profile"; "/dashboard/settings"].

Definition ADMIN_ROUTES : list string :=
  ["/dashboard/doctors"; "/dashboard/patients"; "/dashboard/riders";
   "/dashboard/service-areas"; "/dashboard/stocks"; "/dashboard/reports"].

Definition SUPER_ADMIN_ROUTES : list string :=
  ["/dashboard/doctors"; "/dashboard/patients"; "/dashboard/riders";
   "/dashboard/service-areas"].

(** [isPublicRoute], [isProtectedRoute], [isAdminRoute],
    [isSuperAdminRoute]: [routes.some((route) => path.startsWith(route))]. *)
Definition isPublicRoute (path : string) : bool :=
  JS.some (fun route => JS.startsWith path route) PUBLIC_ROUTES.

Definition isProtectedRoute (path : string) : bool :=
  JS.some (fun route => JS.startsWith path route) PROTECTED_ROUTES.

Definition isAdminRoute (path : string) : bool :=
  JS.some (fun route => JS.startsWith path route) ADMIN_ROUTES.

Definition isSuperAdminRoute (path : string) : bool :=
  JS.some (fun route => JS.startsWith path route) SUPER_ADMIN_ROUTES.

(** [xs.includes(x)] on strings. *)
Definition includes (xs : list string) (x : string) : bool :=
  existsb (fun y => (y =? x)%string) xs.

(** [getNavigationForRole]. *)
Definition getNavigationForRole (role : string) : list NavigationItem :=
  filter
    (fun item =>
       match roles item with
       | None => true
       | Some rs => includes rs role
       end)
    MAIN_NAVIGATION.

(** [getActiveNavigationItem]. *)
Definition getActiveNavigationItem (path : string) : option NavigationItem :=
  let allItems := (MAIN_NAVIGATION ++ SECONDARY_NAVIGATION)%list in
  find
    (fun item =>
       if (href item =? path)%string then true
       else
         match children item with
         | Some cs => JS.some (fun c => (href c =? path)%string) cs
         | None => false
         end)
    allItems.

End Navigation.

(** ** Login scenarios *)
Module Scenarios.

(** A login API that accepts every attempt, and a [signIn] that rejects
    with NextAuth's [CredentialsSignin] error without creating a session
    (the store records whether one exists). *)
Definition acceptingPost (payload : LoginAction.LoginRequest) (srv : unit)
  : (LoginAction.Thrown + LoginAction.AuthTokenResponse) * unit :=
  (inr CredentialsProvider.sampleAuthData, srv).

Definition refusingSignIn (options : LoginAction.SignInOptions) (store : bool)
  : (LoginAction.Thrown + option string) * bool :=
  (inl (LoginAction.AuthError "CredentialsSignin"), store).

End Scenarios.

(** * Properties *)

(** ** JavaScript primitives *)

Lemma truthy_num_true (n : Z) : JS.truthy_num n = true <-> n <> 0.
Proof.
  unfold JS.truthy_num. rewrite negb_true_iff, Z.eqb_neq. tauto.
Qed.

Lemma truthy_str_false (s : string) : JS.truthy_str s = false <-> s = "".
Proof.
  unfold JS.truthy_str. rewrite negb_false_iff. apply String.eqb_eq.
Qed.

Lemma split_nonempty (sep : ascii) (s : string) : JS.split sep s <> [].
Proof.
  destruct s as [|c rest]; simpl; [discriminate|].
  destruct (Ascii.eqb c sep); [discriminate|].
  destruct (JS.split sep rest); discriminate.
Qed.

Lemma split_empty (sep : ascii) : JS.split sep "" = [""].
Proof. reflexivity. Qed.

(** ** Token codec and expiry policy *)
Section TokenFacts.

Variable decodeSegment : string -> option JwtUtils.EnhancedJwtPayload.

Local Abbreviation decodeToken := (JwtUtils.decodeToken decodeSegment).
Local Abbreviation getTokenExpiry := (JwtUtils.getTokenExpiry decodeSegment).
Local Abbreviation getTokenInfo := (JwtUtils.getTokenInfo decodeSegment).
Local Abbreviation shouldRefreshToken := (JwtUtils.shouldRefreshToken decodeSegment).
Local Abbreviation validateTokenFormat := (JwtUtils.validateTokenFormat decodeSegment).

(** An expiry that [getTokenExpiry] reports is never the falsy [0]. *)
Lemma expiryOfPayload_truthy (p : JwtUtils.EnhancedJwtPayload) (E : Z) :
  JwtUtils.expiryOfPayload p = Some E -> JS.truthy_num E = true.
Proof.
  unfold JwtUtils.expiryOfPayload.
  destruct (JwtUtils.exp p) as [e|]; [|discriminate].
  destruct (JS.truthy_num e) eqn:He; [|discriminate].
  intros [= <-]. apply truthy_num_true in He. apply truthy_num_true. lia.
Qed.

(** The empty string has no second segment. *)
Lemma decodeToken_empty : decodeToken "" = None.
Proof. reflexivity. Qed.

(** A token with a decodable expiry is not the empty string. *)
Lemma getTokenExpiry_truthy_token (token : string) (E : Z) :
  getTokenExpiry token = Some E -> JS.truthy_str token = true.
Proof.
  destruct token; [discriminate | reflexivity].
Qed.

(** [getTokenInfo] on a token with a decodable expiry, field by field. *)
Lemma getTokenInfo_decodable (now : Z) (token : string) (E : Z) :
  getTokenExpiry token = Some E ->
  JwtUtils.isExpired (getTokenInfo now token) = (E <=? now)
  /\ JwtUtils.timeUntilExpiry (getTokenInfo now token) = Z.max 0 (E - now)
  /\ JwtUtils.willExpireSoon (getTokenInfo now token)
     = negb (E <=? now) && (Z.max 0 (E - now) <=? JwtUtils.REFRESH_BUFFER_MS).
Proof.
  unfold JwtUtils.getTokenExpiry, JwtUtils.getTokenInfo.
  destruct (decodeToken token) as [p|]; [|discriminate].
  intros HE. pose proof (expiryOfPayload_truthy _ _ HE) as Ht.
  simpl. rewrite HE, Ht. simpl. auto.
Qed.

(** [getTokenInfo] on a token without a decodable expiry: expired. *)
Lemma getTokenInfo_undecodable (now : Z) (token : string) :
  getTokenExpiry token = None ->
  JwtUtils.isExpired (getTokenInfo now token) = true.
Proof.
  unfold JwtUtils.getTokenExpiry, JwtUtils.getTokenInfo.
  destruct (decodeToken token) as [p|]; simpl.
  - intros ->. reflexivity.
  - reflexivity.
Qed.

(** The expiry [getTokenExpiry] reports is the token's [exp] claim,
    converted from seconds to milliseconds; a claim of [0] is falsy and
    counts as none. *)
Lemma getTokenExpiry_of_claim (token : string) :
  getTokenExpiry token
  = match Spec.expClaim decodeSegment token with
    | Some e => if e =? 0 then None else Some (e * 1000)
    | None => None
    end.
Proof.
  unfold JwtUtils.getTokenExpiry, JwtUtils.decodeToken, Spec.expClaim,
    JwtUtils.expiryOfPayload, JS.truthy_num.
  destruct (JwtUtils.jwtDecode decodeSegment token) as [p|]; [|reflexivity].
  destruct (JwtUtils.exp p) as [e|]; [|reflexivity].
  destruct (e =? 0); reflexivity.
Qed.

(** C1.  For a token whose payload carries the expiry claim [exp = e]
    (seconds) and every clock reading [now] (milliseconds), with
    [E = e * 1000]: [shouldRefreshToken] is true exactly when
    [now >= E - REFRESH_BUFFER_MS]; that is exactly when the token
    classifies as expired ([now >= E]) or expiring soon ([now < E] and
    [E - now <= REFRESH_BUFFER_MS]); and it is true for an absent (or
    empty) token.  (A claim of [0] is falsy and read as no expiry, which
    gives the same answers at every clock reading from the epoch on.) *)
Theorem shouldRefreshToken_iff_within_buffer (token : string) (e now : Z) :
  Spec.expClaim decodeSegment token = Some e ->
  e <> 0 \/ 0 <= now ->
  let E := e * 1000 in
  (shouldRefreshToken now (Some token) = true
   <-> E - JwtUtils.REFRESH_BUFFER_MS <= now)
  /\ (shouldRefreshToken now (Some token) = true
      <-> Spec.classify (getTokenInfo now token) = Spec.IsExpired
          \/ Spec.classify (getTokenInfo now token) = Spec.ExpiringSoon)
  /\ (Spec.classify (getTokenInfo now token) = Spec.IsExpired <-> E <= now)
  /\ (Spec.classify (getTokenInfo now token) = Spec.ExpiringSoon
      <-> now < E /\ E - now <= JwtUtils.REFRESH_BUFFER_MS)
  /\ JwtUtils.REFRESH_BUFFER_MS = 300000
  /\ shouldRefreshToken now None = true
  /\ shouldRefreshToken now (Some "") = true.
Proof.
  intros Hclaim Hnz E.
  destruct (Z.eqb_spec e 0) as [He0|He0].
  { (* the falsy claim *)
    destruct Hnz as [Hnz|Hnow]; [contradiction|].
    assert (HE : getTokenExpiry token = None)
      by (rewrite getTokenExpiry_of_claim, Hclaim, He0; reflexivity).
    assert (Htok : JS.truthy_str token = true)
      by (destruct token; [discriminate Hclaim | reflexivity]).
    pose proof (getTokenInfo_undecodable now token HE) as Hexp.
    assert (Hsoon : JwtUtils.willExpireSoon (getTokenInfo now token) = false).
    { change (JwtUtils.willExpireSoon (getTokenInfo now token))
        with (negb (JwtUtils.isExpired (getTokenInfo now token))
              && (JwtUtils.timeUntilExpiry (getTokenInfo now token)
                  <=? JwtUtils.REFRESH_BUFFER_MS)).
      rewrite Hexp. reflexivity. }
    unfold JwtUtils.shouldRefreshToken, Spec.classify.
    rewrite Htok. cbn [negb]. rewrite Hsoon, Hexp. subst E e.
    change JwtUtils.REFRESH_BUFFER_MS with 300000. cbn [orb].
    intuition (try discriminate; try reflexivity; lia). }
  assert (HE : getTokenExpiry token = Some E).
  { rewrite getTokenExpiry_of_claim, Hclaim.
    apply Z.eqb_neq in He0. rewrite He0. reflexivity. }
  pose proof (getTokenExpiry_truthy_token _ _ HE) as Htok.
  destruct (getTokenInfo_decodable now token E HE) as (Hexp & Htime & Hsoon).
  unfold JwtUtils.shouldRefreshToken, Spec.classify.
  rewrite Htok. cbn [negb]. rewrite Hsoon, Hexp.
  change JwtUtils.REFRESH_BUFFER_MS with 300000.
  destruct (Z.leb_spec E now) as [Hle|Hgt]; cbn [negb andb orb];
    [|destruct (Z.leb_spec (Z.max 0 (E - now)) 300000) as [Hb|Hb]];
    intuition (try discriminate; try reflexivity; lia).
Qed.

(** C10.  The classification of [getTokenInfo] is exclusive: [isExpired]
    and [willExpireSoon] are never both true, and every token is in exactly
    one of the classes valid, expiring-soon, expired. *)
Theorem getTokenInfo_classes_exclusive (now : Z) (token : string) :
  let info := getTokenInfo now token in
  (JwtUtils.isExpired info && JwtUtils.willExpireSoon info = false)
  /\ (JwtUtils.willExpireSoon info = true -> JwtUtils.isExpired info = false)
  /\ ((Spec.classify info = Spec.IsExpired
       /\ JwtUtils.isExpired info = true /\ JwtUtils.willExpireSoon info = false)
      \/ (Spec.classify info = Spec.ExpiringSoon
          /\ JwtUtils.isExpired info = false /\ JwtUtils.willExpireSoon info = true)
      \/ (Spec.classify info = Spec.Valid
          /\ JwtUtils.isExpired info = false /\ JwtUtils.willExpireSoon info = false)).
Proof.
  cbv zeta. unfold Spec.classify.
  assert (Hdef : JwtUtils.willExpireSoon (getTokenInfo now token)
                 = negb (JwtUtils.isExpired (getTokenInfo now token))
                   && (JwtUtils.timeUntilExpiry (getTokenInfo now token)
                       <=? JwtUtils.REFRESH_BUFFER_MS)) by reflexivity.
  destruct (JwtUtils.isExpired (getTokenInfo now token)) eqn:Hexp;
    rewrite Hdef; cbn [negb andb].
  - repeat split; try discriminate. left. auto.
  - destruct (JwtUtils.timeUntilExpiry (getTokenInfo now token)
              <=? JwtUtils.REFRESH_BUFFER_MS); repeat split; auto.
Qed.

(** The three-segment shape is checked by [validateTokenFormat]. *)
Lemma validateTokenFormat_needs_three_segments (S : string) :
  List.length (JS.split "." S) <> 3%nat ->
  JwtUtils.isValid (validateTokenFormat S) = false.
Proof.
  intros Hlen. unfold JwtUtils.validateTokenFormat.
  destruct (negb (JS.truthy_str S)); [reflexivity|].
  destruct (Nat.eqb_spec (List.length (JS.split "." S)) 3) as [Heq|Hne];
    [contradiction | reflexivity].
Qed.

(** C4, as the code has it.  A string that is empty, has a single
    dot-separated segment, or whose second segment cannot be deserialized
    is not decoded ([decodeToken] returns [null], [getTokenExpiry] too), is
    rejected by [validateTokenFormat], and [shouldRefreshToken] is true for
    it at every clock reading. *)
Theorem undecodable_token_fails_closed (S : string) (now : Z) :
  S = ""
  \/ List.length (JS.split "." S) = 1%nat
  \/ (exists segment,
        nth_error (JS.split "." S) 1 = Some segment
        /\ decodeSegment segment = None) ->
  decodeToken S = None
  /\ getTokenExpiry S = None
  /\ JwtUtils.isValid (validateTokenFormat S) = false
  /\ shouldRefreshToken now (Some S) = true.
Proof.
  intros H.
  assert (Hdec : decodeToken S = None).
  { unfold JwtUtils.decodeToken, JwtUtils.jwtDecode.
    destruct H as [-> | [Hlen | (segment & Hnth & Hseg)]].
    - reflexivity.
    - destruct (JS.split "." S) as [|a [|b l]]; simpl in *; try discriminate.
      reflexivity.
    - rewrite Hnth. exact Hseg. }
  assert (Hexp : getTokenExpiry S = None).
  { unfold JwtUtils.getTokenExpiry. rewrite Hdec. reflexivity. }
  repeat split; auto.
  - unfold JwtUtils.validateTokenFormat. rewrite Hdec.
    destruct (negb (JS.truthy_str S)); [reflexivity|].
    destruct (negb (Nat.eqb _ 3)); reflexivity.
  - unfold JwtUtils.shouldRefreshToken.
    destruct (negb (JS.truthy_str S)); [reflexivity|].
    rewrite (getTokenInfo_undecodable now S Hexp). reflexivity.
Qed.

(** The companion check on the refresh credential: usable exactly when at
    least [MIN_VALID_TIME_MS] of validity remain. *)
Lemma isRefreshTokenValid_iff (now : Z) (token : string) (E : Z) :
  getTokenExpiry token = Some E ->
  (JwtUtils.isRefreshTokenValid decodeSegment now token = true
   <-> now + JwtUtils.MIN_VALID_TIME_MS <= E).
Proof.
  intros HE. unfold JwtUtils.isRefreshTokenValid.
  rewrite (getTokenExpiry_truthy_token _ _ HE). cbn [negb].
  destruct (getTokenInfo_decodable now token E HE) as (-> & -> & _).
  change JwtUtils.MIN_VALID_TIME_MS with 120000.
  destruct (Z.leb_spec E now) as [Hle|Hgt].
  - split; [discriminate | lia].
  - rewrite Z.leb_le. lia.
Qed.

End TokenFacts.

(** A well-formed token without an [exp] claim: decoded, but rejected by
    [validateTokenFormat] and always due for refresh. *)
Example token_without_exp :
  JwtUtils.decodeToken Fixtures.decodeSegment Fixtures.tokenNoExp <> None
  /\ JwtUtils.getTokenExpiry Fixtures.decodeSegment Fixtures.tokenNoExp = None
  /\ JwtUtils.isValid
       (JwtUtils.validateTokenFormat Fixtures.decodeSegment Fixtures.tokenNoExp) = false
  /\ JwtUtils.shouldRefreshToken Fixtures.decodeSegment 0 (Some Fixtures.tokenNoExp) = true.
Proof. repeat split; try reflexivity. vm_compute. discriminate. Qed.

(** C1 at a token expiring in the far future, read at the epoch. *)
Lemma shouldRefreshToken_iff_within_buffer_witness :
  (JwtUtils.shouldRefreshToken Fixtures.decodeSegment 0 (Some Fixtures.tokenFarFuture) = true
   <-> 9999999999 * 1000 - JwtUtils.REFRESH_BUFFER_MS <= 0)
  /\ (JwtUtils.shouldRefreshToken Fixtures.decodeSegment 0 (Some Fixtures.tokenFarFuture) = true
      <-> Spec.classify (JwtUtils.getTokenInfo Fixtures.decodeSegment 0 Fixtures.tokenFarFuture)
          = Spec.IsExpired
          \/ Spec.classify (JwtUtils.getTokenInfo Fixtures.decodeSegment 0 Fixtures.tokenFarFuture)
             = Spec.ExpiringSoon)
  /\ (Spec.classify (JwtUtils.getTokenInfo Fixtures.decodeSegment 0 Fixtures.tokenFarFuture)
      = Spec.IsExpired <-> 9999999999 * 1000 <= 0)
  /\ (Spec.classify (JwtUtils.getTokenInfo Fixtures.decodeSegment 0 Fixtures.tokenFarFuture)
      = Spec.ExpiringSoon
      <-> 0 < 9999999999 * 1000 /\ 9999999999 * 1000 - 0 <= JwtUtils.REFRESH_BUFFER_MS)
  /\ JwtUtils.REFRESH_BUFFER_MS = 300000
  /\ JwtUtils.shouldRefreshToken Fixtures.decodeSegment 0 None = true
  /\ JwtUtils.shouldRefreshToken Fixtures.decodeSegment 0 (Some "") = true.
Proof.
  apply (shouldRefreshToken_iff_within_buffer Fixtures.decodeSegment
           Fixtures.tokenFarFuture 9999999999 0); [reflexivity | left; lia].
Defined.

(** C4 at the empty string. *)
Lemma undecodable_token_fails_closed_witness :
  JwtUtils.decodeToken Fixtures.decodeSegment "" = None
  /\ JwtUtils.getTokenExpiry Fixtures.decodeSegment "" = None
  /\ JwtUtils.isValid (JwtUtils.validateTokenFormat Fixtures.decodeSegment "") = false
  /\ JwtUtils.shouldRefreshToken Fixtures.decodeSegment 1700000000000 (Some "") = true.
Proof.
  apply (undecodable_token_fails_closed Fixtures.decodeSegment "" 1700000000000).
  left. reflexivity.
Defined.

(** C4 as stated fails: a token with two segments instead of three, whose
    second segment is the payload [{"exp":9999999999}], is decoded by
    [decodeToken], and [shouldRefreshToken] is false for it. *)
Lemma two_segment_token_is_decoded :
  List.length (JS.split "." "x.eyJleHAiOjk5OTk5OTk5OTl9") = 2%nat
  /\ JwtUtils.decodeToken Fixtures.decodeSegment "x.eyJleHAiOjk5OTk5OTk5OTl9"
     = Some (Fixtures.withExp 9999999999)
  /\ JwtUtils.shouldRefreshToken Fixtures.decodeSegment 1700000000000
       (Some "x.eyJleHAiOjk5OTk5OTk5OTl9") = false.
Proof. vm_compute. repeat split. Qed.

(** ** Refresh executor: [safeTokenRefresh] *)
Section RefreshFacts.

Variable decodeSegment : string -> option JwtUtils.EnhancedJwtPayload.
Variable T : Type.
Variable accessOf : T -> option string.
Variable St : Type.
Variable refreshFn : St -> (JwtUtils.Thrown + T) * St.

Local Abbreviation tryRefresh := (JwtUtils.tryRefresh decodeSegment accessOf refreshFn).
Local Abbreviation attempts := (JwtUtils.attempts decodeSegment accessOf refreshFn).
Local Abbreviation safeTokenRefresh :=
  (JwtUtils.safeTokenRefresh decodeSegment accessOf refreshFn).
Local Abbreviation safeTokenRefreshDefault :=
  (JwtUtils.safeTokenRefreshDefault decodeSegment accessOf refreshFn).

(** A rejected call goes to the [catch] clause as it is. *)
Lemma tryRefresh_rejected (st st' : St) (e : JwtUtils.Thrown) :
  refreshFn st = (inl e, st') -> tryRefresh st = (inl e, st').
Proof.
  intros H. unfold JwtUtils.tryRefresh. rewrite H. reflexivity.
Qed.

(** A resolved call whose truthy [access] fails [validateTokenFormat] goes
    to the [catch] clause as an ['INVALID_REFRESH_RESULT']. *)
Lemma tryRefresh_invalid_access (st st' : St) (r : T) (access : string) :
  refreshFn st = (inr r, st') ->
  accessOf r = Some access ->
  JS.truthy_str access = true ->
  JwtUtils.isValid (JwtUtils.validateTokenFormat decodeSegment access) = false ->
  tryRefresh st
  = (inl (JwtUtils.TokenError "Invalid access token from refresh"
            "INVALID_REFRESH_RESULT" None), st').
Proof.
  intros H Ha Ht Hv. unfold JwtUtils.tryRefresh, JwtUtils.checkResult.
  rewrite H, Ha, Ht, Hv. reflexivity.
Qed.

(** What the statements after the loop throw. *)
Lemma giveUp_cases (last : JwtUtils.Thrown) :
  (JwtUtils.isTokenError last = true -> JwtUtils.giveUp (Some last) = last)
  /\ (JwtUtils.isTokenError last = false ->
      JwtUtils.giveUp (Some last)
      = JwtUtils.TokenError "Token refresh failed after retries" "REFRESH_FAILED"
          (Some last)).
Proof.
  destruct last; simpl; split; intros; try discriminate; reflexivity.
Qed.

Lemma noRetry_isTokenError (e : JwtUtils.Thrown) :
  JwtUtils.noRetry e = true -> JwtUtils.isTokenError e = true.
Proof.
  destruct e; simpl; intros; try discriminate; reflexivity.
Qed.

(** C2, as the code has it.  When the first three calls of [refreshFn] all
    reject with errors that are not of the no-retry class, the default
    [safeTokenRefresh] calls [refreshFn] exactly three times, waits 1000 ms
    after the first failure and 2000 ms after the second (none after the
    third), and rejects: with a new [TokenError] of code ['REFRESH_FAILED']
    carrying the last error when that error is not a [TokenError], and with
    the last error itself when it is one. *)
Theorem safeTokenRefresh_transient_exhausts
    (st s1 s2 s3 : St) (e1 e2 last : JwtUtils.Thrown) :
  refreshFn st = (inl e1, s1) -> JwtUtils.noRetry e1 = false ->
  refreshFn s1 = (inl e2, s2) -> JwtUtils.noRetry e2 = false ->
  refreshFn s2 = (inl last, s3) -> JwtUtils.noRetry last = false ->
  let trace := [JwtUtils.Call 0; JwtUtils.Wait 1000; JwtUtils.Call 1;
                JwtUtils.Wait 2000; JwtUtils.Call 2] in
  safeTokenRefreshDefault st = (inl (JwtUtils.giveUp (Some last)), trace, s3)
  /\ JwtUtils.calls trace = 3%nat
  /\ JwtUtils.waited trace = 3000
  /\ (JwtUtils.isTokenError last = false ->
      JwtUtils.giveUp (Some last)
      = JwtUtils.TokenError "Token refresh failed after retries" "REFRESH_FAILED"
          (Some last))
  /\ (JwtUtils.isTokenError last = true -> JwtUtils.giveUp (Some last) = last).
Proof.
  intros H1 N1 H2 N2 H3 N3 trace.
  split; [|split; [reflexivity|split; [reflexivity|]]].
  - unfold JwtUtils.safeTokenRefreshDefault, JwtUtils.safeTokenRefresh.
    change (Z.to_nat (2 + 1)) with 3%nat.
    cbn [JwtUtils.attempts].
    rewrite (tryRefresh_rejected _ _ _ H1), N1.
    change (0 + 1) with 1.
    rewrite (tryRefresh_rejected _ _ _ H2), N2.
    change (1 + 1) with 2.
    rewrite (tryRefresh_rejected _ _ _ H3), N3.
    reflexivity.
  - destruct (giveUp_cases last). split; assumption.
Qed.

(** C3, as the code has it.  When the first attempt ends in the no-retry
    class, either because [refreshFn] rejects with a [TokenError] of code
    ['INVALID_CREDENTIALS'] or ['INVALID_REFRESH_RESULT'], or because it
    resolves with a non-empty [access] that [validateTokenFormat] rejects,
    [safeTokenRefresh] calls [refreshFn] exactly once, waits for nothing,
    and rejects with that error. *)
Theorem safeTokenRefresh_credential_error_once (maxRetries : Z) (st : St) :
  0 <= maxRetries ->
  (exists e st', refreshFn st = (inl e, st') /\ JwtUtils.noRetry e = true)
  \/ (exists r st' access,
         refreshFn st = (inr r, st')
         /\ accessOf r = Some access
         /\ JS.truthy_str access = true
         /\ JwtUtils.isValid (JwtUtils.validateTokenFormat decodeSegment access) = false) ->
  exists terminal,
    safeTokenRefresh maxRetries st
    = (inl terminal, [JwtUtils.Call 0], snd (refreshFn st))
    /\ JwtUtils.noRetry terminal = true
    /\ JwtUtils.calls [JwtUtils.Call 0] = 1%nat
    /\ JwtUtils.waited [JwtUtils.Call 0] = 0
    /\ (forall e, fst (refreshFn st) = inl e -> terminal = e)
    /\ (forall r, fst (refreshFn st) = inr r ->
        terminal = JwtUtils.TokenError "Invalid access token from refresh"
                     "INVALID_REFRESH_RESULT" None).
Proof.
  intros Hmax Hfirst.
  assert (Hn : exists n, Z.to_nat (maxRetries + 1) = S n).
  { exists (Z.to_nat maxRetries). rewrite Z2Nat.inj_add by lia.
    change (Z.to_nat 1) with 1%nat. lia. }
  destruct Hn as [n Hn].
  unfold JwtUtils.safeTokenRefresh. rewrite Hn. cbn [JwtUtils.attempts].
  destruct Hfirst as [(e & st' & Hcall & Hno) | (r & st' & access & Hcall & Ha & Ht & Hv)].
  - exists e. rewrite (tryRefresh_rejected _ _ _ Hcall), Hno, Hcall. cbn [fst snd].
    destruct (giveUp_cases e) as [Hg _].
    rewrite (Hg (noRetry_isTokenError _ Hno)).
    repeat split; auto; congruence.
  - eexists. rewrite (tryRefresh_invalid_access _ _ _ _ Hcall Ha Ht Hv), Hcall.
    cbn [fst snd JwtUtils.noRetry JwtUtils.giveUp String.eqb orb].
    repeat split; auto; try congruence.
Qed.

(** The retry budget in general: a [refreshFn] that rejects every call
    with an error outside the no-retry class is called [maxRetries + 1]
    times, with waits of 1000, 2000, 4000, ... ms between the calls. *)
Section AlwaysTransient.

Hypothesis always_transient :
  forall s, exists e s', refreshFn s = (inl e, s') /\ JwtUtils.noRetry e = false.

Lemma attempts_always_transient (maxRetries : Z) (n : nat) :
  forall (attempt : Z) (lastError : option JwtUtils.Thrown) (st : St),
    0 <= attempt ->
    attempt + Z.of_nat n = maxRetries + 1 ->
    let '(res, tr, _) := attempts n attempt maxRetries lastError st in
    JwtUtils.calls tr = n
    /\ JwtUtils.waited tr = 1000 * (2 ^ Z.max attempt maxRetries - 2 ^ attempt)
    /\ exists e, res = inl e.
Proof.
  induction n as [|n IH]; intros attempt lastError st Hge Hsum.
  - cbn [JwtUtils.attempts]. replace (Z.max attempt maxRetries) with attempt by lia.
    split; [reflexivity|]. split; [cbn [JwtUtils.waited]; lia | eauto].
  - cbn [JwtUtils.attempts].
    destruct (always_transient st) as (e & st1 & Hcall & Hno).
    rewrite (tryRefresh_rejected _ _ _ Hcall), Hno.
    specialize (IH (attempt + 1) (Some e) st1 ltac:(lia) ltac:(lia)).
    destruct (attempts n (attempt + 1) maxRetries (Some e) st1) as [[res tr] st2].
    destruct IH as (Hcalls & Hwaited & Hres).
    assert (Hpow : 2 ^ (attempt + 1) = 2 * 2 ^ attempt)
      by (rewrite Z.pow_add_r by lia; lia).
    replace (Z.max attempt maxRetries) with maxRetries by lia.
    destruct (Z.ltb_spec attempt maxRetries) as [Hlt|Hnlt].
    + replace (Z.max (attempt + 1) maxRetries) with maxRetries in Hwaited by lia.
      cbn [app]. unfold JwtUtils.calls in *. cbn [filter JwtUtils.isCall List.length].
      cbn [JwtUtils.waited]. rewrite Hcalls, Hwaited, Hpow.
      split; [reflexivity|]. split; [lia | assumption].
    + replace (Z.max (attempt + 1) maxRetries) with (attempt + 1) in Hwaited by lia.
      replace maxRetries with attempt by lia.
      cbn [app]. unfold JwtUtils.calls in *. cbn [filter JwtUtils.isCall List.length].
      cbn [JwtUtils.waited]. rewrite Hcalls, Hwaited.
      split; [reflexivity|]. split; [lia | assumption].
Qed.

(** X9.  With any non-negative [maxRetries], a [refreshFn] that rejects
    every call with an error outside the no-retry class is called exactly
    [maxRetries + 1] times, [1000 * (2^maxRetries - 1)] ms are spent in
    backoff, and the promise rejects. *)
Lemma safeTokenRefresh_always_transient (maxRetries : Z) (st : St) :
  0 <= maxRetries ->
  let '(res, tr, _) := safeTokenRefresh maxRetries st in
  JwtUtils.calls tr = Z.to_nat (maxRetries + 1)
  /\ JwtUtils.waited tr = 1000 * (2 ^ maxRetries - 1)
  /\ exists e, res = inl e.
Proof.
  intros Hge. unfold JwtUtils.safeTokenRefresh.
  pose proof (attempts_always_transient maxRetries (Z.to_nat (maxRetries + 1))
                0 None st ltac:(lia) ltac:(lia)) as H.
  destruct (attempts _ 0 maxRetries None st) as [[res tr] st'].
  replace (Z.max 0 maxRetries) with maxRetries in H by lia.
  exact H.
Qed.

End AlwaysTransient.

End RefreshFacts.

(** C2 at a [refreshFn] that never reaches the server. *)
Lemma safeTokenRefresh_transient_exhausts_witness :
  let fetchFailed := JwtUtils.OtherError "TypeError" "fetch failed" in
  let refreshFn := fun st : unit => (@inl JwtUtils.Thrown unit fetchFailed, st) in
  let trace := [JwtUtils.Call 0; JwtUtils.Wait 1000; JwtUtils.Call 1;
                JwtUtils.Wait 2000; JwtUtils.Call 2] in
  JwtUtils.safeTokenRefreshDefault Fixtures.decodeSegment (fun _ => None) refreshFn tt
  = (inl (JwtUtils.giveUp (Some fetchFailed)), trace, tt)
  /\ JwtUtils.calls trace = 3%nat
  /\ JwtUtils.waited trace = 3000
  /\ (JwtUtils.isTokenError fetchFailed = false ->
      JwtUtils.giveUp (Some fetchFailed)
      = JwtUtils.TokenError "Token refresh failed after retries" "REFRESH_FAILED"
          (Some fetchFailed))
  /\ (JwtUtils.isTokenError fetchFailed = true ->
      JwtUtils.giveUp (Some fetchFailed) = fetchFailed).
Proof.
  exact (safeTokenRefresh_transient_exhausts Fixtures.decodeSegment unit
           (fun _ => None)
           unit
           (fun st : unit =>
              (@inl JwtUtils.Thrown unit (JwtUtils.OtherError "TypeError" "fetch failed"), st))
           tt tt tt tt
           (JwtUtils.OtherError "TypeError" "fetch failed")
           (JwtUtils.OtherError "TypeError" "fetch failed")
           (JwtUtils.OtherError "TypeError" "fetch failed")
           eq_refl eq_refl eq_refl eq_refl eq_refl eq_refl).
Defined.

(** C2 as stated fails: a [refreshFn] that always rejects with a
    [TokenError] of code ['NETWORK_ERROR'] is retried (three calls, two
    waits), and the final rejection is that very error, whose code is not
    ['REFRESH_FAILED']. *)
Lemma transient_TokenError_is_rethrown :
  let timeout := JwtUtils.TokenError "socket hang up" "NETWORK_ERROR" None in
  let refreshFn := fun st : unit => (@inl JwtUtils.Thrown unit timeout, st) in
  JwtUtils.noRetry timeout = false
  /\ JwtUtils.safeTokenRefreshDefault Fixtures.decodeSegment (fun _ => None) refreshFn tt
     = (inl timeout,
        [JwtUtils.Call 0; JwtUtils.Wait 1000; JwtUtils.Call 1;
         JwtUtils.Wait 2000; JwtUtils.Call 2], tt)
  /\ JwtUtils.codeOf timeout = Some "NETWORK_ERROR"
  /\ JwtUtils.codeOf timeout <> Some "REFRESH_FAILED".
Proof.
  cbv zeta. repeat split; try reflexivity. discriminate.
Qed.

(** C3 at a server that rejects the refresh token, and at one that
    answers with an access token that is not a JWT; default budget. *)
Lemma safeTokenRefresh_credential_error_once_witness :
  let rejected := JwtUtils.TokenError "Refresh token expired" "INVALID_CREDENTIALS" None in
  let rejecting := fun st : unit => (@inl JwtUtils.Thrown unit rejected, st) in
  let garbled := fun st : unit => (@inr JwtUtils.Thrown string "not-a-jwt", st) in
  (exists terminal,
     JwtUtils.safeTokenRefresh Fixtures.decodeSegment (fun _ : unit => None) rejecting 2 tt
     = (inl terminal, [JwtUtils.Call 0], snd (rejecting tt))
     /\ JwtUtils.noRetry terminal = true
     /\ JwtUtils.calls [JwtUtils.Call 0] = 1%nat
     /\ JwtUtils.waited [JwtUtils.Call 0] = 0
     /\ (forall e, fst (rejecting tt) = inl e -> terminal = e)
     /\ (forall r, fst (rejecting tt) = inr r ->
         terminal = JwtUtils.TokenError "Invalid access token from refresh"
                      "INVALID_REFRESH_RESULT" None))
  /\ (exists terminal,
        JwtUtils.safeTokenRefresh Fixtures.decodeSegment (fun r : string => Some r) garbled 2 tt
        = (inl terminal, [JwtUtils.Call 0], snd (garbled tt))
        /\ JwtUtils.noRetry terminal = true
        /\ JwtUtils.calls [JwtUtils.Call 0] = 1%nat
        /\ JwtUtils.waited [JwtUtils.Call 0] = 0
        /\ (forall e, fst (garbled tt) = inl e -> terminal = e)
        /\ (forall r, fst (garbled tt) = inr r ->
            terminal = JwtUtils.TokenError "Invalid access token from refresh"
                         "INVALID_REFRESH_RESULT" None)).
Proof.
  cbv zeta. split.
  - apply (safeTokenRefresh_credential_error_once Fixtures.decodeSegment unit
             (fun _ => None) unit
             (fun st : unit =>
                (@inl JwtUtils.Thrown unit
                   (JwtUtils.TokenError "Refresh token expired" "INVALID_CREDENTIALS" None),
                 st))
             2 tt).
    + lia.
    + left. eexists. exists tt. split; reflexivity.
  - apply (safeTokenRefresh_credential_error_once Fixtures.decodeSegment string
             (fun r => Some r) unit
             (fun st : unit => (@inr JwtUtils.Thrown string "not-a-jwt", st))
             2 tt).
    + lia.
    + right. exists "not-a-jwt", tt, "not-a-jwt". repeat split.
Defined.

(** C3 as stated fails on its second half: a refresh that resolves with
    an empty [access] is passed through, although [validateTokenFormat]
    rejects the empty string. *)
Lemma empty_access_is_accepted :
  let refreshFn := fun st : unit => (@inr JwtUtils.Thrown string "", st) in
  JwtUtils.isValid (JwtUtils.validateTokenFormat Fixtures.decodeSegment "") = false
  /\ JwtUtils.safeTokenRefreshDefault Fixtures.decodeSegment (fun r => Some r) refreshFn tt
     = (inr "", [JwtUtils.Call 0], tt).
Proof.
  cbv zeta. split; reflexivity.
Qed.

(** ** Session state machine: the [jwt] and [session] callbacks *)
Section AuthFacts.

Variable decodeSegment : string -> option JwtUtils.EnhancedJwtPayload.

Local Abbreviation getTokenExpiry := (AuthConfig.getTokenExpiry decodeSegment).
Local Abbreviation isTokenExpired := (AuthConfig.isTokenExpired decodeSegment).
Local Abbreviation shouldRefresh := (AuthConfig.shouldRefresh decodeSegment).
Local Abbreviation initialSignIn := (AuthConfig.initialSignIn decodeSegment).
Local Abbreviation jwtWith := (AuthConfig.jwtWith decodeSegment).
Local Abbreviation jwt := (AuthConfig.jwt decodeSegment).

(** The two copies of [getTokenExpiry] agree. *)
Lemma getTokenExpiry_same (token : string) :
  getTokenExpiry token = JwtUtils.getTokenExpiry decodeSegment token.
Proof. reflexivity. Qed.

Lemma getTokenExpiry_truthy (token : string) (E : Z) :
  getTokenExpiry token = Some E -> JS.truthy_num E = true.
Proof.
  rewrite getTokenExpiry_same. unfold JwtUtils.getTokenExpiry.
  destruct (JwtUtils.decodeToken decodeSegment token); [|discriminate].
  apply expiryOfPayload_truthy.
Qed.

(** A client-side update touches the display name only. *)
Lemma applyUpdate_frame (trigger : option AuthConfig.Trigger)
    (session : option AuthConfig.UpdatePayload) (t : AuthConfig.JWT) :
  let t' := AuthConfig.applyUpdate trigger session t in
  AuthConfig.id t' = AuthConfig.id t
  /\ AuthConfig.username t' = AuthConfig.username t
  /\ AuthConfig.email t' = AuthConfig.email t
  /\ AuthConfig.firstName t' = AuthConfig.firstName t
  /\ AuthConfig.lastName t' = AuthConfig.lastName t
  /\ AuthConfig.role t' = AuthConfig.role t
  /\ AuthConfig.permissions t' = AuthConfig.permissions t
  /\ AuthConfig.accessToken t' = AuthConfig.accessToken t
  /\ AuthConfig.refreshToken t' = AuthConfig.refreshToken t
  /\ AuthConfig.accessTokenExpires t' = AuthConfig.accessTokenExpires t
  /\ AuthConfig.error t' = AuthConfig.error t.
Proof.
  unfold AuthConfig.applyUpdate.
  destruct trigger as [[| |]|]; destruct session as [s|]; cbv zeta;
    try (repeat split; reflexivity).
  destruct (AuthConfig.upd_user_name s) as [n|]; [|repeat split; reflexivity].
  destruct (JS.truthy_str n); repeat split; reflexivity.
Qed.

Lemma applyUpdate_no_update (trigger : option AuthConfig.Trigger)
    (session : option AuthConfig.UpdatePayload) (t : AuthConfig.JWT) :
  trigger <> Some AuthConfig.Update \/ session = None ->
  AuthConfig.applyUpdate trigger session t = t.
Proof.
  unfold AuthConfig.applyUpdate.
  destruct trigger as [[| |]|]; destruct session as [s|]; try reflexivity.
  intros [H | H]; [contradiction H; reflexivity | discriminate].
Qed.

(** The callback of an established session, read off its three steps. *)
Lemma jwtWith_request_access (refresh : AuthConfig.JWT -> AuthConfig.M (option AuthConfig.JWT))
    (token : AuthConfig.JWT) (trigger : option AuthConfig.Trigger)
    (session : option AuthConfig.UpdatePayload) (w : AuthConfig.World) :
  let token' := AuthConfig.applyUpdate trigger session token in
  let w1 := snd (shouldRefresh token' w) in
  let w2 := snd (AuthConfig.logNeedsRefresh token' w1) in
  jwtWith refresh token None trigger session w
  = if fst (shouldRefresh token' w)
    then (AuthConfig.afterRefresh token' (fst (refresh token' w2)),
          snd (refresh token' w2))
    else (token', w1).
Proof.
  cbv zeta. unfold AuthConfig.jwtWith, AuthConfig.bind, AuthConfig.ret.
  destruct (shouldRefresh _ w) as [should w1]. cbn [fst snd].
  destruct should; cbn [negb]; [|reflexivity].
  destruct (AuthConfig.logNeedsRefresh _ w1) as [[] w2]. cbn [snd].
  destruct (refresh _ w2) as [refreshed w3]. reflexivity.
Qed.

(** With the executor of the source, the failure branch is never taken: a
    warranted refresh always returns the token with a new expiry instant
    and no error. *)
Lemma jwt_mock_refresh_succeeds (token : AuthConfig.JWT)
    (trigger : option AuthConfig.Trigger)
    (session : option AuthConfig.UpdatePayload) (w : AuthConfig.World) :
  let token' := AuthConfig.applyUpdate trigger session token in
  fst (shouldRefresh token' w) = true ->
  exists now,
    fst (jwt token None trigger session w)
    = AuthConfig.with_error None
        (AuthConfig.with_expires (Some (now + AuthConfig.ONE_HOUR_MS)) token').
Proof.
  cbv zeta. intros Hshould. unfold AuthConfig.jwt.
  rewrite jwtWith_request_access. cbv zeta. rewrite Hshould.
  eexists. reflexivity.
Qed.

(** C5.  For an established session (no [user] argument), when refresh is
    warranted and the refresh executor fails (returns nothing, or a token
    carrying an error), the [jwt] callback returns the token it was given
    with only the error flag set, to ['RefreshAccessTokenError']: access
    token, refresh token, expiry instant and the identity fields are those
    of the input (the display name too, unless the same call carries a
    client-side update of it), and the [session] callback then yields no
    session. *)
Theorem jwt_refresh_failure_keeps_pair
    (refresh : AuthConfig.JWT -> AuthConfig.M (option AuthConfig.JWT))
    (token : AuthConfig.JWT) (trigger : option AuthConfig.Trigger)
    (session : option AuthConfig.UpdatePayload) (w : AuthConfig.World) :
  let token' := AuthConfig.applyUpdate trigger session token in
  let w1 := snd (shouldRefresh token' w) in
  let w2 := snd (AuthConfig.logNeedsRefresh token' w1) in
  fst (shouldRefresh token' w) = true ->
  AuthConfig.refreshFailed (fst (refresh token' w2)) = true ->
  let result := fst (jwtWith refresh token None trigger session w) in
  result = AuthConfig.with_error (Some "RefreshAccessTokenError") token'
  /\ AuthConfig.error result = Some (Spec.causeTag Spec.RefreshAccessTokenError)
  /\ AuthConfig.accessToken result = AuthConfig.accessToken token
  /\ AuthConfig.refreshToken result = AuthConfig.refreshToken token
  /\ AuthConfig.accessTokenExpires result = AuthConfig.accessTokenExpires token
  /\ AuthConfig.id result = AuthConfig.id token
  /\ AuthConfig.username result = AuthConfig.username token
  /\ AuthConfig.email result = AuthConfig.email token
  /\ AuthConfig.firstName result = AuthConfig.firstName token
  /\ AuthConfig.lastName result = AuthConfig.lastName token
  /\ AuthConfig.role result = AuthConfig.role token
  /\ AuthConfig.permissions result = AuthConfig.permissions token
  /\ (trigger <> Some AuthConfig.Update \/ session = None ->
      AuthConfig.name result = AuthConfig.name token)
  /\ (forall s, AuthConfig.session s (Some result) = None).
Proof.
  cbv zeta. intros Hshould Hfail.
  rewrite jwtWith_request_access. cbv zeta. rewrite Hshould. cbn [fst].
  assert (Hres : AuthConfig.afterRefresh
                   (AuthConfig.applyUpdate trigger session token)
                   (fst (refresh (AuthConfig.applyUpdate trigger session token)
                           (snd (AuthConfig.logNeedsRefresh
                                   (AuthConfig.applyUpdate trigger session token)
                                   (snd (shouldRefresh
                                           (AuthConfig.applyUpdate trigger session token) w))))))
                 = AuthConfig.with_error (Some "RefreshAccessTokenError")
                     (AuthConfig.applyUpdate trigger session token)).
  { unfold AuthConfig.afterRefresh, AuthConfig.refreshFailed in *.
    destruct (fst (refresh _ _)) as [r|]; [|reflexivity].
    rewrite Hfail. reflexivity. }
  rewrite Hres.
  destruct (applyUpdate_frame trigger session token)
    as (Hid & Hun & Hem & Hfn & Hln & Hro & Hpe & Hat & Hrt & Hex & _).
  repeat split; try assumption; try reflexivity.
  intros Hno. cbn. rewrite (applyUpdate_no_update _ _ _ Hno). reflexivity.
Qed.

End AuthFacts.

(** C5 at an executor that reports failure, for a session whose access
    token expired long before the reading. *)
Lemma jwt_refresh_failure_keeps_pair_witness :
  let token := Fixtures.sessionToken in
  let result :=
    fst (AuthConfig.jwtWith Fixtures.decodeSegment Fixtures.failingRefresh token
           None None None (Fixtures.frozenAt 1700000000000)) in
  result = AuthConfig.with_error (Some "RefreshAccessTokenError")
             (AuthConfig.applyUpdate None None token)
  /\ AuthConfig.error result = Some (Spec.causeTag Spec.RefreshAccessTokenError)
  /\ AuthConfig.accessToken result = AuthConfig.accessToken token
  /\ AuthConfig.refreshToken result = AuthConfig.refreshToken token
  /\ AuthConfig.accessTokenExpires result = AuthConfig.accessTokenExpires token
  /\ AuthConfig.id result = AuthConfig.id token
  /\ AuthConfig.username result = AuthConfig.username token
  /\ AuthConfig.email result = AuthConfig.email token
  /\ AuthConfig.firstName result = AuthConfig.firstName token
  /\ AuthConfig.lastName result = AuthConfig.lastName token
  /\ AuthConfig.role result = AuthConfig.role token
  /\ AuthConfig.permissions result = AuthConfig.permissions token
  /\ (@None AuthConfig.Trigger <> Some AuthConfig.Update
      \/ @None AuthConfig.UpdatePayload = None ->
      AuthConfig.name result = AuthConfig.name token)
  /\ (forall s, AuthConfig.session s (Some result) = None).
Proof.
  cbv zeta.
  apply (jwt_refresh_failure_keeps_pair Fixtures.decodeSegment
           Fixtures.failingRefresh Fixtures.sessionToken None None
           (Fixtures.frozenAt 1700000000000));
    vm_compute; reflexivity.
Defined.

(** ** The expiry instant stored at sign-in *)
Section SignInFacts.

Variable decodeSegment : string -> option JwtUtils.EnhancedJwtPayload.

Local Abbreviation getTokenExpiry := (AuthConfig.getTokenExpiry decodeSegment).
Local Abbreviation shouldRefresh := (AuthConfig.shouldRefresh decodeSegment).
Local Abbreviation initialSignIn := (AuthConfig.initialSignIn decodeSegment).
Local Abbreviation jwt := (AuthConfig.jwt decodeSegment).

(** The refresh check on a token with a decodable expiry reads the clock
    once. *)
Lemma shouldRefresh_decodable (t : AuthConfig.JWT) (a : string) (E : Z)
    (w : AuthConfig.World) :
  AuthConfig.accessToken t = Some a ->
  JS.truthy_str a = true ->
  getTokenExpiry a = Some E ->
  shouldRefresh t w
  = (E - AuthConfig.REFRESH_BUFFER_MS <=? AuthConfig.clock w (AuthConfig.ticks w),
     AuthConfig.tick w).
Proof.
  intros Ha Ht HE. unfold AuthConfig.shouldRefresh, AuthConfig.isTokenExpired.
  rewrite Ha, Ht, HE, (getTokenExpiry_truthy decodeSegment a E HE).
  reflexivity.
Qed.

(** On a token without a decodable expiry it answers [true] without
    reading the clock. *)
Lemma shouldRefresh_undecodable (t : AuthConfig.JWT) (a : string)
    (w : AuthConfig.World) :
  AuthConfig.accessToken t = Some a ->
  getTokenExpiry a = None ->
  shouldRefresh t w = (true, w).
Proof.
  intros Ha HE. unfold AuthConfig.shouldRefresh, AuthConfig.isTokenExpired.
  rewrite Ha, HE. destruct (JS.truthy_str a); reflexivity.
Qed.

(** The log record reads the clock when the stored expiry is truthy. *)
Lemma logNeedsRefresh_world (t : AuthConfig.JWT) (w : AuthConfig.World) :
  AuthConfig.logNeedsRefresh t w = (tt, w)
  \/ AuthConfig.logNeedsRefresh t w = (tt, AuthConfig.tick w).
Proof.
  unfold AuthConfig.logNeedsRefresh.
  destruct (AuthConfig.accessTokenExpires t) as [e|]; [|left; reflexivity].
  destruct (JS.truthy_num e); [right|left]; reflexivity.
Qed.

Lemma logNeedsRefresh_truthy (t : AuthConfig.JWT) (e : Z) (w : AuthConfig.World) :
  AuthConfig.accessTokenExpires t = Some e ->
  JS.truthy_num e = true ->
  AuthConfig.logNeedsRefresh t w = (tt, AuthConfig.tick w).
Proof.
  intros He Ht. unfold AuthConfig.logNeedsRefresh. rewrite He, Ht. reflexivity.
Qed.

(** What the mock refresh installs: the same tokens, an expiry one hour
    after the reading, no error. *)
Lemma refreshAccessToken_installs (t : AuthConfig.JWT) (w : AuthConfig.World) :
  AuthConfig.refreshAccessToken t w
  = (Some (AuthConfig.with_error None
             (AuthConfig.with_expires
                (Some (AuthConfig.clock w (AuthConfig.ticks w) + AuthConfig.ONE_HOUR_MS)) t)),
     AuthConfig.tick w).
Proof. reflexivity. Qed.

(** The sign-in branch: the stored instant and the installed access
    token. *)
Lemma initialSignIn_expires (token : AuthConfig.JWT) (u : AuthConfig.User)
    (a : string) (w : AuthConfig.World) :
  AuthConfig.u_accessToken u = Some a ->
  JS.truthy_str a = true ->
  initialSignIn token u w
  = match getTokenExpiry a with
    | Some E => (AuthConfig.with_expires (Some E) (AuthConfig.with_user u token), w)
    | None =>
        (AuthConfig.with_expires
           (Some (AuthConfig.clock w (AuthConfig.ticks w) + AuthConfig.ONE_HOUR_MS))
           (AuthConfig.with_user u token),
         AuthConfig.tick w)
    end.
Proof.
  intros Ha Ht. unfold AuthConfig.initialSignIn, AuthConfig.bind, AuthConfig.ret.
  rewrite Ha, Ht.
  destruct (getTokenExpiry a) as [E|] eqn:HE; [|reflexivity].
  rewrite (getTokenExpiry_truthy decodeSegment a E HE). reflexivity.
Qed.

(** The sign-in call, by what the module's [getTokenExpiry] parses from
    the access token. *)
Lemma jwt_signIn_by_parsed_expiry (token : AuthConfig.JWT) (u : AuthConfig.User)
    (a : string) (trigger : option AuthConfig.Trigger)
    (session : option AuthConfig.UpdatePayload) (w : AuthConfig.World) :
  AuthConfig.u_accessToken u = Some a ->
  JS.truthy_str a = true ->
  let now := AuthConfig.clock w (AuthConfig.ticks w) in
  let signedIn := fst (initialSignIn token u w) in
  let result := fst (jwt token (Some u) trigger session w) in
  AuthConfig.accessToken result = Some a
  /\ match getTokenExpiry a with
     | Some E =>
         AuthConfig.accessTokenExpires signedIn = Some E
         /\ (now < E - AuthConfig.REFRESH_BUFFER_MS ->
             AuthConfig.accessTokenExpires result = Some E)
         /\ (E - AuthConfig.REFRESH_BUFFER_MS <= now ->
             AuthConfig.accessTokenExpires result
             = Some (AuthConfig.clock w (S (S (AuthConfig.ticks w)))
                     + AuthConfig.ONE_HOUR_MS))
     | None =>
         AuthConfig.accessTokenExpires signedIn = Some (now + AuthConfig.ONE_HOUR_MS)
         /\ exists k,
              (AuthConfig.ticks w < k <= AuthConfig.ticks w + 2)%nat
              /\ AuthConfig.accessTokenExpires result
                 = Some (AuthConfig.clock w k + AuthConfig.ONE_HOUR_MS)
     end
  /\ (forall t w',
        AuthConfig.accessToken t = Some a ->
        let refreshed := fst (AuthConfig.refreshAccessToken t w') in
        option_map AuthConfig.accessToken refreshed = Some (Some a)
        /\ option_map AuthConfig.accessTokenExpires refreshed
           = Some (Some (AuthConfig.clock w' (AuthConfig.ticks w')
                         + AuthConfig.ONE_HOUR_MS))).
Proof.
  intros Ha Ht. cbv zeta.
  unfold AuthConfig.jwt, AuthConfig.jwtWith, AuthConfig.bind, AuthConfig.ret.
  rewrite (initialSignIn_expires token u a w Ha Ht).
  destruct (getTokenExpiry a) as [E|] eqn:HE; cbn [fst].
  - pose proof (getTokenExpiry_truthy decodeSegment a E HE) as HEt.
    set (t1 := AuthConfig.with_expires (Some E) (AuthConfig.with_user u token)).
    destruct (applyUpdate_frame trigger session t1)
      as (_ & _ & _ & _ & _ & _ & _ & Hat & _ & Hex & _).
    cbv zeta in Hat, Hex.
    set (t2 := AuthConfig.applyUpdate trigger session t1) in *.
    assert (Hat2 : AuthConfig.accessToken t2 = Some a)
      by (rewrite Hat; subst t1; simpl; exact Ha).
    assert (Hex2 : AuthConfig.accessTokenExpires t2 = Some E)
      by (rewrite Hex; reflexivity).
    rewrite (shouldRefresh_decodable t2 a E w Hat2 Ht HE).
    destruct (Z.leb_spec (E - AuthConfig.REFRESH_BUFFER_MS)
                (AuthConfig.clock w (AuthConfig.ticks w))) as [Hle|Hgt];
      cbn [negb].
    + rewrite (logNeedsRefresh_truthy t2 E _ Hex2 HEt).
      rewrite refreshAccessToken_installs. cbn.
      change AuthConfig.REFRESH_BUFFER_MS with 300000 in Hle.
      repeat split; auto; try lia; congruence.
    + cbn. change AuthConfig.REFRESH_BUFFER_MS with 300000 in Hgt.
      repeat split; auto; try lia; congruence.
  - set (t1 := AuthConfig.with_expires _ (AuthConfig.with_user u token)).
    destruct (applyUpdate_frame trigger session t1)
      as (_ & _ & _ & _ & _ & _ & _ & Hat & _ & Hex & _).
    cbv zeta in Hat, Hex.
    set (t2 := AuthConfig.applyUpdate trigger session t1) in *.
    assert (Hat2 : AuthConfig.accessToken t2 = Some a)
      by (rewrite Hat; subst t1; simpl; exact Ha).
    rewrite (shouldRefresh_undecodable t2 a _ Hat2 HE). cbn [negb].
    split; [|split; [split; [reflexivity|]|]].
    + destruct (logNeedsRefresh_world t2 (AuthConfig.tick w)) as [-> | ->];
        rewrite refreshAccessToken_installs; cbn; exact Hat2.
    + destruct (logNeedsRefresh_world t2 (AuthConfig.tick w)) as [-> | ->];
        rewrite refreshAccessToken_installs; cbn.
      * exists (S (AuthConfig.ticks w)). split; [lia | reflexivity].
      * exists (S (S (AuthConfig.ticks w))). split; [lia | reflexivity].
    + intros t w' Hta. cbn. rewrite Hta. auto.
Qed.

(** The module's own [getTokenExpiry] reports the token's [exp] claim
    converted from seconds to milliseconds; a claim of [0] is falsy and
    counts as none. *)
Lemma signIn_getTokenExpiry_of_claim (a : string) :
  getTokenExpiry a
  = match Spec.expClaim decodeSegment a with
    | Some e => if e =? 0 then None else Some (e * 1000)
    | None => None
    end.
Proof.
  unfold AuthConfig.getTokenExpiry, Spec.expClaim, JS.truthy_num.
  destruct (JwtUtils.jwtDecode decodeSegment a) as [p|]; [|reflexivity].
  destruct (JwtUtils.exp p) as [e|]; [|reflexivity].
  destruct (e =? 0); reflexivity.
Qed.

(** C7, as the code has it.  At sign-in with an access token [a] whose
    payload carries the claim [exp = e] (seconds, not 0), the sign-in
    branch stores [e * 1000]; without such a claim it stores the clock
    reading plus one hour.  The callback returns the claim's instant only
    when it lies more than [REFRESH_BUFFER_MS] in the future; in every
    other case the refresh runs within the same call and the mock executor
    stores its own clock reading plus one hour, as it does for every token
    it installs, whatever claim the access token carries. *)
Theorem jwt_signIn_expiry (token : AuthConfig.JWT) (u : AuthConfig.User)
    (a : string) (trigger : option AuthConfig.Trigger)
    (session : option AuthConfig.UpdatePayload) (w : AuthConfig.World) :
  AuthConfig.u_accessToken u = Some a ->
  JS.truthy_str a = true ->
  let now := AuthConfig.clock w (AuthConfig.ticks w) in
  let signedIn := fst (initialSignIn token u w) in
  let result := fst (jwt token (Some u) trigger session w) in
  let withoutClaim :=
    AuthConfig.accessTokenExpires signedIn = Some (now + AuthConfig.ONE_HOUR_MS)
    /\ exists k,
         (AuthConfig.ticks w < k <= AuthConfig.ticks w + 2)%nat
         /\ AuthConfig.accessTokenExpires result
            = Some (AuthConfig.clock w k + AuthConfig.ONE_HOUR_MS) in
  AuthConfig.accessToken result = Some a
  /\ match Spec.expClaim decodeSegment a with
     | Some e =>
         if e =? 0 then withoutClaim
         else
           AuthConfig.accessTokenExpires signedIn = Some (e * 1000)
           /\ (now < e * 1000 - AuthConfig.REFRESH_BUFFER_MS ->
               AuthConfig.accessTokenExpires result = Some (e * 1000))
           /\ (e * 1000 - AuthConfig.REFRESH_BUFFER_MS <= now ->
               AuthConfig.accessTokenExpires result
               = Some (AuthConfig.clock w (S (S (AuthConfig.ticks w)))
                       + AuthConfig.ONE_HOUR_MS))
     | None => withoutClaim
     end
  /\ (forall t w',
        AuthConfig.accessToken t = Some a ->
        let refreshed := fst (AuthConfig.refreshAccessToken t w') in
        option_map AuthConfig.accessToken refreshed = Some (Some a)
        /\ option_map AuthConfig.accessTokenExpires refreshed
           = Some (Some (AuthConfig.clock w' (AuthConfig.ticks w')
                         + AuthConfig.ONE_HOUR_MS))).
Proof.
  intros Ha Ht. cbv zeta.
  pose proof (jwt_signIn_by_parsed_expiry token u a trigger session w Ha Ht) as H.
  cbv zeta in H. rewrite signIn_getTokenExpiry_of_claim in H.
  destruct (Spec.expClaim decodeSegment a) as [e|]; [|exact H].
  destruct (e =? 0); exact H.
Qed.

End SignInFacts.

(** C7 at a sign-in with a token that expires in the far future
    ([exp = 9999999999]). *)
Lemma jwt_signIn_expiry_witness :
  let a := Fixtures.tokenFarFuture in
  let w := Fixtures.tickingFrom 1700000000000 in
  let signedIn :=
    fst (AuthConfig.initialSignIn Fixtures.decodeSegment Fixtures.blankToken
           (Fixtures.admin a) w) in
  let result :=
    fst (AuthConfig.jwt Fixtures.decodeSegment Fixtures.blankToken
           (Some (Fixtures.admin a)) None None w) in
  Spec.expClaim Fixtures.decodeSegment a = Some 9999999999
  /\ AuthConfig.accessToken result = Some a
  /\ AuthConfig.accessTokenExpires signedIn = Some (9999999999 * 1000)
  /\ AuthConfig.accessTokenExpires result = Some (9999999999 * 1000).
Proof.
  cbv zeta.
  pose proof (jwt_signIn_expiry Fixtures.decodeSegment Fixtures.blankToken
                (Fixtures.admin Fixtures.tokenFarFuture) Fixtures.tokenFarFuture
                None None (Fixtures.tickingFrom 1700000000000)
                eq_refl eq_refl) as H.
  cbv zeta in H.
  change (Spec.expClaim Fixtures.decodeSegment Fixtures.tokenFarFuture)
    with (Some 9999999999) in H.
  change (9999999999 =? 0) with false in H. cbv iota in H.
  destruct H as (Hacc & (Hin & Hfresh & _) & _).
  split; [reflexivity|]. split; [exact Hacc|]. split; [exact Hin|].
  apply Hfresh. vm_compute. reflexivity.
Defined.

(** C7 as stated fails: signing in at second 900 with an access token
    whose claim is [exp = 1000] (decodable, less than five minutes ahead)
    stores 900000 + 3600000, not 1000000. *)
Lemma signIn_near_expiry_stores_refresh_time :
  let a := Fixtures.tokenExp1000 in
  let result :=
    fst (AuthConfig.jwt Fixtures.decodeSegment Fixtures.blankToken
           (Some (Fixtures.admin a)) None None (Fixtures.frozenAt 900000)) in
  AuthConfig.getTokenExpiry Fixtures.decodeSegment a = Some 1000000
  /\ AuthConfig.accessToken result = Some a
  /\ AuthConfig.error result = None
  /\ AuthConfig.accessTokenExpires result = Some 4500000
  /\ AuthConfig.accessTokenExpires result <> Some 1000000.
Proof.
  cbv zeta. repeat split; try (vm_compute; reflexivity).
  vm_compute. discriminate.
Qed.

(** ** Route guard *)

(** The login path is one of the public routes. *)
Lemma login_is_public : Proxy.isPublicRoute Routes.LOGIN = true.
Proof. reflexivity. Qed.




(** The scenarios of the specification, on the source's own callbacks. *)
Example guard_login_when_authenticated :
  Proxy.middleware
    (Proxy.mkRequest "/login" None
       (fst (Spec.requestAuth Fixtures.decodeSegment AuthConfig.refreshAccessToken
               (Spec.Authenticated Fixtures.sessionToken)
               (Fixtures.frozenAt 1700000000000))))
  = Proxy.Redirect "/dashboard" [].
Proof. reflexivity. Qed.

Example guard_dashboard_without_session :
  Proxy.middleware
    (Proxy.mkRequest "/dashboard" None
       (fst (Spec.requestAuth Fixtures.decodeSegment AuthConfig.refreshAccessToken
               Spec.Unauthenticated (Fixtures.frozenAt 1700000000000))))
  = Proxy.Redirect "/login" [("returnUrl", "/dashboard")].
Proof. reflexivity. Qed.


(** ** Overlapping requests *)
Section OverlapFacts.

Variable decodeSegment : string -> option JwtUtils.EnhancedJwtPayload.

Local Abbreviation shouldRefresh := (AuthConfig.shouldRefresh decodeSegment).
Local Abbreviation executor := (AuthConfig.counted AuthConfig.refreshAccessToken).
Local Abbreviation jwtStart := (AuthConfig.jwtStart decodeSegment executor).
Local Abbreviation advance := (AuthConfig.advance decodeSegment executor).
Local Abbreviation advanceAt := (AuthConfig.advanceAt decodeSegment executor).
Local Abbreviation runSchedule := (AuthConfig.runSchedule decodeSegment executor).

(** The two phases put together are the callback. *)
Lemma jwt_is_start_then_resume
    (refresh : AuthConfig.JWT -> AuthConfig.M (option AuthConfig.JWT))
    (token : AuthConfig.JWT) (w : AuthConfig.World) :
  AuthConfig.bind (AuthConfig.jwtStart decodeSegment refresh token)
    (fun e => AuthConfig.advance decodeSegment refresh e) w
  = (AuthConfig.Returned
       (fst (AuthConfig.jwtWith decodeSegment refresh token None None None w)),
     snd (AuthConfig.jwtWith decodeSegment refresh token None None None w)).
Proof.
  unfold AuthConfig.jwtStart, AuthConfig.jwtWith, AuthConfig.bind, AuthConfig.ret.
  cbn [AuthConfig.applyUpdate].
  destruct (shouldRefresh token w) as [should w1].
  destruct should; cbn [negb]; [|reflexivity].
  destruct (AuthConfig.logNeedsRefresh token w1) as [[] w2].
  destruct (refresh token w2) as [refreshed w3]. reflexivity.
Qed.

(** Timelines. *)
Lemma later_refl (w : AuthConfig.World) : AuthConfig.later w w.
Proof. split; [reflexivity | lia]. Qed.

Lemma later_trans (w1 w2 w3 : AuthConfig.World) :
  AuthConfig.later w1 w2 -> AuthConfig.later w2 w3 -> AuthConfig.later w1 w3.
Proof.
  intros [Hc1 Ht1] [Hc2 Ht2]. split; [congruence | lia].
Qed.

Lemma later_tick (w : AuthConfig.World) : AuthConfig.later w (AuthConfig.tick w).
Proof. split; [reflexivity | cbn; lia]. Qed.

(** The refresh check and the log record stay on the timeline and leave
    the counter alone. *)
Lemma shouldRefresh_world (t : AuthConfig.JWT) (w : AuthConfig.World) :
  AuthConfig.later w (snd (shouldRefresh t w))
  /\ AuthConfig.refreshCalls (snd (shouldRefresh t w)) = AuthConfig.refreshCalls w.
Proof.
  unfold AuthConfig.shouldRefresh, AuthConfig.isTokenExpired.
  destruct (AuthConfig.accessToken t) as [a|];
    [|split; [apply later_refl | reflexivity]].
  destruct (JS.truthy_str a); [|split; [apply later_refl | reflexivity]].
  destruct (AuthConfig.getTokenExpiry decodeSegment a) as [E|];
    [|split; [apply later_refl | reflexivity]].
  destruct (JS.truthy_num E); cbn;
    (split; [first [apply later_tick | apply later_refl] | reflexivity]).
Qed.

Lemma logNeedsRefresh_later (t : AuthConfig.JWT) (w : AuthConfig.World) :
  AuthConfig.later w (snd (AuthConfig.logNeedsRefresh t w))
  /\ AuthConfig.refreshCalls (snd (AuthConfig.logNeedsRefresh t w))
     = AuthConfig.refreshCalls w.
Proof.
  destruct (logNeedsRefresh_world t w) as [-> | ->]; cbn;
    (split; [first [apply later_tick | apply later_refl] | reflexivity]).
Qed.

Section SameCookie.

Variable token : AuthConfig.JWT.
Variable w0 : AuthConfig.World.
(** From [w0] on, a refresh is warranted for [token] whenever it is
    checked. *)
Hypothesis warranted :
  forall w, AuthConfig.later w0 w -> fst (shouldRefresh token w) = true.

Local Abbreviation sameCookie := (AuthConfig.sameCookie token).

(** Starting an evaluation invokes the executor once and leaves the
    evaluation suspended. *)
Lemma jwtStart_invokes (w : AuthConfig.World) :
  AuthConfig.later w0 w ->
  exists refreshed w',
    jwtStart token w = (AuthConfig.InFlight token refreshed, w')
    /\ AuthConfig.later w0 w'
    /\ AuthConfig.refreshCalls w' = S (AuthConfig.refreshCalls w).
Proof.
  intros Hlater.
  unfold AuthConfig.jwtStart, AuthConfig.bind, AuthConfig.ret.
  pose proof (warranted w Hlater) as Hw.
  destruct (shouldRefresh_world token w) as [Hl1 Hc1].
  destruct (shouldRefresh token w) as [should w1]. cbn [fst snd] in *. subst should.
  cbn [negb]. destruct (logNeedsRefresh_later token w1) as [Hl2 Hc2].
  destruct (AuthConfig.logNeedsRefresh token w1) as [[] w2]. cbn [snd] in *.
  unfold AuthConfig.counted. rewrite refreshAccessToken_installs.
  eexists. eexists. split; [reflexivity|]. split.
  - apply (later_trans w0 w); [exact Hlater|].
    apply (later_trans w w1); [exact Hl1|].
    apply (later_trans w1 w2); [exact Hl2|].
    split; [reflexivity | cbn; lia].
  - cbn. congruence.
Qed.

(** One step of one evaluation: the counter grows exactly when the
    evaluation starts. *)
Lemma advance_counts (e : AuthConfig.Evaluation) (w : AuthConfig.World) :
  AuthConfig.later w0 w ->
  sameCookie e ->
  let '(e', w') := advance e w in
  AuthConfig.later w0 w'
  /\ sameCookie e'
  /\ (AuthConfig.refreshCalls w' + AuthConfig.started [e]
      = AuthConfig.refreshCalls w + AuthConfig.started [e'])%nat.
Proof.
  intros Hlater.
  destruct e as [t|t r|r]; cbn [AuthConfig.advance AuthConfig.sameCookie].
  - intros ->. destruct (jwtStart_invokes w Hlater) as (refreshed & w' & -> & Hl & Hc).
    split; [exact Hl|]. split; [exact I|]. cbn. lia.
  - intros _. cbn. split; [exact Hlater|]. split; [exact I | lia].
  - intros _. cbn. split; [exact Hlater|]. split; [exact I | lia].
Qed.

Lemma started_cons (e : AuthConfig.Evaluation) (pool : list AuthConfig.Evaluation) :
  AuthConfig.started (e :: pool)
  = (AuthConfig.started [e] + AuthConfig.started pool)%nat.
Proof.
  unfold AuthConfig.started. cbn. destruct (AuthConfig.hasStarted e); reflexivity.
Qed.

Lemma advanceAt_counts (i : nat) (pool : list AuthConfig.Evaluation)
    (w : AuthConfig.World) :
  AuthConfig.later w0 w ->
  Forall sameCookie pool ->
  let '(pool', w') := advanceAt i pool w in
  AuthConfig.later w0 w'
  /\ Forall sameCookie pool'
  /\ List.length pool' = List.length pool
  /\ (AuthConfig.refreshCalls w' + AuthConfig.started pool
      = AuthConfig.refreshCalls w + AuthConfig.started pool')%nat.
Proof.
  revert i w. induction pool as [|e rest IH]; intros i w Hlater Hall.
  - destruct i; cbn; auto.
  - inversion Hall as [|? ? He Hrest]; subst.
    destruct i as [|i]; cbn [AuthConfig.advanceAt];
      unfold AuthConfig.bind, AuthConfig.ret.
    + pose proof (advance_counts e w Hlater He) as H.
      destruct (advance e w) as [e' w']. destruct H as (Hl & He' & Hc).
      split; [exact Hl|]. split; [constructor; assumption|]. split; [reflexivity|].
      rewrite (started_cons e rest), (started_cons e' rest). lia.
    + pose proof (IH i w Hlater Hrest) as H.
      destruct (advanceAt i rest w) as [rest' w'].
      destruct H as (Hl & Hall' & Hlen & Hc).
      split; [exact Hl|]. split; [constructor; assumption|].
      split; [cbn; congruence|].
      rewrite (started_cons e rest), (started_cons e rest'). lia.
Qed.

(** Whatever the schedule, the executor has been invoked once per
    evaluation that was started. *)
Lemma runSchedule_counts (schedule : list nat) (pool : list AuthConfig.Evaluation)
    (w : AuthConfig.World) :
  AuthConfig.later w0 w ->
  Forall sameCookie pool ->
  let '(pool', w') := runSchedule schedule pool w in
  AuthConfig.later w0 w'
  /\ Forall sameCookie pool'
  /\ List.length pool' = List.length pool
  /\ (AuthConfig.refreshCalls w' + AuthConfig.started pool
      = AuthConfig.refreshCalls w + AuthConfig.started pool')%nat.
Proof.
  revert pool w. induction schedule as [|i rest IH]; intros pool w Hlater Hall.
  - cbn. auto.
  - cbn [AuthConfig.runSchedule]. unfold AuthConfig.bind.
    pose proof (advanceAt_counts i pool w Hlater Hall) as H1.
    destruct (advanceAt i pool w) as [pool1 w1].
    destruct H1 as (Hl1 & Hall1 & Hlen1 & Hc1).
    pose proof (IH pool1 w1 Hl1 Hall1) as H2.
    destruct (runSchedule rest pool1 w1) as [pool2 w2].
    destruct H2 as (Hl2 & Hall2 & Hlen2 & Hc2).
    split; [assumption|]. split; [assumption|]. split; [congruence | lia].
Qed.

Lemma arrivals_sameCookie (n : nat) : Forall sameCookie (AuthConfig.arrivals n token).
Proof.
  unfold AuthConfig.arrivals. induction n; cbn; constructor; auto. reflexivity.
Qed.

Lemma started_arrivals (n : nat) : AuthConfig.started (AuthConfig.arrivals n token) = 0%nat.
Proof.
  unfold AuthConfig.arrivals, AuthConfig.started. induction n; cbn; auto.
Qed.

(** Advancing the evaluation that follows a prefix. *)
Lemma advanceAt_after_prefix (pre rest : list AuthConfig.Evaluation)
    (e : AuthConfig.Evaluation) (w : AuthConfig.World) :
  advanceAt (List.length pre) (pre ++ e :: rest)%list w
  = ((pre ++ fst (advance e w) :: rest)%list, snd (advance e w)).
Proof.
  induction pre as [|p pre IH]; cbn [List.length app AuthConfig.advanceAt];
    unfold AuthConfig.bind, AuthConfig.ret.
  - destruct (advance e w); reflexivity.
  - rewrite IH. reflexivity.
Qed.

Lemma inFlight_app (xs ys : list AuthConfig.Evaluation) :
  AuthConfig.inFlight (xs ++ ys)%list = (AuthConfig.inFlight xs + AuthConfig.inFlight ys)%nat.
Proof.
  unfold AuthConfig.inFlight. rewrite filter_app, length_app. reflexivity.
Qed.

Lemma inFlight_le_started (pool : list AuthConfig.Evaluation) :
  (AuthConfig.inFlight pool <= AuthConfig.started pool <= List.length pool)%nat.
Proof.
  unfold AuthConfig.inFlight, AuthConfig.started.
  induction pool as [|e pool IH]; cbn; [lia|].
  destruct e; cbn; lia.
Qed.

(** Starting, one after the other, the [m] evaluations that follow a
    prefix of suspended ones leaves all of them suspended. *)
Lemma start_all_in_flight (m : nat) :
  forall (pre : list AuthConfig.Evaluation) (w : AuthConfig.World),
    AuthConfig.later w0 w ->
    AuthConfig.inFlight pre = List.length pre ->
    let '(pool', _) :=
      runSchedule (seq (List.length pre) m)
        (pre ++ AuthConfig.arrivals m token)%list w in
    AuthConfig.inFlight pool' = (List.length pre + m)%nat.
Proof.
  induction m as [|m IH]; intros pre w Hlater Hpre.
  - cbn. rewrite app_nil_r. lia.
  - cbn [seq AuthConfig.runSchedule AuthConfig.arrivals repeat].
    unfold AuthConfig.bind. rewrite advanceAt_after_prefix.
    cbn [AuthConfig.advance].
    destruct (jwtStart_invokes w Hlater) as (refreshed & w' & -> & Hl & _).
    cbn [fst snd].
    specialize (IH (pre ++ [AuthConfig.InFlight token refreshed])%list w' Hl).
    rewrite length_app, <- app_assoc in IH. cbn [List.length app] in IH.
    replace (List.length pre + 1)%nat with (S (List.length pre)) in IH by lia.
    unfold AuthConfig.arrivals in IH.
    destruct (runSchedule _ _ w') as [pool' w''].
    rewrite IH; [lia|].
    rewrite inFlight_app, Hpre. cbn. lia.
Qed.

(** Starting an evaluation, in full: the executor runs for the cookie at
    a clock reading of its own, and that reading is consumed. *)
Lemma jwtStart_own (w : AuthConfig.World) :
  AuthConfig.later w0 w ->
  exists k w',
    jwtStart token w
    = (AuthConfig.InFlight token
         (AuthConfig.invocationAt (AuthConfig.clock w0) token k), w')
    /\ (AuthConfig.ticks w <= k)%nat
    /\ AuthConfig.ticks w' = S k
    /\ AuthConfig.later w0 w'.
Proof.
  intros Hlater.
  unfold AuthConfig.jwtStart, AuthConfig.bind, AuthConfig.ret.
  pose proof (warranted w Hlater) as Hw.
  destruct (shouldRefresh_world token w) as [Hl1 Hc1].
  destruct (shouldRefresh token w) as [should w1]. cbn [fst snd] in *. subst should.
  cbn [negb]. destruct (logNeedsRefresh_later token w1) as [Hl2 Hc2].
  destruct (AuthConfig.logNeedsRefresh token w1) as [[] w2]. cbn [snd] in *.
  assert (Hl : AuthConfig.later w0 w2).
  { apply (later_trans w0 w); [exact Hlater|].
    apply (later_trans w w1); [exact Hl1 | exact Hl2]. }
  unfold AuthConfig.counted. rewrite refreshAccessToken_installs.
  cbn [AuthConfig.clock AuthConfig.ticks].
  exists (AuthConfig.ticks w2). eexists. split; [|split; [|split]].
  - unfold AuthConfig.invocationAt. rewrite refreshAccessToken_installs.
    cbn [fst AuthConfig.clock AuthConfig.ticks].
    destruct Hl as [-> _]. reflexivity.
  - destruct Hl1 as [_ H1], Hl2 as [_ H2]. lia.
  - reflexivity.
  - destruct Hl as [Hc Ht].
    split; [cbn; first [reflexivity | exact Hc] | cbn; lia].
Qed.

Local Abbreviation holdsOwn := (AuthConfig.holdsOwn (AuthConfig.clock w0) token).

(** One scheduling step keeps every started evaluation with the answer of
    its own invocation; a step that starts an evaluation adds one
    invocation, at a reading not consumed before. *)
Lemma advanceAt_own (pool : list AuthConfig.Evaluation) (ks : list nat) :
  holdsOwn pool ks ->
  forall (i : nat) (w : AuthConfig.World),
    AuthConfig.later w0 w ->
    let '(pool', w') := advanceAt i pool w in
    AuthConfig.later w0 w'
    /\ (AuthConfig.ticks w <= AuthConfig.ticks w')%nat
    /\ exists ks',
         holdsOwn pool' ks'
         /\ (ks' = ks
             \/ exists k,
                  (AuthConfig.ticks w <= k < AuthConfig.ticks w')%nat
                  /\ Add k ks ks').
Proof.
  induction 1 as [|pool ks Hown IH|pool ks k Hown IH|pool ks k Hown IH];
    intros i w Hlater.
  - destruct i; cbn; (split; [exact Hlater|]); (split; [lia|]);
      exists []; split; [constructor | auto | constructor | auto].
  - destruct i as [|i]; cbn [AuthConfig.advanceAt AuthConfig.advance];
      unfold AuthConfig.bind, AuthConfig.ret.
    + destruct (jwtStart_own w Hlater) as (k & w' & -> & Hk & Ht & Hl).
      split; [exact Hl|]. split; [lia|].
      exists (k :: ks). split; [constructor; exact Hown|].
      right. exists k. split; [lia | constructor].
    + specialize (IH i w Hlater). destruct (advanceAt i pool w) as [pool' w'].
      destruct IH as (Hl & Ht & ks' & Hown' & Hks).
      split; [exact Hl|]. split; [exact Ht|].
      exists ks'. split; [constructor; exact Hown' | exact Hks].
  - destruct i as [|i]; cbn [AuthConfig.advanceAt AuthConfig.advance];
      unfold AuthConfig.bind, AuthConfig.ret.
    + split; [exact Hlater|]. split; [lia|].
      exists (k :: ks). split; [constructor; exact Hown | auto].
    + specialize (IH i w Hlater). destruct (advanceAt i pool w) as [pool' w'].
      destruct IH as (Hl & Ht & ks' & Hown' & Hks).
      split; [exact Hl|]. split; [exact Ht|].
      exists (k :: ks'). split; [constructor; exact Hown'|].
      destruct Hks as [->|(k' & Hk' & Hadd)]; [auto|].
      right. exists k'. split; [exact Hk' | constructor; exact Hadd].
  - destruct i as [|i]; cbn [AuthConfig.advanceAt AuthConfig.advance];
      unfold AuthConfig.bind, AuthConfig.ret.
    + split; [exact Hlater|]. split; [lia|].
      exists (k :: ks). split; [constructor; exact Hown | auto].
    + specialize (IH i w Hlater). destruct (advanceAt i pool w) as [pool' w'].
      destruct IH as (Hl & Ht & ks' & Hown' & Hks).
      split; [exact Hl|]. split; [exact Ht|].
      exists (k :: ks'). split; [constructor; exact Hown'|].
      destruct Hks as [->|(k' & Hk' & Hadd)]; [auto|].
      right. exists k'. split; [exact Hk' | constructor; exact Hadd].
Qed.

(** Under every schedule the invocations behind the started evaluations
    ran at pairwise different clock readings. *)
Lemma runSchedule_own (schedule : list nat) :
  forall (pool : list AuthConfig.Evaluation) (ks : list nat) (w : AuthConfig.World),
    AuthConfig.later w0 w ->
    holdsOwn pool ks ->
    NoDup ks ->
    Forall (fun k => (AuthConfig.ticks w0 <= k < AuthConfig.ticks w)%nat) ks ->
    let '(pool', w') := runSchedule schedule pool w in
    exists ks',
      holdsOwn pool' ks'
      /\ NoDup ks'
      /\ Forall (fun k => (AuthConfig.ticks w0 <= k < AuthConfig.ticks w')%nat) ks'.
Proof.
  induction schedule as [|i rest IH]; intros pool ks w Hlater Hown Hnd Hall.
  - cbn. exists ks. auto.
  - cbn [AuthConfig.runSchedule]. unfold AuthConfig.bind.
    pose proof (advanceAt_own pool ks Hown i w Hlater) as H1.
    destruct (advanceAt i pool w) as [pool1 w1].
    destruct H1 as (Hl1 & Ht1 & ks1 & Hown1 & Hks1).
    assert (Hstep : NoDup ks1
                    /\ Forall (fun k => (AuthConfig.ticks w0 <= k
                                          < AuthConfig.ticks w1)%nat) ks1).
    { rewrite Forall_forall in Hall.
      destruct Hks1 as [->|(k & Hk & Hadd)].
      - split; [exact Hnd|]. apply Forall_forall. intros x Hx.
        specialize (Hall x Hx). lia.
      - split.
        + apply (NoDup_Add Hadd). split; [exact Hnd|].
          intros Hin. specialize (Hall k Hin). lia.
        + apply Forall_forall. intros x Hx. apply (Add_in Hadd) in Hx.
          destruct Hlater as [_ Hw].
          destruct Hx as [<-|Hx]; [lia|]. specialize (Hall x Hx). lia. }
    destruct Hstep as [Hnd1 Hall1].
    exact (IH pool1 ks1 w1 Hl1 Hown1 Hnd1 Hall1).
Qed.

Lemma arrivals_own (n : nat) : holdsOwn (AuthConfig.arrivals n token) [].
Proof.
  unfold AuthConfig.arrivals. induction n; cbn; constructor. exact IHn.
Qed.

Lemma holdsOwn_started (pool : list AuthConfig.Evaluation) (ks : list nat) :
  holdsOwn pool ks -> List.length ks = AuthConfig.started pool.
Proof.
  induction 1 as [|pool ks Hown IH|pool ks k Hown IH|pool ks k Hown IH];
    [reflexivity| |rewrite started_cons; cbn; lia|rewrite started_cons; cbn; lia].
  rewrite started_cons. cbn. exact IH.
Qed.

(** C8, as the code has it.  [n] requests of one session whose cookie
    warrants a refresh: under every schedule the executor is invoked once
    per request that has passed the refresh check, so [n] times once all
    have; each of those requests holds the answer of an invocation of its
    own (the invocations ran at pairwise different clock readings), and
    that answer is what it returns with; and when the requests are started
    one after the other, all [n] refreshes are in flight together.
    Nothing collapses them into one. *)
Theorem overlapping_requests_refresh_once_each (n : nat) :
  (forall schedule,
     let '(pool, w') := runSchedule schedule (AuthConfig.arrivals n token) w0 in
     List.length pool = n
     /\ AuthConfig.refreshCalls w'
        = (AuthConfig.refreshCalls w0 + AuthConfig.started pool)%nat
     /\ exists ks,
          AuthConfig.holdsOwn (AuthConfig.clock w0) token pool ks
          /\ List.length ks = AuthConfig.started pool
          /\ NoDup ks
          /\ Forall (fun k => (AuthConfig.ticks w0 <= k < AuthConfig.ticks w')%nat) ks)
  /\ (let '(pool, w') := runSchedule (seq 0 n) (AuthConfig.arrivals n token) w0 in
      AuthConfig.inFlight pool = n
      /\ AuthConfig.started pool = n
      /\ AuthConfig.refreshCalls w' = (AuthConfig.refreshCalls w0 + n)%nat).
Proof.
  split.
  - intros schedule.
    pose proof (runSchedule_counts schedule _ w0 (later_refl w0)
                  (arrivals_sameCookie n)) as H.
    pose proof (runSchedule_own schedule _ [] w0 (later_refl w0)
                  (arrivals_own n) (NoDup_nil _) (Forall_nil _)) as Hown.
    destruct (runSchedule schedule _ w0) as [pool w'].
    destruct H as (_ & _ & Hlen & Hc).
    rewrite started_arrivals in Hc. unfold AuthConfig.arrivals in Hlen.
    rewrite repeat_length in Hlen. split; [exact Hlen|]. split; [lia|].
    destruct Hown as (ks & Hks & Hnd & Hall).
    exists ks. split; [exact Hks|]. split; [apply holdsOwn_started; exact Hks|].
    split; assumption.
  - pose proof (runSchedule_counts (seq 0 n) _ w0 (later_refl w0)
                  (arrivals_sameCookie n)) as H.
    pose proof (start_all_in_flight n [] w0 (later_refl w0) eq_refl) as Hin.
    cbn [List.length app Nat.add] in Hin.
    destruct (runSchedule (seq 0 n) _ w0) as [pool w'].
    destruct H as (_ & _ & Hlen & Hc).
    rewrite started_arrivals in Hc. unfold AuthConfig.arrivals in Hlen.
    rewrite repeat_length in Hlen.
    pose proof (inFlight_le_started pool) as Hle.
    split; [exact Hin|]. split; lia.
Qed.

End SameCookie.

End OverlapFacts.

(** C8 at three requests of a session whose access token expired long
    before the first reading. *)
Lemma overlapping_requests_refresh_once_each_witness :
  let executor := AuthConfig.counted AuthConfig.refreshAccessToken in
  let w := Fixtures.tickingFrom 1700000000000 in
  (forall schedule,
     let '(pool, w') :=
       AuthConfig.runSchedule Fixtures.decodeSegment executor schedule
         (AuthConfig.arrivals 3 Fixtures.sessionToken) w in
     List.length pool = 3%nat
     /\ AuthConfig.refreshCalls w'
        = (AuthConfig.refreshCalls w + AuthConfig.started pool)%nat
     /\ exists ks,
          AuthConfig.holdsOwn (AuthConfig.clock w) Fixtures.sessionToken pool ks
          /\ List.length ks = AuthConfig.started pool
          /\ NoDup ks
          /\ Forall (fun k => (AuthConfig.ticks w <= k < AuthConfig.ticks w')%nat) ks)
  /\ (let '(pool, w') :=
        AuthConfig.runSchedule Fixtures.decodeSegment executor (seq 0 3)
          (AuthConfig.arrivals 3 Fixtures.sessionToken) w in
      AuthConfig.inFlight pool = 3%nat
      /\ AuthConfig.started pool = 3%nat
      /\ AuthConfig.refreshCalls w' = (AuthConfig.refreshCalls w + 3)%nat).
Proof.
  cbv zeta.
  apply (overlapping_requests_refresh_once_each Fixtures.decodeSegment
           Fixtures.sessionToken (Fixtures.tickingFrom 1700000000000)).
  intros w [Hclock _].
  rewrite (shouldRefresh_decodable Fixtures.decodeSegment Fixtures.sessionToken
             Fixtures.tokenExp1000 1000000 w eq_refl eq_refl eq_refl).
  cbn [fst]. rewrite Hclock. apply Z.leb_le.
  unfold Fixtures.tickingFrom. cbn [AuthConfig.clock].
  change AuthConfig.REFRESH_BUFFER_MS with 300000. lia.
Defined.

(** C8 as stated fails: two requests arriving with the same expired cookie
    each invoke the executor, both refreshes are in flight together, and
    the two callers are handed different expiry instants. *)
Lemma two_requests_two_refreshes :
  let executor := AuthConfig.counted AuthConfig.refreshAccessToken in
  let w := Fixtures.tickingFrom 1700000000000 in
  let arrived := AuthConfig.arrivals 2 Fixtures.sessionToken in
  let suspended :=
    AuthConfig.runSchedule Fixtures.decodeSegment executor [0%nat; 1%nat] arrived w in
  let finished :=
    AuthConfig.runSchedule Fixtures.decodeSegment executor
      [0%nat; 1%nat; 0%nat; 1%nat] arrived w in
  fst (AuthConfig.shouldRefresh Fixtures.decodeSegment Fixtures.sessionToken w) = true
  /\ AuthConfig.inFlight (fst suspended) = 2%nat
  /\ AuthConfig.refreshCalls (snd suspended) = 2%nat
  /\ AuthConfig.refreshCalls (snd finished) = 2%nat
  /\ AuthConfig.refreshCalls (snd finished) <> 1%nat
  /\ map AuthConfig.observedExpiry (fst finished)
     = [Some 1700003600002; Some 1700003600005].
Proof.
  cbv zeta. repeat split; try (vm_compute; reflexivity).
  vm_compute. discriminate.
Qed.

(** ** Login action *)
Section LoginFacts.

Variable Server : Type.
Variable Store : Type.
Variable post :
  LoginAction.LoginRequest -> Server
  -> (LoginAction.Thrown + LoginAction.AuthTokenResponse) * Server.
Variable signIn :
  LoginAction.SignInOptions -> Store
  -> (LoginAction.Thrown + option string) * Store.

(** [error.message || fallback]. *)
Lemma or_str_Some (m fallback : string) :
  JS.or_str (Some m) fallback = if (m =? "")%string then fallback else m.
Proof.
  unfold JS.or_str, JS.truthy_str. destruct (m =? "")%string; reflexivity.
Qed.

(** C9, as the code has it.  Which failure gives which code: an
    [APIResponseError] thrown in the [try] block gives its numeric HTTP
    [status] (with its message, or the bad-login message when that is
    empty); an [AuthError] of type ['CredentialsSignin'] gives
    ['INVALID_CREDENTIALS'], any other [AuthError] ['AUTH_ERROR'], any
    other thrown value ['UNKNOWN_ERROR']; a [signIn] that resolves with an
    error gives ['AUTH_FAILED'].  The action succeeds, redirecting to the
    home path, exactly when the login API accepted the credentials and
    [signIn] resolved without an error.  When the login API rejects the
    attempt, as it does for a wrong password, [signIn] is not called and
    the session store is left as it was; otherwise [signIn] is called
    once, with the options built from the API's answer. *)
Theorem loginAction_outcomes (credentials : LoginAction.LoginRequest)
    (srv : Server) (store : Store) :
  let '(response, srv', store') :=
    LoginAction.loginAction post signIn credentials srv store in
  let failure code message :=
    response
    = LoginAction.mkActionResponse false None
        (Some (LoginAction.mkActionError code message)) in
  let raised e :=
    (exists srv1, post credentials srv = (inl e, srv1))
    \/ (exists authData srv1 store1,
          post credentials srv = (inr authData, srv1)
          /\ signIn (LoginAction.signInOptions authData) store = (inl e, store1)) in
  (forall statusCode message status,
     raised (LoginAction.APIResponseError statusCode message status) ->
     failure (LoginAction.CodeNumber status)
       (if (message =? "")%string then LoginAction.MSG_BAD_LOGIN else message))
  /\ (raised (LoginAction.AuthError "CredentialsSignin") ->
      failure (LoginAction.CodeString "INVALID_CREDENTIALS") LoginAction.MSG_BAD_LOGIN)
  /\ (forall kind,
        kind <> "CredentialsSignin" ->
        raised (LoginAction.AuthError kind) ->
        failure (LoginAction.CodeString "AUTH_ERROR") LoginAction.MSG_AUTH_ERROR)
  /\ (forall message,
        raised (LoginAction.OtherError message) ->
        failure (LoginAction.CodeString "UNKNOWN_ERROR") message)
  /\ (raised LoginAction.NonError ->
      failure (LoginAction.CodeString "UNKNOWN_ERROR") LoginAction.MSG_UNEXPECTED)
  /\ (forall authData srv1 reason store1,
        post credentials srv = (inr authData, srv1) ->
        signIn (LoginAction.signInOptions authData) store = (inr (Some reason), store1) ->
        reason <> "" ->
        failure (LoginAction.CodeString "AUTH_FAILED") LoginAction.MSG_BAD_LOGIN)
  /\ (LoginAction.success response = true
      <-> exists authData srv1 result store1,
            post credentials srv = (inr authData, srv1)
            /\ signIn (LoginAction.signInOptions authData) store = (inr result, store1)
            /\ JS.truthy_opt result = false)
  /\ (LoginAction.success response = true ->
      response = LoginAction.mkActionResponse true (Some "/") None)
  /\ (forall e srv1,
        post credentials srv = (inl e, srv1) -> srv' = srv1 /\ store' = store)
  /\ (forall authData srv1,
        post credentials srv = (inr authData, srv1) ->
        srv' = srv1
        /\ store' = snd (signIn (LoginAction.signInOptions authData) store)).
Proof.
  destruct credentials as [u p]. unfold LoginAction.loginAction.
  cbn [LoginAction.username LoginAction.password].
  destruct (post (LoginAction.mkLoginRequest u p) srv) as [[e|authData] srv1].
  - (* the login API rejects *)
    assert (Hraised : forall x,
               (exists s1, (@inl LoginAction.Thrown LoginAction.AuthTokenResponse e, srv1)
                           = (inl x, s1))
               \/ (exists a s1 st1,
                     (@inl LoginAction.Thrown LoginAction.AuthTokenResponse e, srv1)
                     = (inr a, s1)
                     /\ signIn (LoginAction.signInOptions a) store = (inl x, st1)) ->
               e = x).
    { intros x [(s1 & H)|(a & s1 & st1 & H & _)]; [|discriminate].
      injection H as H _. exact H. }
    repeat match goal with |- _ /\ _ => split | |- _ <-> _ => split end.
    + intros sc m st H. apply Hraised in H. subst e. cbn [LoginAction.onError].
      rewrite or_str_Some. reflexivity.
    + intros H. apply Hraised in H. subst e. reflexivity.
    + intros kind Hk H. apply Hraised in H. subst e. cbn [LoginAction.onError].
      apply String.eqb_neq in Hk. rewrite Hk. reflexivity.
    + intros m H. apply Hraised in H. subst e. reflexivity.
    + intros H. apply Hraised in H. subst e. reflexivity.
    + intros a s1 reason st1 H. discriminate H.
    + intros H. exfalso. revert H.
      destruct e as [sc m st|kind|m|]; cbn [LoginAction.onError];
        [| destruct (kind =? "CredentialsSignin")%string | |]; discriminate.
    + intros (a & s1 & r & st1 & H & _). discriminate H.
    + intros H. exfalso. revert H.
      destruct e as [sc m st|kind|m|]; cbn [LoginAction.onError];
        [| destruct (kind =? "CredentialsSignin")%string | |]; discriminate.
    + intros e' s1 [= _ <-]. split; reflexivity.
    + intros a s1 H. discriminate H.
  - (* the login API accepts; [signIn] settles *)
    destruct (signIn (LoginAction.signInOptions authData) store)
      as [[e|result] store1] eqn:Hsign.
    + assert (Hraised : forall x,
                 (exists s1, (@inr LoginAction.Thrown LoginAction.AuthTokenResponse
                                authData, srv1) = (inl x, s1))
                 \/ (exists a s1 st1,
                       (@inr LoginAction.Thrown LoginAction.AuthTokenResponse
                          authData, srv1) = (inr a, s1)
                       /\ signIn (LoginAction.signInOptions a) store = (inl x, st1)) ->
                 e = x).
      { intros x [(s1 & H)|(a & s1 & st1 & H & Hs)]; [discriminate|].
        injection H as <- _. rewrite Hsign in Hs. injection Hs as H _. exact H. }
      repeat match goal with |- _ /\ _ => split | |- _ <-> _ => split end.
      * intros sc m st H. apply Hraised in H. subst e. cbn [LoginAction.onError].
        rewrite or_str_Some. reflexivity.
      * intros H. apply Hraised in H. subst e. reflexivity.
      * intros kind Hk H. apply Hraised in H. subst e. cbn [LoginAction.onError].
        apply String.eqb_neq in Hk. rewrite Hk. reflexivity.
      * intros m H. apply Hraised in H. subst e. reflexivity.
      * intros H. apply Hraised in H. subst e. reflexivity.
      * intros a s1 reason st1 [= <- _] Hs. rewrite Hsign in Hs. discriminate Hs.
      * intros H. exfalso. revert H.
        destruct e as [sc m st|kind|m|]; cbn [LoginAction.onError];
          [| destruct (kind =? "CredentialsSignin")%string | |]; discriminate.
      * intros (a & s1 & r & st1 & [= <- _] & Hs & _). rewrite Hsign in Hs.
        discriminate Hs.
      * intros H. exfalso. revert H.
        destruct e as [sc m st|kind|m|]; cbn [LoginAction.onError];
          [| destruct (kind =? "CredentialsSignin")%string | |]; discriminate.
      * intros e' s1 H. discriminate H.
      * intros a s1 [= <- <-]. rewrite Hsign. split; reflexivity.
    + assert (Hraised : forall x,
                 (exists s1, (@inr LoginAction.Thrown LoginAction.AuthTokenResponse
                                authData, srv1) = (inl x, s1))
                 \/ (exists a s1 st1,
                       (@inr LoginAction.Thrown LoginAction.AuthTokenResponse
                          authData, srv1) = (inr a, s1)
                       /\ signIn (LoginAction.signInOptions a) store = (inl x, st1)) ->
                 False).
      { intros x [(s1 & H)|(a & s1 & st1 & H & Hs)]; [discriminate|].
        injection H as <- _. rewrite Hsign in Hs. discriminate Hs. }
      destruct (JS.truthy_opt result) eqn:Hres.
      * repeat match goal with |- _ /\ _ => split | |- _ <-> _ => split end;
          try (intros; exfalso;
               match goal with H : _ \/ _ |- _ => exact (Hraised _ H) end).
        -- intros a s1 reason st1 _ _ _. reflexivity.
        -- intros H. discriminate H.
        -- intros (a & s1 & r & st1 & [= <- _] & Hs & Hr). rewrite Hsign in Hs.
           injection Hs as <- _. congruence.
        -- intros H. discriminate H.
        -- intros e' s1 H. discriminate H.
        -- intros a s1 [= <- <-]. rewrite Hsign. split; reflexivity.
      * repeat match goal with |- _ /\ _ => split | |- _ <-> _ => split end;
          try (intros; exfalso;
               match goal with H : _ \/ _ |- _ => exact (Hraised _ H) end).
        -- intros a s1 reason st1 [= <- _] Hs Hne. rewrite Hsign in Hs.
           injection Hs as -> _. cbn in Hres. apply truthy_str_false in Hres.
           contradiction.
        -- intros _. exists authData, srv1, result, store1. auto.
        -- intros _. reflexivity.
        -- intros _. reflexivity.
        -- intros e' s1 H. discriminate H.
        -- intros a s1 [= <- <-]. rewrite Hsign. split; reflexivity.
Qed.

End LoginFacts.

(** C9 at an attempt the API accepts and [signIn] refuses. *)
Lemma loginAction_outcomes_witness :
  fst (fst (LoginAction.loginAction Scenarios.acceptingPost Scenarios.refusingSignIn
              (LoginAction.mkLoginRequest "admin" "secret") tt false))
  = LoginAction.mkActionResponse false None
      (Some (LoginAction.mkActionError (LoginAction.CodeString "INVALID_CREDENTIALS")
               LoginAction.MSG_BAD_LOGIN)).
Proof.
  pose proof (loginAction_outcomes unit bool Scenarios.acceptingPost
                Scenarios.refusingSignIn
                (LoginAction.mkLoginRequest "admin" "secret") tt false) as H.
  destruct (LoginAction.loginAction _ _ _ _ _) as [[response srv'] store'].
  cbv zeta in H. destruct H as (_ & H & _). cbn [fst]. apply H.
  right. exists CredentialsProvider.sampleAuthData, tt, false.
  split; reflexivity.
Defined.

(** C9 as stated fails: a wrong password is rejected by the login API with
    [401], and the action reports the code [401], which is none of the
    three strings; no session is created. *)
Lemma wrong_password_reports_http_status :
  let credentials := LoginAction.mkLoginRequest "admin" "wrong" in
  let '(response, _, sessionExists) :=
    LoginAction.loginAction Fixtures.rejectingPost Fixtures.creatingSignIn
      credentials tt false in
  LoginAction.success response = false
  /\ LoginAction.errorCode response = Some (LoginAction.CodeNumber 401)
  /\ LoginAction.errorCode response
     <> Some (LoginAction.CodeString "INVALID_CREDENTIALS")
  /\ LoginAction.errorCode response <> Some (LoginAction.CodeString "AUTH_ERROR")
  /\ LoginAction.errorCode response <> Some (LoginAction.CodeString "UNKNOWN_ERROR")
  /\ sessionExists = false.
Proof.
  cbv zeta. cbn. repeat split; discriminate.
Qed.

(** * Further properties of the code *)

(** ** Token utilities *)
Section TokenUtilityFacts.

Variable decodeSegment : string -> option JwtUtils.EnhancedJwtPayload.

Local Abbreviation decodeToken := (JwtUtils.decodeToken decodeSegment).
Local Abbreviation getTokenExpiry := (JwtUtils.getTokenExpiry decodeSegment).
Local Abbreviation getTokenInfo := (JwtUtils.getTokenInfo decodeSegment).
Local Abbreviation shouldRefreshToken := (JwtUtils.shouldRefreshToken decodeSegment).
Local Abbreviation validateTokenFormat := (JwtUtils.validateTokenFormat decodeSegment).
Local Abbreviation isRefreshTokenValid := (JwtUtils.isRefreshTokenValid decodeSegment).
Local Abbreviation isTokenExpired := (JwtUtils.isTokenExpired decodeSegment).

(** [getTokenInfo] computed from what [getTokenExpiry] reports. *)
Lemma getTokenInfo_fields (now : Z) (token : string) :
  let info := getTokenInfo now token in
  match getTokenExpiry token with
  | Some E =>
      JwtUtils.isExpired info = (E <=? now)
      /\ JwtUtils.timeUntilExpiry info = Z.max 0 (E - now)
  | None =>
      JwtUtils.isExpired info = true /\ JwtUtils.timeUntilExpiry info = 0
  end.
Proof.
  cbv zeta. destruct (getTokenExpiry token) as [E|] eqn:HE.
  - destruct (getTokenInfo_decodable decodeSegment now token E HE) as (H1 & H2 & _).
    auto.
  - split; [apply getTokenInfo_undecodable; exact HE|].
    unfold JwtUtils.getTokenExpiry in HE. unfold JwtUtils.getTokenInfo.
    destruct (decodeToken token) as [p|]; cbn.
    + rewrite HE. reflexivity.
    + reflexivity.
Qed.

(** X1.  [isRefreshTokenValid] accepts a refresh token exactly when its
    expiry is decodable and lies at least [MIN_VALID_TIME_MS] (two
    minutes) after the reading; an empty token, a token that does not
    decode and a token without expiry are rejected. *)
Theorem isRefreshTokenValid_spec (now : Z) (refreshToken : string) :
  isRefreshTokenValid now refreshToken = true
  <-> exists E,
        getTokenExpiry refreshToken = Some E
        /\ now + 120000 <= E.
Proof.
  destruct (getTokenExpiry refreshToken) as [E|] eqn:HE.
  - rewrite (isRefreshTokenValid_iff decodeSegment now refreshToken E HE).
    change JwtUtils.MIN_VALID_TIME_MS with 120000.
    split.
    + intros H. exists E. auto.
    + intros (E' & [= <-] & H). exact H.
  - split.
    + unfold JwtUtils.isRefreshTokenValid.
      destruct (negb (JS.truthy_str refreshToken)); [discriminate|].
      rewrite (getTokenInfo_undecodable decodeSegment now refreshToken HE).
      discriminate.
    + intros (E & H & _). discriminate.
Qed.

Lemma timeUntilExpiry_nonneg (now : Z) (token : string) :
  0 <= JwtUtils.timeUntilExpiry (getTokenInfo now token).
Proof.
  pose proof (getTokenInfo_fields now token) as Hf. cbv zeta in Hf.
  destruct (getTokenExpiry token); destruct Hf as [_ ->]; lia.
Qed.

(** X2.  [getTokenInfo] keeps its fields consistent: [timeUntilExpiry] is
    never negative, it is zero exactly for an expired token (which
    includes every token without a decodable expiry), the rendered string
    is ['Expired'] exactly then, and a token flagged [willExpireSoon] has
    between one millisecond and five minutes left. *)
Theorem getTokenInfo_consistent (now : Z) (token : string) :
  let info := getTokenInfo now token in
  0 <= JwtUtils.timeUntilExpiry info
  /\ (JwtUtils.isExpired info = true <-> JwtUtils.timeUntilExpiry info = 0)
  /\ (JwtUtils.timeToExpiryString info = JwtUtils.Expired
      <-> JwtUtils.isExpired info = true)
  /\ (JwtUtils.willExpireSoon info = true ->
      0 < JwtUtils.timeUntilExpiry info <= 300000).
Proof.
  cbv zeta.
  assert (Hsoon : JwtUtils.willExpireSoon (getTokenInfo now token)
                  = negb (JwtUtils.isExpired (getTokenInfo now token))
                    && (JwtUtils.timeUntilExpiry (getTokenInfo now token) <=? 300000))
    by reflexivity.
  assert (Hstr : JwtUtils.timeToExpiryString (getTokenInfo now token)
                 = let minutes := JwtUtils.timeUntilExpiry (getTokenInfo now token)
                                  / (1000 * 60) in
                   let hours := minutes / 60 in
                   let days := hours / 24 in
                   if negb (JwtUtils.isExpired (getTokenInfo now token)) then
                     if 0 <? days
                     then JwtUtils.DaysHoursMinutes days (hours mod 24) (minutes mod 60)
                     else if 0 <? hours
                          then JwtUtils.HoursMinutes hours (minutes mod 60)
                          else JwtUtils.Minutes minutes
                   else JwtUtils.Expired)
    by reflexivity.
  pose proof (getTokenInfo_fields now token) as Hf. cbv zeta in Hf, Hstr.
  rewrite Hstr, Hsoon.
  destruct (getTokenExpiry token) as [E|]; destruct Hf as [-> ->].
  - destruct (Z.leb_spec E now) as [Hle|Hgt]; cbn [negb andb].
    + repeat split; try lia; try reflexivity; try discriminate.
    + split; [lia|]. split; [split; [discriminate | lia]|].
      split; [split; [|discriminate]|].
      * repeat match goal with
               | |- context [if ?b then _ else _] => destruct b
               end; intros Hx; discriminate Hx.
      * intros Hs. apply Z.leb_le in Hs. lia.
  - cbn [negb andb]. repeat split; try lia; try reflexivity; try discriminate.
Qed.

(** X3.  The human-readable remaining time is an exact breakdown of the
    whole minutes left: for a token that has not expired the string shows
    days, hours below 24 and minutes below 60 that add up to
    [floor(timeUntilExpiry / 60000)], leaving out the leading units that
    are zero. *)
Theorem timeToExpiryString_breakdown (now : Z) (token : string) :
  let info := getTokenInfo now token in
  let total := JwtUtils.timeUntilExpiry info / 60000 in
  match JwtUtils.timeToExpiryString info with
  | JwtUtils.Expired => JwtUtils.isExpired info = true
  | JwtUtils.DaysHoursMinutes d h m =>
      JwtUtils.isExpired info = false
      /\ 0 < d /\ 0 <= h < 24 /\ 0 <= m < 60
      /\ (d * 24 + h) * 60 + m = total
  | JwtUtils.HoursMinutes h m =>
      JwtUtils.isExpired info = false
      /\ 0 < h < 24 /\ 0 <= m < 60 /\ h * 60 + m = total
  | JwtUtils.Minutes m =>
      JwtUtils.isExpired info = false /\ 0 <= m < 60 /\ m = total
  end.
Proof.
  cbv zeta.
  assert (Hstr : JwtUtils.timeToExpiryString (getTokenInfo now token)
                 = let minutes := JwtUtils.timeUntilExpiry (getTokenInfo now token)
                                  / (1000 * 60) in
                   let hours := minutes / 60 in
                   let days := hours / 24 in
                   if negb (JwtUtils.isExpired (getTokenInfo now token)) then
                     if 0 <? days
                     then JwtUtils.DaysHoursMinutes days (hours mod 24) (minutes mod 60)
                     else if 0 <? hours
                          then JwtUtils.HoursMinutes hours (minutes mod 60)
                          else JwtUtils.Minutes minutes
                   else JwtUtils.Expired)
    by reflexivity.
  cbv zeta in Hstr. rewrite Hstr. clear Hstr.
  pose proof (timeUntilExpiry_nonneg now token) as Hnonneg.
  change (1000 * 60) with 60000.
  set (t := JwtUtils.timeUntilExpiry (getTokenInfo now token)) in *.
  destruct (JwtUtils.isExpired (getTokenInfo now token)); cbn [negb];
    [reflexivity|].
  assert (Hm : 0 <= t / 60000) by (apply Z.div_pos; lia).
  set (minutes := t / 60000) in *.
  assert (Hh : 0 <= minutes / 60) by (apply Z.div_pos; lia).
  pose proof (Z.div_mod minutes 60 ltac:(lia)) as Hdm.
  pose proof (Z.mod_pos_bound minutes 60 ltac:(lia)) as Hmb.
  set (hours := minutes / 60) in *.
  pose proof (Z.div_mod hours 24 ltac:(lia)) as Hdh.
  pose proof (Z.mod_pos_bound hours 24 ltac:(lia)) as Hhb.
  assert (Hd : 0 <= hours / 24) by (apply Z.div_pos; lia).
  destruct (Z.ltb_spec 0 (hours / 24)) as [Hdays|Hdays].
  - repeat split; try lia.
  - destruct (Z.ltb_spec 0 hours) as [Hhours|Hhours].
    + assert (hours / 24 = 0) by lia. repeat split; try lia.
    + assert (hours = 0) by lia. repeat split; try lia.
Qed.

(** X5.  The refresh decision is monotone in time: once [shouldRefreshToken]
    answers true for a token it answers true at every later reading, and a
    token [isTokenExpired] under some buffer stays so later and under any
    larger buffer. *)
Theorem refresh_due_stays_due (now later : Z) (token : option string)
    (accessToken : string) (bufferMs largerBuffer : Z) :
  now <= later ->
  bufferMs <= largerBuffer ->
  (shouldRefreshToken now token = true -> shouldRefreshToken later token = true)
  /\ (isTokenExpired now accessToken bufferMs = true ->
      isTokenExpired later accessToken largerBuffer = true).
Proof.
  intros Hlater Hbuf. split.
  - destruct token as [tok|]; [|auto].
    unfold JwtUtils.shouldRefreshToken.
    destruct (negb (JS.truthy_str tok)); [auto|].
    assert (Hsoon : forall n,
               JwtUtils.willExpireSoon (getTokenInfo n tok)
               = negb (JwtUtils.isExpired (getTokenInfo n tok))
                 && (JwtUtils.timeUntilExpiry (getTokenInfo n tok) <=? 300000))
      by reflexivity.
    rewrite !Hsoon.
    pose proof (getTokenInfo_fields now tok) as H1.
    pose proof (getTokenInfo_fields later tok) as H2. cbv zeta in H1, H2.
    destruct (getTokenExpiry tok) as [E|];
      destruct H1 as [-> ->]; destruct H2 as [-> ->]; [|auto].
    destruct (Z.leb_spec E now), (Z.leb_spec E later); cbn [negb andb orb];
      auto; lia.
  - unfold JwtUtils.isTokenExpired.
    destruct (getTokenExpiry accessToken) as [E|]; [|auto].
    destruct (JS.truthy_num E); [|auto].
    rewrite !Z.leb_le. lia.
Qed.

(** X6.  [validateTokenFormat] accepts exactly the strings with three
    dot-separated segments whose payload decodes with a truthy [exp]; it
    reports an error message exactly when it rejects; and a token it
    accepts has an expiry [getTokenExpiry] can read. *)
Theorem validateTokenFormat_spec (token : string) :
  (JwtUtils.isValid (validateTokenFormat token) = true
   <-> List.length (JS.split "." token) = 3%nat
       /\ exists E, getTokenExpiry token = Some E)
  /\ (JwtUtils.error (validateTokenFormat token) = None
      <-> JwtUtils.isValid (validateTokenFormat token) = true).
Proof.
  unfold JwtUtils.validateTokenFormat, JwtUtils.getTokenExpiry,
    JwtUtils.expiryOfPayload.
  destruct token as [|c rest].
  - cbn. split; split; try discriminate. intros [H _]. discriminate.
  - change (JS.truthy_str (String c rest)) with true. cbn [negb].
    destruct (Nat.eqb_spec (List.length (JS.split "." (String c rest))) 3) as [Hlen|Hlen];
      cbn [negb].
    + destruct (decodeToken (String c rest)) as [p|].
      * destruct (JwtUtils.exp p) as [e|].
        -- destruct (JS.truthy_num e); cbn; split; split; try discriminate;
             try reflexivity; try (intros; split; eauto).
           intros (_ & E & H). discriminate.
        -- cbn. split; split; try discriminate. intros (_ & E & H). discriminate.
      * cbn. split; split; try discriminate. intros (_ & E & H). discriminate.
    + cbn. split; split; try discriminate. intros [H _]. contradiction.
Qed.

End TokenUtilityFacts.

(** X5 at a token that expires at second 1000, read four and three
    minutes before. *)
Lemma refresh_due_stays_due_witness :
  (JwtUtils.shouldRefreshToken Fixtures.decodeSegment 760000 (Some Fixtures.tokenExp1000) = true ->
   JwtUtils.shouldRefreshToken Fixtures.decodeSegment 820000 (Some Fixtures.tokenExp1000) = true)
  /\ (JwtUtils.isTokenExpired Fixtures.decodeSegment 760000 Fixtures.tokenExp1000 300000 = true ->
      JwtUtils.isTokenExpired Fixtures.decodeSegment 820000 Fixtures.tokenExp1000 300000 = true).
Proof.
  apply (refresh_due_stays_due Fixtures.decodeSegment 760000 820000
           (Some Fixtures.tokenExp1000) Fixtures.tokenExp1000 300000 300000); lia.
Defined.

(** ** The retry loop of [safeTokenRefresh] in general *)

Lemma calls_retryTrace (k : nat) (attempt : Z) :
  JwtUtils.calls (TokenMisc.retryTrace k attempt) = S k.
Proof.
  revert attempt. induction k as [|k IH]; intros attempt; [reflexivity|].
  cbn [TokenMisc.retryTrace]. unfold JwtUtils.calls in *.
  cbn [filter JwtUtils.isCall List.length]. rewrite IH. reflexivity.
Qed.

Lemma waited_retryTrace (k : nat) (attempt : Z) :
  0 <= attempt ->
  JwtUtils.waited (TokenMisc.retryTrace k attempt)
  = 1000 * (2 ^ (attempt + Z.of_nat k) - 2 ^ attempt).
Proof.
  revert attempt. induction k as [|k IH]; intros attempt Hge.
  - cbn [TokenMisc.retryTrace JwtUtils.waited]. rewrite Z.add_0_r. lia.
  - cbn [TokenMisc.retryTrace JwtUtils.waited]. rewrite IH by lia.
    replace (attempt + 1 + Z.of_nat k) with (attempt + Z.of_nat (S k)) by lia.
    rewrite (Z.pow_add_r 2 attempt 1) by lia. lia.
Qed.

Lemma last_retryTrace (k : nat) (attempt : Z) :
  List.last (TokenMisc.retryTrace k attempt) (JwtUtils.Wait 0)
  = JwtUtils.Call (attempt + Z.of_nat k).
Proof.
  revert attempt. induction k as [|k IH]; intros attempt.
  - cbn. rewrite Z.add_0_r. reflexivity.
  - cbn [TokenMisc.retryTrace].
    replace (attempt + Z.of_nat (S k)) with (attempt + 1 + Z.of_nat k) by lia.
    rewrite <- IH. destruct k; reflexivity.
Qed.

Section RetryFacts.

Variable decodeSegment : string -> option JwtUtils.EnhancedJwtPayload.
Variable T : Type.
Variable accessOf : T -> option string.
Variable St : Type.
Variable refreshFn : St -> (JwtUtils.Thrown + T) * St.

Local Abbreviation checkResult := (JwtUtils.checkResult decodeSegment accessOf).
Local Abbreviation tryRefresh := (JwtUtils.tryRefresh decodeSegment accessOf refreshFn).
Local Abbreviation attempts := (JwtUtils.attempts decodeSegment accessOf refreshFn).
Local Abbreviation safeTokenRefresh :=
  (JwtUtils.safeTokenRefresh decodeSegment accessOf refreshFn).

(** The budget in iterations, for a non-negative [maxRetries]. *)
Lemma budget_succ (maxRetries : Z) :
  0 <= maxRetries -> Z.to_nat (maxRetries + 1) = S (Z.to_nat maxRetries).
Proof.
  intros H. rewrite Z2Nat.inj_add by lia. change (Z.to_nat 1) with 1%nat. lia.
Qed.

(** One iteration of the loop. *)
Lemma attempts_S (maxRetries : Z) (n : nat) (attempt : Z)
    (lastError : option JwtUtils.Thrown) (st : St) :
  attempts (S n) attempt maxRetries lastError st
  = let '(tried, st1) := tryRefresh st in
    match tried with
    | inr result => (inr result, [JwtUtils.Call attempt], st1)
    | inl e =>
        if JwtUtils.noRetry e
        then (inl (JwtUtils.giveUp (Some e)), [JwtUtils.Call attempt], st1)
        else
          let pause :=
            if attempt <? maxRetries
            then [JwtUtils.Wait (1000 * 2 ^ attempt)] else [] in
          let '(res, tr, st2) := attempts n (attempt + 1) maxRetries (Some e) st1 in
          (res, (JwtUtils.Call attempt :: pause ++ tr)%list, st2)
    end.
Proof. reflexivity. Qed.

(** Every run of the loop leaves a trace of the one shape. *)
Lemma attempts_trace (maxRetries : Z) (n : nat) :
  forall (attempt : Z) (lastError : option JwtUtils.Thrown) (st : St),
    0 <= attempt ->
    attempt + Z.of_nat (S n) = maxRetries + 1 ->
    exists k,
      (k <= n)%nat
      /\ snd (fst (attempts (S n) attempt maxRetries lastError st))
         = TokenMisc.retryTrace k attempt.
Proof.
  induction n as [|n IH]; intros attempt lastError st Hge Hsum;
    rewrite attempts_S; destruct (tryRefresh st) as [[e|r] st1];
    try (exists O; split; [lia | reflexivity]).
  - destruct (JwtUtils.noRetry e); [exists O; split; [lia | reflexivity]|].
    destruct (Z.ltb_spec attempt maxRetries) as [Hlt|_]; [lia|].
    exists O. split; [lia | reflexivity].
  - destruct (JwtUtils.noRetry e); [exists O; split; [lia | reflexivity]|].
    destruct (IH (attempt + 1) (Some e) st1 ltac:(lia) ltac:(lia)) as (k & Hk & Htr).
    destruct (Z.ltb_spec attempt maxRetries) as [_|Hnlt]; [|lia].
    cbv zeta.
    destruct (attempts (S n) (attempt + 1) maxRetries (Some e) st1) as [[res tr] st2].
    cbn [fst snd] in *. subst tr.
    exists (S k). split; [lia | reflexivity].
Qed.

(** X7.  Whatever [refreshFn] does, a run of [safeTokenRefresh] with a
    non-negative [maxRetries] is [Call 0; Wait 1000; Call 1; Wait 2000;
    ...; Call k] for some [k <= maxRetries]: at least one and at most
    [maxRetries + 1] calls, a wait of [1000 * 2^i] ms after failed call [i]
    only when another call follows, [1000 * (2^k - 1)] ms of waiting in
    all, and never a wait after the last call. *)
Theorem safeTokenRefresh_trace_shape (maxRetries : Z) (st : St) :
  0 <= maxRetries ->
  let trace := snd (fst (safeTokenRefresh maxRetries st)) in
  exists k,
    Z.of_nat k <= maxRetries
    /\ trace = TokenMisc.retryTrace k 0
    /\ JwtUtils.calls trace = S k
    /\ JwtUtils.waited trace = 1000 * (2 ^ Z.of_nat k - 1)
    /\ List.last trace (JwtUtils.Wait 0) = JwtUtils.Call (Z.of_nat k).
Proof.
  intros Hge. cbv zeta. unfold JwtUtils.safeTokenRefresh.
  rewrite (budget_succ maxRetries Hge).
  destruct (attempts_trace maxRetries (Z.to_nat maxRetries) 0 None st
              ltac:(lia) ltac:(lia)) as (k & Hk & ->).
  exists k. split; [lia|]. split; [reflexivity|].
  split; [apply calls_retryTrace|].
  split; [rewrite waited_retryTrace by lia; cbn; lia|].
  rewrite last_retryTrace. reflexivity.
Qed.

(** A result that leaves the loop went through the check. *)
Lemma attempts_result (maxRetries : Z) (n : nat) :
  forall (attempt : Z) (lastError : option JwtUtils.Thrown) (st st' : St)
         (tr : list JwtUtils.Event) (r : T),
    attempts n attempt maxRetries lastError st = (inr r, tr, st') ->
    exists st1,
      refreshFn st1 = (inr r, st') /\ checkResult r = inr r.
Proof.
  induction n as [|n IH]; intros attempt lastError st st' tr r;
    [cbn [JwtUtils.attempts]; discriminate|].
  rewrite attempts_S. unfold JwtUtils.tryRefresh.
  destruct (refreshFn st) as [[e|r0] st1] eqn:Hcall.
  - destruct (JwtUtils.noRetry e); [discriminate|].
    destruct (attempts n (attempt + 1) maxRetries (Some e) st1)
      as [[res tr'] st2] eqn:Hrest.
    intros [= -> <- <-]. eapply IH. exact Hrest.
  - destruct (checkResult r0) as [e|r1] eqn:Hcheck.
    + destruct (JwtUtils.noRetry e); [discriminate|].
      destruct (attempts n (attempt + 1) maxRetries (Some e) st1)
        as [[res tr'] st2] eqn:Hrest.
      intros [= -> <- <-]. eapply IH. exact Hrest.
    + intros [= <- <- <-].
      assert (r1 = r0).
      { unfold JwtUtils.checkResult in Hcheck.
        destruct (accessOf r0) as [a|]; [|congruence].
        destruct (_ && _); [discriminate | congruence]. }
      subst r1. exists st. split; [exact Hcall | exact Hcheck].
Qed.

(** X8.  A result that [safeTokenRefresh] resolves with is the value of
    the last call of [refreshFn], the state is the one that call left, and
    the result has no [access], an empty one, or one that
    [validateTokenFormat] accepts: an invalid non-empty access token is
    never handed to the caller. *)
Theorem safeTokenRefresh_result_checked (maxRetries : Z) (st st' : St)
    (tr : list JwtUtils.Event) (r : T) :
  safeTokenRefresh maxRetries st = (inr r, tr, st') ->
  (exists st1, refreshFn st1 = (inr r, st'))
  /\ (forall access,
        accessOf r = Some access ->
        access <> "" ->
        JwtUtils.isValid (JwtUtils.validateTokenFormat decodeSegment access) = true).
Proof.
  unfold JwtUtils.safeTokenRefresh. intros Hrun.
  destruct (attempts_result _ _ _ _ _ _ _ _ Hrun) as (st1 & Hcall & Hcheck).
  split; [eauto|].
  intros access Ha Hne. unfold JwtUtils.checkResult in Hcheck. rewrite Ha in Hcheck.
  assert (Ht : JS.truthy_str access = true).
  { destruct (JS.truthy_str access) eqn:Ht; [reflexivity|].
    apply truthy_str_false in Ht. contradiction. }
  rewrite Ht in Hcheck. cbn [andb] in Hcheck.
  destruct (JwtUtils.isValid _); [reflexivity | discriminate].
Qed.

(** The loop after [k] retried failures. *)
Lemma attempts_after_failures (maxRetries : Z) (k : nat) :
  forall (n : nat) (attempt : Z) (lastError : option JwtUtils.Thrown)
         (st stk st' : St) (outcome : JwtUtils.Thrown + T),
    TokenMisc.failsThrough refreshFn k st stk ->
    tryRefresh stk = (outcome, st') ->
    match outcome with
    | inr _ => True
    | inl e => JwtUtils.noRetry e = true
    end ->
    0 <= attempt ->
    attempt + Z.of_nat (S n) = maxRetries + 1 ->
    (k <= n)%nat ->
    attempts (S n) attempt maxRetries lastError st
    = (outcome, TokenMisc.retryTrace k attempt, st').
Proof.
  induction k as [|k IH];
    intros n attempt lastError st stk st' outcome Hruns Htry Hend Hge Hsum Hk;
    inversion Hruns; subst; rewrite attempts_S; cbn [TokenMisc.retryTrace].
  - rewrite Htry. destruct outcome as [e|r]; [|reflexivity].
    rewrite Hend. destruct (giveUp_cases e) as [Hg _].
    rewrite (Hg (noRetry_isTokenError _ Hend)). reflexivity.
  - rewrite (tryRefresh_rejected decodeSegment T accessOf St refreshFn _ _ _ H0), H1.
    destruct n as [|n]; [lia|].
    rewrite (IH n (attempt + 1) (Some e) st1 stk st' outcome H2 Htry Hend
               ltac:(lia) ltac:(lia) ltac:(lia)).
    destruct (Z.ltb_spec attempt maxRetries) as [_|Hnlt]; [reflexivity | lia].
Qed.

(** X11.  After [k <= maxRetries] failures that are retried, the first
    call that either resolves with a result passing the check or ends in
    the no-retry class settles the run: [safeTokenRefresh] returns that
    outcome after exactly [k + 1] calls and the [k] backoff waits between
    them, with the state that call left. *)
Theorem safeTokenRefresh_settles_after_failures (maxRetries : Z) (k : nat)
    (st stk st' : St) (outcome : JwtUtils.Thrown + T) :
  Z.of_nat k <= maxRetries ->
  TokenMisc.failsThrough refreshFn k st stk ->
  tryRefresh stk = (outcome, st') ->
  match outcome with
  | inr _ => True
  | inl e => JwtUtils.noRetry e = true
  end ->
  safeTokenRefresh maxRetries st = (outcome, TokenMisc.retryTrace k 0, st')
  /\ JwtUtils.calls (TokenMisc.retryTrace k 0) = S k
  /\ JwtUtils.waited (TokenMisc.retryTrace k 0) = 1000 * (2 ^ Z.of_nat k - 1).
Proof.
  intros Hk Hruns Htry Hend.
  split; [|split; [apply calls_retryTrace|rewrite waited_retryTrace by lia; cbn; lia]].
  unfold JwtUtils.safeTokenRefresh. rewrite (budget_succ maxRetries ltac:(lia)).
  apply (attempts_after_failures maxRetries k (Z.to_nat maxRetries) 0 None
           st stk st' outcome Hruns Htry Hend); lia.
Qed.

(** X10.  With a negative [maxRetries] the loop body never runs:
    [refreshFn] is not called, nothing is waited for, and the promise
    rejects with ['REFRESH_FAILED'] carrying no cause. *)
Theorem safeTokenRefresh_negative_budget (maxRetries : Z) (st : St) :
  maxRetries < 0 ->
  safeTokenRefresh maxRetries st
  = (inl (JwtUtils.TokenError "Token refresh failed after retries" "REFRESH_FAILED" None),
     [], st).
Proof.
  intros Hneg. unfold JwtUtils.safeTokenRefresh.
  replace (Z.to_nat (maxRetries + 1)) with O by lia. reflexivity.
Qed.

End RetryFacts.

(** X9 at a budget of four retries. *)
Lemma safeTokenRefresh_always_transient_witness :
  let '(res, tr, _) :=
    JwtUtils.safeTokenRefresh Fixtures.decodeSegment (fun r : string => Some r)
      TokenMisc.offlineRefresh 4 tt in
  JwtUtils.calls tr = Z.to_nat (4 + 1)
  /\ JwtUtils.waited tr = 1000 * (2 ^ 4 - 1)
  /\ exists e, res = inl e.
Proof.
  apply (safeTokenRefresh_always_transient Fixtures.decodeSegment string
           (fun r => Some r) unit TokenMisc.offlineRefresh).
  - intros []. eexists. exists tt. split; reflexivity.
  - lia.
Defined.

(** X7 at the refresh function that succeeds at its third call. *)
Lemma safeTokenRefresh_trace_shape_witness :
  let trace :=
    snd (fst (JwtUtils.safeTokenRefresh Fixtures.decodeSegment
                (fun r : string => Some r) TokenMisc.flakyRefresh 2 0%nat)) in
  exists k,
    Z.of_nat k <= 2
    /\ trace = TokenMisc.retryTrace k 0
    /\ JwtUtils.calls trace = S k
    /\ JwtUtils.waited trace = 1000 * (2 ^ Z.of_nat k - 1)
    /\ List.last trace (JwtUtils.Wait 0) = JwtUtils.Call (Z.of_nat k).
Proof.
  apply (safeTokenRefresh_trace_shape Fixtures.decodeSegment string
           (fun r => Some r) nat TokenMisc.flakyRefresh 2 0%nat).
  lia.
Defined.

(** X8 at the same run. *)
Lemma safeTokenRefresh_result_checked_witness :
  (exists st1, TokenMisc.flakyRefresh st1 = (inr Fixtures.tokenFarFuture, 3%nat))
  /\ (forall access,
        Some Fixtures.tokenFarFuture = Some access ->
        access <> "" ->
        JwtUtils.isValid
          (JwtUtils.validateTokenFormat Fixtures.decodeSegment access) = true).
Proof.
  apply (safeTokenRefresh_result_checked Fixtures.decodeSegment string
           (fun r => Some r) nat TokenMisc.flakyRefresh 2 0%nat 3%nat
           (TokenMisc.retryTrace 2 0) Fixtures.tokenFarFuture).
  vm_compute. reflexivity.
Defined.

(** X11 at the same run: two failures, then the result. *)
Lemma safeTokenRefresh_settles_after_failures_witness :
  JwtUtils.safeTokenRefresh Fixtures.decodeSegment (fun r : string => Some r)
    TokenMisc.flakyRefresh 2 0%nat
  = (inr Fixtures.tokenFarFuture, TokenMisc.retryTrace 2 0, 3%nat)
  /\ JwtUtils.calls (TokenMisc.retryTrace 2 0) = 3%nat
  /\ JwtUtils.waited (TokenMisc.retryTrace 2 0) = 1000 * (2 ^ Z.of_nat 2 - 1).
Proof.
  apply (safeTokenRefresh_settles_after_failures Fixtures.decodeSegment string
           (fun r => Some r) nat TokenMisc.flakyRefresh 2 2 0%nat 2%nat 3%nat
           (inr Fixtures.tokenFarFuture)).
  - lia.
  - eapply TokenMisc.failsThrough_S; [reflexivity | reflexivity |].
    eapply TokenMisc.failsThrough_S; [reflexivity | reflexivity |].
    apply TokenMisc.failsThrough_O.
  - vm_compute. reflexivity.
  - exact I.
Defined.

(** X10 at [maxRetries = -1]. *)
Lemma safeTokenRefresh_negative_budget_witness :
  JwtUtils.safeTokenRefresh Fixtures.decodeSegment (fun r : string => Some r)
    TokenMisc.flakyRefresh (-1) 0%nat
  = (inl (JwtUtils.TokenError "Token refresh failed after retries" "REFRESH_FAILED" None),
     [], 0%nat).
Proof.
  apply (safeTokenRefresh_negative_budget Fixtures.decodeSegment string
           (fun r => Some r) nat TokenMisc.flakyRefresh (-1) 0%nat).
  lia.
Defined.

(** ** [epochToDate] *)

(** X12.  [epochToDate] reads an epoch between 10^7 and 10^10 as seconds
    and the same instant given in milliseconds as milliseconds: both yield
    the same [Date], the instant shifted back by the timezone offset.  (A
    value below 10^10 is always taken for seconds, so a millisecond
    timestamp earlier than 26 April 1970 would be scaled once more.) *)
Theorem epochToDate_seconds_or_milliseconds (timezoneOffset seconds : Z) :
  10000000 <= seconds < 10000000000 ->
  TokenMisc.epochToDate timezoneOffset seconds
  = TokenMisc.epochToDate timezoneOffset (seconds * 1000)
  /\ TokenMisc.epochToDate timezoneOffset seconds
     = seconds * 1000 - 60000 * timezoneOffset.
Proof.
  intros [Hlo Hhi]. unfold TokenMisc.epochToDate.
  destruct (Z.ltb_spec seconds 10000000000) as [_|Hge]; [|lia].
  destruct (Z.ltb_spec (seconds * 1000) 10000000000) as [Hlt|_]; [lia|].
  cbv zeta. lia.
Qed.

(** X12 at second 1700000000 in Bangkok (offset -420 minutes). *)
Lemma epochToDate_seconds_or_milliseconds_witness :
  TokenMisc.epochToDate (-420) 1700000000
  = TokenMisc.epochToDate (-420) (1700000000 * 1000)
  /\ TokenMisc.epochToDate (-420) 1700000000
     = 1700000000 * 1000 - 60000 * -420.
Proof.
  apply (epochToDate_seconds_or_milliseconds (-420) 1700000000). lia.
Defined.

(** ** The Credentials provider *)
Section AuthorizeFacts.

Variable parsePermissions : string -> option (list string).
Variable trim : string -> string.

Local Abbreviation authorize := (CredentialsProvider.authorize parsePermissions trim).

Lemma truthy_Some (o : option string) (s : string) :
  CredentialsProvider.truthy o = Some s <-> o = Some s /\ s <> "".
Proof.
  unfold CredentialsProvider.truthy. destruct o as [x|].
  - destruct (JS.truthy_str x) eqn:Hx.
    + split.
      * intros [= <-]. split; [reflexivity|]. intros ->. discriminate.
      * intros [[= <-] _]. reflexivity.
    + apply truthy_str_false in Hx. subst x. split; [discriminate|].
      intros [[= <-] H]. contradiction.
  - split; [discriminate | intros [H _]; discriminate].
Qed.

Lemma truthy_None (o : option string) :
  CredentialsProvider.truthy o = None <-> o = None \/ o = Some "".
Proof.
  unfold CredentialsProvider.truthy. destruct o as [x|].
  - destruct (JS.truthy_str x) eqn:Hx.
    + split; [discriminate|]. intros [H|[= ->]]; discriminate.
    + apply truthy_str_false in Hx. subst x. split; auto.
  - split; auto.
Qed.

(** X13.  [authorize] resolves with [null] exactly when the credentials
    are missing or [access], [refresh] or [username] is missing or empty;
    it rejects exactly when all three are present and the [permissions]
    text (['[]'] when absent or empty) is not valid JSON; otherwise it
    resolves with a user whose [id] and [username] are the given username,
    whose tokens are the given, non-empty tokens, and whose role is
    ['admin'] whatever the credentials say. *)
Theorem authorize_outcomes (credentials : option CredentialsProvider.Credentials) :
  let missing (o : option string) := o = None \/ o = Some "" in
  match authorize credentials with
  | CredentialsProvider.Rejected =>
      credentials = None
      \/ exists c,
           credentials = Some c
           /\ (missing (CredentialsProvider.access c)
               \/ missing (CredentialsProvider.refresh c)
               \/ missing (CredentialsProvider.username c))
  | CredentialsProvider.ParseFailed =>
      exists c,
        credentials = Some c
        /\ ~ missing (CredentialsProvider.access c)
        /\ ~ missing (CredentialsProvider.refresh c)
        /\ ~ missing (CredentialsProvider.username c)
        /\ parsePermissions (JS.or_str (CredentialsProvider.permissions c) "[]") = None
  | CredentialsProvider.Accepted user =>
      exists c,
        credentials = Some c
        /\ CredentialsProvider.access c = Some (CredentialsProvider.a_accessToken user)
        /\ CredentialsProvider.a_accessToken user <> ""
        /\ CredentialsProvider.refresh c = Some (CredentialsProvider.a_refreshToken user)
        /\ CredentialsProvider.a_refreshToken user <> ""
        /\ CredentialsProvider.username c = Some (CredentialsProvider.a_username user)
        /\ CredentialsProvider.a_username user <> ""
        /\ CredentialsProvider.a_id user = CredentialsProvider.a_username user
        /\ CredentialsProvider.a_role user = "admin"
        /\ parsePermissions (JS.or_str (CredentialsProvider.permissions c) "[]")
           = Some (CredentialsProvider.a_permissions user)
  end.
Proof.
  cbv zeta. unfold CredentialsProvider.authorize.
  destruct credentials as [c|]; [|left; reflexivity].
  destruct (CredentialsProvider.truthy (CredentialsProvider.access c)) as [acc|] eqn:Ha;
    [|right; exists c; split; [reflexivity|]; left; apply truthy_None; exact Ha].
  destruct (CredentialsProvider.truthy (CredentialsProvider.refresh c)) as [ref|] eqn:Hr;
    [|right; exists c; split; [reflexivity|]; right; left; apply truthy_None; exact Hr].
  destruct (CredentialsProvider.truthy (CredentialsProvider.username c)) as [name|] eqn:Hu;
    [|right; exists c; split; [reflexivity|]; right; right; apply truthy_None; exact Hu].
  apply truthy_Some in Ha, Hr, Hu.
  destruct Ha as [Ha Ha'], Hr as [Hr Hr'], Hu as [Hu Hu'].
  destruct (parsePermissions _) as [perms|] eqn:Hp.
  - exists c. cbn. repeat split; assumption.
  - exists c. split; [reflexivity|].
    repeat split; try assumption;
      intros [H|H]; congruence.
Qed.


End AuthorizeFacts.


(** ** The [jwt] callback, continued *)
Section CallbackFacts.

Variable decodeSegment : string -> option JwtUtils.EnhancedJwtPayload.

Local Abbreviation shouldRefresh := (AuthConfig.shouldRefresh decodeSegment).
Local Abbreviation isTokenExpired := (AuthConfig.isTokenExpired decodeSegment).
Local Abbreviation jwtWith := (AuthConfig.jwtWith decodeSegment).
Local Abbreviation jwt := (AuthConfig.jwt decodeSegment).

(** X4.  The two refresh checks agree: at the same clock reading, the
    check of the [jwt] callback ([!token || isTokenExpired(token, 5 min)],
    with the module's own [isTokenExpired]) gives the answer
    [shouldRefreshToken] of the token utilities gives the API client, for
    every access token, and the two [isTokenExpired] agree for every
    buffer. *)
Theorem refresh_checks_agree (token : AuthConfig.JWT) (accessToken : string)
    (bufferMs : Z) (w : AuthConfig.World) :
  let now := AuthConfig.clock w (AuthConfig.ticks w) in
  fst (shouldRefresh token w)
  = JwtUtils.shouldRefreshToken decodeSegment now (AuthConfig.accessToken token)
  /\ fst (isTokenExpired accessToken bufferMs w)
     = JwtUtils.isTokenExpired decodeSegment now accessToken bufferMs.
Proof.
  cbv zeta. split.
  - unfold AuthConfig.shouldRefresh, JwtUtils.shouldRefreshToken.
    destruct (AuthConfig.accessToken token) as [a|]; [|reflexivity].
    destruct (JS.truthy_str a); cbn [negb]; [|reflexivity].
    unfold AuthConfig.isTokenExpired. rewrite getTokenExpiry_same.
    assert (Hsoon : JwtUtils.willExpireSoon
                      (JwtUtils.getTokenInfo decodeSegment
                         (AuthConfig.clock w (AuthConfig.ticks w)) a)
                    = negb (JwtUtils.isExpired
                              (JwtUtils.getTokenInfo decodeSegment
                                 (AuthConfig.clock w (AuthConfig.ticks w)) a))
                      && (JwtUtils.timeUntilExpiry
                            (JwtUtils.getTokenInfo decodeSegment
                               (AuthConfig.clock w (AuthConfig.ticks w)) a)
                          <=? 300000))
      by reflexivity.
    rewrite Hsoon.
    pose proof (getTokenInfo_fields decodeSegment
                  (AuthConfig.clock w (AuthConfig.ticks w)) a) as Hf.
    cbv zeta in Hf.
    destruct (JwtUtils.getTokenExpiry decodeSegment a) as [E|] eqn:HE;
      destruct Hf as [-> ->]; [|reflexivity].
    rewrite (getTokenExpiry_truthy decodeSegment a E HE). cbn [fst].
    change AuthConfig.REFRESH_BUFFER_MS with 300000.
    set (now := AuthConfig.clock w (AuthConfig.ticks w)).
    destruct (Z.leb_spec E now), (Z.leb_spec (E - 300000) now),
      (Z.leb_spec (Z.max 0 (E - now)) 300000); cbn; try reflexivity; lia.
  - unfold AuthConfig.isTokenExpired, JwtUtils.isTokenExpired.
    rewrite getTokenExpiry_same.
    destruct (JwtUtils.getTokenExpiry decodeSegment accessToken) as [E|];
      [|reflexivity].
    destruct (JS.truthy_num E); reflexivity.
Qed.


(** X15.  A request of an established session whose access token expires
    more than five minutes after the reading leaves the session alone: the
    callback returns the token it was given (with the display name of a
    client-side update, if the call carries one), reads the clock once and
    does not call the refresh executor, whichever executor it is. *)
Theorem jwt_leaves_fresh_token_alone
    (refresh : AuthConfig.JWT -> AuthConfig.M (option AuthConfig.JWT))
    (token : AuthConfig.JWT) (a : string) (E : Z)
    (trigger : option AuthConfig.Trigger)
    (session : option AuthConfig.UpdatePayload) (w : AuthConfig.World) :
  AuthConfig.accessToken token = Some a ->
  a <> "" ->
  AuthConfig.getTokenExpiry decodeSegment a = Some E ->
  AuthConfig.clock w (AuthConfig.ticks w) < E - 300000 ->
  jwtWith refresh token None trigger session w
  = (AuthConfig.applyUpdate trigger session token, AuthConfig.tick w)
  /\ jwtWith (AuthConfig.counted refresh) token None None None w
     = (token, AuthConfig.tick w)
  /\ AuthConfig.refreshCalls (AuthConfig.tick w) = AuthConfig.refreshCalls w.
Proof.
  intros Ha Hne HE Hfresh.
  assert (Ht : JS.truthy_str a = true).
  { destruct (JS.truthy_str a) eqn:Ht; [reflexivity|].
    apply truthy_str_false in Ht. contradiction. }
  assert (Hgen : forall r trg ses,
             jwtWith r token None trg ses w
             = (AuthConfig.applyUpdate trg ses token, AuthConfig.tick w)).
  { intros r trg ses. rewrite jwtWith_request_access. cbv zeta.
    destruct (applyUpdate_frame trg ses token)
      as (_ & _ & _ & _ & _ & _ & _ & Hat & _).
    cbv zeta in Hat. rewrite Ha in Hat.
    rewrite (shouldRefresh_decodable decodeSegment _ a E w Hat Ht HE).
    cbn [fst snd]. change AuthConfig.REFRESH_BUFFER_MS with 300000.
    destruct (Z.leb_spec (E - 300000) (AuthConfig.clock w (AuthConfig.ticks w)));
      [lia | reflexivity]. }
  split; [apply Hgen|]. split; [apply (Hgen _ None None) | reflexivity].
Qed.



Lemma applyUpdate_name_with_expires (trigger : option AuthConfig.Trigger)
    (session : option AuthConfig.UpdatePayload) (x : option Z) (t : AuthConfig.JWT) :
  AuthConfig.name (AuthConfig.applyUpdate trigger session (AuthConfig.with_expires x t))
  = AuthConfig.name (AuthConfig.applyUpdate trigger session t).
Proof.
  unfold AuthConfig.applyUpdate.
  destruct trigger as [[| |]|]; destruct session as [ses|]; try reflexivity.
  destruct (AuthConfig.upd_user_name ses) as [n|]; [|reflexivity].
  destruct (JS.truthy_str n); reflexivity.
Qed.

(** X17.  Sign-in always yields a session: for every user object and a
    cookie without an error flag, the token the [jwt] callback returns at
    sign-in makes the [session] callback produce a session that carries
    the user's id, username, e-mail, first and last name, role and
    permissions and the user's access and refresh tokens, whether or not
    the callback refreshed within the same call; the display name is the
    user's unless the call carries a client-side update of it. *)
Theorem signIn_yields_session (token : AuthConfig.JWT) (u : AuthConfig.User)
    (trigger : option AuthConfig.Trigger)
    (update : option AuthConfig.UpdatePayload)
    (s : AuthConfig.Session) (someUser : AuthConfig.SessionUser)
    (w : AuthConfig.World) :
  JS.truthy_opt (AuthConfig.error token) = false ->
  AuthConfig.user s = Some someUser ->
  let result := fst (jwt token (Some u) trigger update w) in
  AuthConfig.session s (Some result)
  = Some (AuthConfig.mkSession
            (Some (AuthConfig.mkSessionUser
                     (Some (AuthConfig.u_id u)) (Some (AuthConfig.u_username u))
                     (Some (AuthConfig.u_email u))
                     (AuthConfig.name
                        (AuthConfig.applyUpdate trigger update
                           (AuthConfig.with_user u token)))
                     (Some (AuthConfig.u_firstName u)) (Some (AuthConfig.u_lastName u))
                     (Some (AuthConfig.u_role u)) (Some (AuthConfig.u_permissions u))))
            (AuthConfig.u_accessToken u) (AuthConfig.u_refreshToken u))
  /\ (trigger <> Some AuthConfig.Update \/ update = None ->
      AuthConfig.name
        (AuthConfig.applyUpdate trigger update (AuthConfig.with_user u token))
      = Some (AuthConfig.u_name u)).
Proof.
  intros Herr Huser. cbv zeta. split.
  - unfold AuthConfig.jwt, AuthConfig.jwtWith, AuthConfig.bind, AuthConfig.ret.
    destruct (AuthConfig.initialSignIn decodeSegment token u w) as [t1 w1] eqn:Hsign.
    assert (Ht1 : exists x,
               t1 = AuthConfig.with_expires x (AuthConfig.with_user u token)).
    { unfold AuthConfig.initialSignIn, AuthConfig.bind, AuthConfig.ret in Hsign.
      destruct (match AuthConfig.u_accessToken u with
                | Some a => if JS.truthy_str a
                            then AuthConfig.getTokenExpiry decodeSegment a else None
                | None => None
                end) as [e|].
      - destruct (JS.truthy_num e); cbn in Hsign; injection Hsign as <- _; eauto.
      - cbn in Hsign. injection Hsign as <- _. eauto. }
    destruct Ht1 as [x ->].
    rewrite <- (applyUpdate_name_with_expires trigger update x).
    destruct (applyUpdate_frame trigger update
                (AuthConfig.with_expires x (AuthConfig.with_user u token)))
      as (Hid & Hun & Hem & Hfn & Hln & Hro & Hpe & Hat & Hrt & _ & Her).
    cbv zeta in *.
    set (t2 := AuthConfig.applyUpdate trigger update
                 (AuthConfig.with_expires x (AuthConfig.with_user u token))) in *.
    cbn in Hid, Hun, Hem, Hfn, Hln, Hro, Hpe, Hat, Hrt, Her.
    destruct (shouldRefresh t2 w1) as [should w2]. destruct should; cbn [negb].
    + destruct (AuthConfig.logNeedsRefresh t2 w2) as [[] w3].
      rewrite refreshAccessToken_installs. cbn [fst AuthConfig.afterRefresh].
      unfold AuthConfig.session. cbn. rewrite Huser.
      rewrite Hid, Hun, Hem, Hfn, Hln, Hro, Hpe, Hat, Hrt. reflexivity.
    + cbn [fst]. unfold AuthConfig.session. rewrite Her, Herr, Huser.
      rewrite Hid, Hun, Hem, Hfn, Hln, Hro, Hpe, Hat, Hrt. reflexivity.
  - intros Hno. rewrite (applyUpdate_no_update _ _ _ Hno). reflexivity.
Qed.

End CallbackFacts.

(** X15 at a session whose token expires in the far future. *)
Lemma jwt_leaves_fresh_token_alone_witness :
  let token :=
    AuthConfig.mkJWT (Some "admin") (Some "admin") None (Some "Ad Min") None None
      (Some "admin") (Some []) (Some Fixtures.tokenFarFuture) (Some "refresh")
      (Some 9999999999000) None in
  let w := Fixtures.tickingFrom 1700000000000 in
  AuthConfig.jwtWith Fixtures.decodeSegment Fixtures.failingRefresh token None None None w
  = (AuthConfig.applyUpdate None None token, AuthConfig.tick w)
  /\ AuthConfig.jwtWith Fixtures.decodeSegment
       (AuthConfig.counted Fixtures.failingRefresh) token None None None w
     = (token, AuthConfig.tick w)
  /\ AuthConfig.refreshCalls (AuthConfig.tick w) = AuthConfig.refreshCalls w.
Proof.
  cbv zeta.
  apply (jwt_leaves_fresh_token_alone Fixtures.decodeSegment Fixtures.failingRefresh
           _ Fixtures.tokenFarFuture 9999999999000 None None
           (Fixtures.tickingFrom 1700000000000)).
  - reflexivity.
  - discriminate.
  - reflexivity.
  - vm_compute. reflexivity.
Defined.

(** X17 at the sign-in of the example user. *)
Lemma signIn_yields_session_witness :
  let u := Fixtures.admin Fixtures.tokenExp1000 in
  let result :=
    fst (AuthConfig.jwt Fixtures.decodeSegment Fixtures.blankToken (Some u)
           (Some AuthConfig.SignIn) None (Fixtures.frozenAt 900000)) in
  AuthConfig.session Spec.incomingSession (Some result)
  = Some (AuthConfig.mkSession
            (Some (AuthConfig.mkSessionUser
                     (Some (AuthConfig.u_id u)) (Some (AuthConfig.u_username u))
                     (Some (AuthConfig.u_email u))
                     (AuthConfig.name
                        (AuthConfig.applyUpdate (Some AuthConfig.SignIn) None
                           (AuthConfig.with_user u Fixtures.blankToken)))
                     (Some (AuthConfig.u_firstName u)) (Some (AuthConfig.u_lastName u))
                     (Some (AuthConfig.u_role u)) (Some (AuthConfig.u_permissions u))))
            (AuthConfig.u_accessToken u) (AuthConfig.u_refreshToken u))
  /\ (Some AuthConfig.SignIn <> Some AuthConfig.Update
      \/ @None AuthConfig.UpdatePayload = None ->
      AuthConfig.name
        (AuthConfig.applyUpdate (Some AuthConfig.SignIn) None
           (AuthConfig.with_user u Fixtures.blankToken))
      = Some (AuthConfig.u_name u)).
Proof.
  cbv zeta.
  apply (signIn_yields_session Fixtures.decodeSegment Fixtures.blankToken
           (Fixtures.admin Fixtures.tokenExp1000) (Some AuthConfig.SignIn) None
           Spec.incomingSession
           (AuthConfig.mkSessionUser None None None None None None None None)
           (Fixtures.frozenAt 900000));
    reflexivity.
Defined.

(** ** The route guard, continued *)

Lemma prefix_iff (p s : string) :
  String.prefix p s = true <-> exists rest, s = p ++ rest.
Proof.
  revert s. induction p as [|a p IH]; intros s.
  - split; [intros _; exists s; reflexivity | intros _; destruct s; reflexivity].
  - destruct s as [|b s]; cbn;
      [split; [discriminate | intros [rest H]; discriminate]|].
    destruct (ascii_dec a b) as [<- | Hne].
    + rewrite IH. split; intros [rest H]; exists rest; congruence.
    + split; [discriminate|]. intros [rest H]. congruence.
Qed.

(** X18.  The public paths are exactly ['/'], ['/login'],
    ['/forgot-password'], the paths below the last two, and, because the
    home route ['/'] is in the table, every path that begins with two
    slashes; nothing else is public, in particular no path that merely
    begins like a public one (['/loginx']). *)
Theorem isPublicRoute_paths (pathname : string) :
  Proxy.isPublicRoute pathname = true
  <-> pathname = "/" \/ pathname = "/login" \/ pathname = "/forgot-password"
      \/ exists rest,
           pathname = "//" ++ rest
           \/ pathname = "/login/" ++ rest
           \/ pathname = "/forgot-password/" ++ rest.
Proof.
  change (Proxy.isPublicRoute pathname)
    with (((pathname =? "/")%string || String.prefix "//" pathname)
          || (((pathname =? "/login")%string || String.prefix "/login/" pathname)
              || (((pathname =? "/forgot-password")%string
                   || String.prefix "/forgot-password/" pathname)
                  || false))).
  rewrite !orb_true_iff, !String.eqb_eq, !prefix_iff.
  split.
  - intros [[H|[r H]]|[[H|[r H]]|[[H|[r H]]|H]]]; try discriminate; eauto 8.
  - intros [H|[H|[H|[r [H|[H|H]]]]]]; eauto 8.
Qed.

Lemma endsWith_iff (s suffix : string) :
  JS.endsWith s suffix = true <-> exists stem, s = stem ++ suffix.
Proof.
  induction s as [|c rest IH]; cbn [JS.endsWith].
  - rewrite Bool.orb_false_r, String.eqb_eq. split.
    + intros <-. exists "". reflexivity.
    + intros [[|c stem] H]; [exact H | discriminate H].
  - rewrite Bool.orb_true_iff, String.eqb_eq, IH. split.
    + intros [<-|[stem ->]]; [exists ""; reflexivity|].
      exists (String c stem). reflexivity.
    + intros [[|c' stem] H]; [left; exact H|].
      right. injection H as _ H. exists stem. exact H.
Qed.

(** X19.  Below ['/dashboard'] the proxy guards every path it runs on: a
    request without an authenticated session is redirected to ['/login']
    with the path as [returnUrl], and a request with one passes.  The
    matcher keeps the proxy from running exactly on the paths that end in
    a dot and one of the six image extensions; on those the guard is not
    consulted. *)
Theorem dashboard_subtree_is_guarded (suffix : string)
    (returnUrl : option string) (auth : option AuthConfig.Session) :
  let path := "/dashboard" ++ suffix in
  let request := Proxy.mkRequest path returnUrl auth in
  Proxy.isPublicRoute path = false
  /\ (Proxy.matcher path = false
      <-> exists stem ext,
            path = stem ++ "." ++ ext /\ In ext ["svg"; "png"; "jpg"; "jpeg"; "gif"; "webp"])
  /\ Proxy.proxy request
     = if Proxy.matcher path
       then Some (if Proxy.isAuthenticated request then Proxy.Next
                  else Proxy.Redirect "/login" [("returnUrl", path)])
       else None.
Proof.
  cbv zeta.
  assert (Hpub : Proxy.isPublicRoute ("/dashboard" ++ suffix) = false)
    by reflexivity.
  split; [exact Hpub|]. split.
  - assert (Hm : Proxy.matcher ("/dashboard" ++ suffix)
                 = negb (existsb (fun ext => JS.endsWith ("dashboard" ++ suffix)
                                               ("." ++ ext))
                           Proxy.IMAGE_EXTENSIONS))
      by reflexivity.
    rewrite Hm, Bool.negb_false_iff, existsb_exists.
    unfold Proxy.IMAGE_EXTENSIONS. split.
    + intros (ext & Hin & Hends). apply endsWith_iff in Hends.
      destruct Hends as [stem Hstem].
      exists ("/" ++ stem), ext. split; [|exact Hin].
      change ("/dashboard" ++ suffix) with ("/" ++ ("dashboard" ++ suffix)).
      rewrite Hstem. reflexivity.
    + intros (stem & ext & Hpath & Hin). exists ext. split; [exact Hin|].
      apply endsWith_iff. destruct stem as [|c stem].
      * cbn in Hpath. discriminate Hpath.
      * exists stem. cbn in Hpath. injection Hpath as _ Hpath. exact Hpath.
  - unfold Proxy.proxy, Proxy.middleware. cbn [Proxy.pathname]. rewrite Hpub.
    destruct (Proxy.matcher _); [|reflexivity].
    destruct (Proxy.isAuthenticated _); reflexivity.
Qed.

(** The matcher at work. *)
Example dashboard_image_path_is_not_guarded :
  Proxy.proxy (Proxy.mkRequest "/dashboard/report.png" None None) = None
  /\ Proxy.proxy (Proxy.mkRequest "/dashboard/reports" None None)
     = Some (Proxy.Redirect "/login" [("returnUrl", "/dashboard/reports")]).
Proof. split; reflexivity. Qed.

Example matcher_paths :
  map Proxy.matcher
    ["/"; "/login"; "/dashboard"; "/api/auth/session"; "/api/users";
     "/_next/static/chunks/main.js"; "/_next/image"; "/favicon.ico";
     "/logo.svg"; "/dashboard/report.png/"; "/dashboard/v1.2"]
  = [true; true; true; false; true; false; false; false; false; true; true].
Proof. reflexivity. Qed.

(** X20.  The requested path survives the detour through the login page:
    when the guard sends an unauthenticated request for a protected path
    to the login page, the query it attaches makes the page's submit
    handler push exactly that path after a successful login (and only
    show an error after a failed one), and the guard lets the path through
    once the session is authenticated. *)
Theorem returnUrl_round_trip (pathname : string) (returnUrl : option string)
    (auth : option AuthConfig.Session) :
  pathname <> "" ->
  Proxy.isPublicRoute pathname = false ->
  Proxy.isAuthenticated (Proxy.mkRequest pathname returnUrl auth) = false ->
  exists searchParams,
    Proxy.middleware (Proxy.mkRequest pathname returnUrl auth)
    = Proxy.Redirect Routes.LOGIN searchParams
    /\ (forall result,
          LoginAction.success result = true ->
          LoginPage.onSubmit searchParams result = LoginPage.PushAndRefresh pathname)
    /\ (forall result,
          LoginAction.success result = false ->
          exists description,
            LoginPage.onSubmit searchParams result = LoginPage.ToastError description)
    /\ (forall auth' returnUrl',
          Proxy.isAuthenticated (Proxy.mkRequest pathname returnUrl' auth') = true ->
          Proxy.middleware (Proxy.mkRequest pathname returnUrl' auth') = Proxy.Next).
Proof.
  intros Hne Hpub Hauth. exists [("returnUrl", pathname)].
  split; [|split; [|split]].
  - unfold Proxy.middleware. cbn [Proxy.pathname]. rewrite Hpub, Hauth. reflexivity.
  - intros result Hs. unfold LoginPage.onSubmit. rewrite Hs.
    cbn [LoginPage.get String.eqb Ascii.eqb Bool.eqb]. unfold JS.or_str.
    destruct (JS.truthy_str pathname) eqn:Ht; [reflexivity|].
    apply truthy_str_false in Ht. contradiction.
  - intros result Hs. unfold LoginPage.onSubmit. rewrite Hs. eauto.
  - intros auth' returnUrl' Hauth'. unfold Proxy.middleware.
    cbn [Proxy.pathname]. rewrite Hpub, Hauth'. reflexivity.
Qed.

(** X20 at a request for a report page without a session. *)
Lemma returnUrl_round_trip_witness :
  exists searchParams,
    Proxy.middleware (Proxy.mkRequest "/dashboard/reports/overview" None None)
    = Proxy.Redirect Routes.LOGIN searchParams
    /\ (forall result,
          LoginAction.success result = true ->
          LoginPage.onSubmit searchParams result
          = LoginPage.PushAndRefresh "/dashboard/reports/overview")
    /\ (forall result,
          LoginAction.success result = false ->
          exists description,
            LoginPage.onSubmit searchParams result = LoginPage.ToastError description)
    /\ (forall auth' returnUrl',
          Proxy.isAuthenticated
            (Proxy.mkRequest "/dashboard/reports/overview" returnUrl' auth') = true ->
          Proxy.middleware
            (Proxy.mkRequest "/dashboard/reports/overview" returnUrl' auth')
          = Proxy.Next).
Proof.
  apply (returnUrl_round_trip "/dashboard/reports/overview" None None).
  - discriminate.
  - reflexivity.
  - reflexivity.
Defined.

(** ** Logout *)

(** X21.  [logoutAction] always ends in the redirect to ['/login']:
    whether [signOut] resolves or rejects, the [finally] block's
    [redirect] is what leaves the function, so an error of [signOut] never
    reaches the caller; [signOut] has run once by then. *)
Theorem logoutAction_always_redirects (Store : Type)
    (signOut : Store -> option string * Store) (store : Store) :
  LogoutAction.logoutAction signOut store
  = (LogoutAction.Throw (LogoutAction.NextRedirect "/login"), snd (signOut store))
  /\ forall message,
       fst (LogoutAction.logoutAction signOut store)
       <> LogoutAction.Throw (LogoutAction.SignOutError message).
Proof.
  unfold LogoutAction.logoutAction.
  destruct (signOut store) as [[message|] store']; split;
    try reflexivity; intros m; discriminate.
Qed.

(** ** The API client *)

Lemma endsWithSlash_app_slash (s : string) : ApiClient.endsWithSlash (s ++ "/") = true.
Proof.
  induction s as [|c s IH]; [reflexivity|].
  cbn [append ApiClient.endsWithSlash]. destruct (s ++ "/") eqn:Hs; [|exact IH].
  destruct s; discriminate.
Qed.

Lemma dropLast_app_slash (s : string) : ApiClient.dropLast (s ++ "/") = s.
Proof.
  induction s as [|c s IH]; [reflexivity|].
  cbn [append ApiClient.dropLast]. destruct (s ++ "/") eqn:Hs.
  - destruct s; discriminate.
  - rewrite IH. reflexivity.
Qed.

Section BuildURLFacts.

Variable Params : Type.
Variable keyCount : Params -> nat.
Variable stringify : Params -> string.

Local Abbreviation buildURL := (fun apiURL => ApiClient.buildURL apiURL Params keyCount stringify).

Local Abbreviation queryOf := (ApiClient.queryOf Params keyCount stringify).

Lemma append_assoc (a b c : string) : (a ++ b) ++ c = a ++ (b ++ c).
Proof.
  induction a as [|x a IH]; [reflexivity|]. cbn. rewrite IH. reflexivity.
Qed.

Lemma append_empty_r (a : string) : a ++ "" = a.
Proof.
  induction a as [|x a IH]; [reflexivity|]. cbn. rewrite IH. reflexivity.
Qed.

(** X24.  [buildURL] joins base and endpoint with exactly one slash
    whether or not the base ends with one and whether or not the endpoint
    begins with one: for a base without trailing slash and a relative
    endpoint without leading slash, the four spellings all give
    [base/endpoint] followed by the query string (present only when
    [params] has keys).  A full [http://] or [https://] URL is returned as
    it is, and then [params] are dropped. *)
Theorem buildURL_joins_with_one_slash (apiURL endpoint : string)
    (params : option Params) :
  ApiClient.endsWithSlash apiURL = false ->
  JS.startsWith endpoint "/" = false ->
  ApiClient.isFullURL endpoint = false ->
  let url := apiURL ++ "/" ++ endpoint ++ queryOf params in
  buildURL apiURL endpoint params = url
  /\ buildURL apiURL ("/" ++ endpoint) params = url
  /\ buildURL (apiURL ++ "/") endpoint params = url
  /\ buildURL (apiURL ++ "/") ("/" ++ endpoint) params = url
  /\ (forall full,
        ApiClient.isFullURL full = true -> buildURL apiURL full params = full).
Proof.
  intros Hbase Hlead Hfull. cbv zeta.
  assert (Hq : forall u,
             match params with
             | Some ps => if Nat.ltb 0 (keyCount ps) then u ++ "?" ++ stringify ps else u
             | None => u
             end = u ++ queryOf params).
  { intros u. unfold ApiClient.queryOf. destruct params as [ps|];
      [destruct (Nat.ltb 0 (keyCount ps))|]; rewrite ?append_empty_r; reflexivity. }
  assert (Hslash : ApiClient.isFullURL ("/" ++ endpoint) = false) by reflexivity.
  assert (Hlead' : JS.startsWith ("/" ++ endpoint) "/" = true)
    by (destruct endpoint; reflexivity).
  unfold ApiClient.buildURL.
  rewrite Hfull, Hslash, Hlead, Hlead', Hbase, endsWithSlash_app_slash,
    dropLast_app_slash, !Hq.
  cbn [ApiClient.slice1 append]. rewrite !append_assoc.
  repeat split; try reflexivity.
  intros full Hf. rewrite Hf. reflexivity.
Qed.

End BuildURLFacts.

(** X24 at the default API base and the login endpoint. *)
Lemma buildURL_joins_with_one_slash_witness :
  let apiURL := "https://api-telemed.risingsun.dev/api/v1" in
  let endpoint := "auth/login/" in
  let url :=
    apiURL ++ "/" ++ endpoint
    ++ ApiClient.queryOf unit (fun _ => O) (fun _ => "") None in
  ApiClient.buildURL apiURL unit (fun _ => O) (fun _ => "") endpoint None = url
  /\ ApiClient.buildURL apiURL unit (fun _ => O) (fun _ => "") ("/" ++ endpoint) None = url
  /\ ApiClient.buildURL (apiURL ++ "/") unit (fun _ => O) (fun _ => "") endpoint None = url
  /\ ApiClient.buildURL (apiURL ++ "/") unit (fun _ => O) (fun _ => "")
       ("/" ++ endpoint) None = url
  /\ (forall full,
        ApiClient.isFullURL full = true ->
        ApiClient.buildURL apiURL unit (fun _ => O) (fun _ => "") full None = full).
Proof.
  cbv zeta.
  apply (buildURL_joins_with_one_slash unit (fun _ => O) (fun _ => "")
           "https://api-telemed.risingsun.dev/api/v1" "auth/login/" None);
    reflexivity.
Defined.

Section ClientFacts.

Variable Json : Type.
Variable codeOf : Json -> option string.
Variable messageOf : Json -> option string.

Local Abbreviation handleResponse := (ApiClient.handleResponse codeOf messageOf).
Local Abbreviation fetchBase := (ApiClient.fetchBase codeOf messageOf).

(** A response with an error status rejects with that status, unless
    reading its non-JSON body failed. *)
Lemma fetchBase_error_status (r : ApiClient.Response Json) :
  ApiClient.status r <> 204 ->
  ApiClient.ok r = false ->
  (exists statusCode message,
     fetchBase (inr r)
     = inl (LoginAction.APIResponseError statusCode message (ApiClient.status r)))
  \/ (ApiClient.isJson r = false /\ exists e, ApiClient.text r = inl e).
Proof.
  unfold ApiClient.fetchBase, ApiClient.handleResponse.
  intros H204 Hok. apply Z.eqb_neq in H204. rewrite H204, Hok. cbn [negb].
  destruct (ApiClient.isJson r).
  - left. destruct (ApiClient.json r); eexists; eexists; reflexivity.
  - destruct (ApiClient.text r) as [e|s].
    + right. split; [reflexivity | eauto].
    + left. eexists; eexists; reflexivity.
Qed.

(** Only a [204] or a status of the 200-299 range resolves. *)
Lemma fetchBase_resolves_ok (r : ApiClient.Response Json) (data : ApiClient.Data Json) :
  fetchBase (inr r) = inr data ->
  ApiClient.status r = 204 \/ ApiClient.ok r = true.
Proof.
  unfold ApiClient.fetchBase, ApiClient.handleResponse.
  destruct (Z.eqb_spec (ApiClient.status r) 204) as [->|Hne]; [auto|].
  destruct (ApiClient.ok r); [auto|]. cbn [negb].
  destruct (ApiClient.isJson r).
  - destruct (ApiClient.json r); discriminate.
  - destruct (ApiClient.text r) as [[|e]|s]; discriminate.
Qed.

(** X22.  What the API client makes of a response: a [204] resolves with
    [{}] without the body being read; otherwise a status outside 200-299
    never resolves, and unless reading a non-JSON body itself failed the
    rejection is an [APIResponseError] that carries the response's status;
    a request that was aborted rejects with status [408] and code
    ['TIMEOUT']. *)
Theorem fetchBase_outcomes (r : ApiClient.Response Json) :
  (ApiClient.status r = 204 -> fetchBase (inr r) = inr ApiClient.NoContent)
  /\ (ApiClient.status r <> 204 ->
      ApiClient.ok r = false ->
      (exists statusCode message,
         fetchBase (inr r)
         = inl (LoginAction.APIResponseError statusCode message (ApiClient.status r)))
      \/ (ApiClient.isJson r = false /\ exists e, ApiClient.text r = inl e))
  /\ (forall data,
        fetchBase (inr r) = inr data ->
        ApiClient.status r = 204 \/ ApiClient.ok r = true)
  /\ fetchBase (inl ApiClient.AbortError)
     = inl (LoginAction.APIResponseError "TIMEOUT" "Request timeout after 30 seconds" 408)
  /\ (ApiClient.isJson r = false ->
      ApiClient.text r = inl ApiClient.AbortError ->
      ApiClient.status r <> 204 ->
      fetchBase (inr r)
      = inl (LoginAction.APIResponseError "TIMEOUT" "Request timeout after 30 seconds" 408)).
Proof.
  split; [|split; [|split; [|split]]].
  - unfold ApiClient.fetchBase, ApiClient.handleResponse. intros ->. reflexivity.
  - apply fetchBase_error_status.
  - apply fetchBase_resolves_ok.
  - reflexivity.
  - unfold ApiClient.fetchBase, ApiClient.handleResponse.
    intros Hj Ht H204. apply Z.eqb_neq in H204. rewrite H204, Hj, Ht. reflexivity.
Qed.

Section LoginOverClient.

Variable Server : Type.
Variable Store : Type.
Variable network :
  LoginAction.LoginRequest -> Server
  -> (ApiClient.Raised + ApiClient.Response Json) * Server.
Variable asAuthData : ApiClient.Data Json -> LoginAction.AuthTokenResponse.
Variable signIn :
  LoginAction.SignInOptions -> Store
  -> (LoginAction.Thrown + option string) * Store.

Local Abbreviation loginAction :=
  (LoginAction.loginAction (ApiClient.post codeOf messageOf network asAuthData) signIn).

(** X23.  How a login attempt reports transport failures: when the
    request times out the action returns code [408] with the message
    'Request timeout after 30 seconds'; when the server answers with an
    error status (and a readable body) it returns that HTTP status as the
    code; when [fetch] fails with another error it returns
    ['UNKNOWN_ERROR'] with that error's message.  In each case [signIn] is
    not called and the session store is untouched. *)
Theorem login_reports_transport_failures (credentials : LoginAction.LoginRequest)
    (srv : Server) (store : Store) :
  let '(response, _, store') := loginAction credentials srv store in
  let fetched := fst (network credentials srv) in
  (fetched = inl ApiClient.AbortError ->
   response
   = LoginAction.mkActionResponse false None
       (Some (LoginAction.mkActionError (LoginAction.CodeNumber 408)
                "Request timeout after 30 seconds"))
   /\ store' = store)
  /\ (forall r,
        fetched = inr r ->
        ApiClient.status r <> 204 ->
        ApiClient.ok r = false ->
        (ApiClient.isJson r = false -> exists s, ApiClient.text r = inr s) ->
        LoginAction.success response = false
        /\ LoginAction.errorCode response
           = Some (LoginAction.CodeNumber (ApiClient.status r))
        /\ store' = store)
  /\ (forall message,
        fetched = inl (ApiClient.Raise (LoginAction.OtherError message)) ->
        response
        = LoginAction.mkActionResponse false None
            (Some (LoginAction.mkActionError (LoginAction.CodeString "UNKNOWN_ERROR")
                     message))
        /\ store' = store).
Proof.
  destruct credentials as [u p]. unfold LoginAction.loginAction, ApiClient.post.
  cbn [LoginAction.username LoginAction.password].
  destruct (network (LoginAction.mkLoginRequest u p) srv) as [fetched srv1].
  cbn [fst].
  destruct (fetchBase fetched) as [e|data] eqn:Hfetch.
  - split; [|split].
    + intros ->. cbn in Hfetch. injection Hfetch as <-. split; reflexivity.
    + intros r -> H204 Hok Htext.
      destruct (fetchBase_error_status r H204 Hok) as [(sc & m & Hr)|(Hj & e' & He')].
      * rewrite Hr in Hfetch. injection Hfetch as <-. repeat split; reflexivity.
      * destruct (Htext Hj) as [s Hs]. congruence.
    + intros message ->. cbn in Hfetch. injection Hfetch as <-. split; reflexivity.
  - destruct (signIn _ store) as [[e|result] store'].
    + split; [|split].
      * intros ->. discriminate.
      * intros r -> H204 Hok Htext.
        pose proof (fetchBase_resolves_ok r data) as Hres.
        destruct (Hres Hfetch) as [H|H]; congruence.
      * intros message ->. discriminate.
    + destruct (JS.truthy_opt result).
      * split; [|split].
        -- intros ->. discriminate.
        -- intros r -> H204 Hok Htext.
           pose proof (fetchBase_resolves_ok r data) as Hres.
           destruct (Hres Hfetch) as [H|H]; congruence.
        -- intros message ->. discriminate.
      * split; [|split].
        -- intros ->. discriminate.
        -- intros r -> H204 Hok Htext.
           pose proof (fetchBase_resolves_ok r data) as Hres.
           destruct (Hres Hfetch) as [H|H]; congruence.
        -- intros message ->. discriminate.
Qed.

End LoginOverClient.

End ClientFacts.

(** ** Navigation configuration *)

Lemma prefix_trans (a b s : string) :
  String.prefix a b = true -> String.prefix b s = true -> String.prefix a s = true.
Proof.
  rewrite !prefix_iff. intros [r1 ->] [r2 ->]. exists (r1 ++ r2).
  apply append_assoc.
Qed.

Lemma some_startsWith_incl (path : string) (small large : list string) :
  incl small large ->
  JS.some (fun route => JS.startsWith path route) small = true ->
  JS.some (fun route => JS.startsWith path route) large = true.
Proof.
  unfold JS.some. intros Hincl H. apply existsb_exists in H.
  destruct H as (route & Hin & Hp). apply existsb_exists.
  exists route. split; [apply Hincl; exact Hin | exact Hp].
Qed.

(** X25.  The route tables are nested: every super-admin route is an
    admin route and every admin route is protected; the protected paths
    are exactly the paths that begin with ['/dashboard'] (the other eight
    entries of [PROTECTED_ROUTES] add nothing), and no protected path is
    public. *)
Theorem route_tables_nest (path : string) :
  (Navigation.isSuperAdminRoute path = true -> Navigation.isAdminRoute path = true)
  /\ (Navigation.isAdminRoute path = true -> Navigation.isProtectedRoute path = true)
  /\ (Navigation.isProtectedRoute path = true
      <-> JS.startsWith path "/dashboard" = true)
  /\ (Navigation.isProtectedRoute path = true -> Navigation.isPublicRoute path = false).
Proof.
  assert (Hdash : Navigation.isProtectedRoute path = true
                  <-> JS.startsWith path "/dashboard" = true).
  { split.
    - unfold Navigation.isProtectedRoute, JS.some. intros H.
      apply existsb_exists in H. destruct H as (route & Hin & Hp).
      unfold JS.startsWith in *.
      apply (prefix_trans "/dashboard" route path); [|exact Hp].
      unfold Navigation.PROTECTED_ROUTES in Hin. cbn [In] in Hin.
      repeat (destruct Hin as [<-|Hin]; [reflexivity|]). contradiction.
    - intros H. unfold Navigation.isProtectedRoute, JS.some,
        Navigation.PROTECTED_ROUTES.
      cbn [existsb]. rewrite H. reflexivity. }
  split; [|split; [|split]].
  - apply some_startsWith_incl.
    unfold Navigation.SUPER_ADMIN_ROUTES, Navigation.ADMIN_ROUTES.
    intros x Hx. cbn [In] in *. tauto.
  - apply some_startsWith_incl.
    unfold Navigation.ADMIN_ROUTES, Navigation.PROTECTED_ROUTES.
    intros x Hx. cbn [In] in *. tauto.
  - exact Hdash.
  - intros H. apply Hdash in H. unfold JS.startsWith in H.
    apply prefix_iff in H. destruct H as [rest ->]. reflexivity.
Qed.

(** X26.  What each role sees in the main navigation: ['SUPER_ADMIN'] and
    ['ADMIN'] see all seven entries, ['STAFF'] sees the dashboard,
    patients, stocks and reports, and every other role string sees the
    dashboard alone.  The comparison is case-sensitive, so the role
    ['admin'] that the credentials provider gives to every user it
    accepts is among the others. *)
Theorem getNavigationForRole_by_role (role : string) :
  Navigation.getNavigationForRole role
  = (if (role =? "SUPER_ADMIN")%string || (role =? "ADMIN")%string
     then Navigation.MAIN_NAVIGATION
     else if (role =? "STAFF")%string
          then [Navigation.DASHBOARD_ITEM; Navigation.PATIENTS_ITEM;
                Navigation.STOCKS_ITEM; Navigation.REPORTS_ITEM]
          else [Navigation.DASHBOARD_ITEM])
  /\ forall parsePermissions trim credentials user,
       CredentialsProvider.authorize parsePermissions trim credentials
       = CredentialsProvider.Accepted user ->
       Navigation.getNavigationForRole (CredentialsProvider.a_role user)
       = [Navigation.DASHBOARD_ITEM].
Proof.
  split.
  - unfold Navigation.getNavigationForRole, Navigation.MAIN_NAVIGATION.
    cbn [filter Navigation.roles Navigation.DASHBOARD_ITEM Navigation.DOCTORS_ITEM
         Navigation.PATIENTS_ITEM Navigation.RIDERS_ITEM
         Navigation.SERVICE_AREAS_ITEM Navigation.STOCKS_ITEM
         Navigation.REPORTS_ITEM Navigation.entry Navigation.includes existsb].
    rewrite (String.eqb_sym "SUPER_ADMIN" role), (String.eqb_sym "ADMIN" role),
      (String.eqb_sym "STAFF" role).
    destruct (String.eqb_spec role "SUPER_ADMIN") as [->|H1]; [reflexivity|].
    destruct (String.eqb_spec role "ADMIN") as [->|H2]; [reflexivity|].
    destruct (String.eqb_spec role "STAFF") as [->|H3]; reflexivity.
  - intros parsePermissions trim credentials user H.
    unfold CredentialsProvider.authorize in H.
    destruct credentials as [c|]; [|discriminate].
    destruct (CredentialsProvider.truthy (CredentialsProvider.access c));
      [|discriminate].
    destruct (CredentialsProvider.truthy (CredentialsProvider.refresh c));
      [|discriminate].
    destruct (CredentialsProvider.truthy (CredentialsProvider.username c));
      [|discriminate].
    destruct (parsePermissions _); [|discriminate].
    injection H as <-. reflexivity.
Qed.

(** X27.  The navigation's [isPublicRoute] goes by bare prefix: every
    path that continues ['/login'] is public to it, whereas the proxy's
    [isPublicRoute] accepts such a path only when it is ['/login'] itself
    or continues with a slash; and the home path ['/'], public to the
    proxy, is not public to the navigation. *)
Theorem public_route_checks_differ (rest : string) :
  Navigation.isPublicRoute ("/login" ++ rest) = true
  /\ (Proxy.isPublicRoute ("/login" ++ rest) = true
      <-> rest = "" \/ exists tail, rest = "/" ++ tail)
  /\ Navigation.isPublicRoute Routes.HOME = false
  /\ Proxy.isPublicRoute Routes.HOME = true.
Proof.
  split; [|split; [|split; reflexivity]].
  - unfold Navigation.isPublicRoute, JS.some, Navigation.PUBLIC_ROUTES, JS.startsWith.
    cbn [existsb].
    replace (String.prefix "/login" ("/login" ++ rest)) with true; [reflexivity|].
    symmetry. apply prefix_iff. exists rest. reflexivity.
  - destruct rest as [|a tail].
    + split; [auto | reflexivity].
    + destruct (ascii_dec a "/"%char) as [->|Hne].
      * split; [intros _; right; exists tail; reflexivity|].
        intros _. unfold Proxy.isPublicRoute, JS.some, Routes.PUBLIC_ROUTES,
          JS.startsWith.
        cbn [existsb]. 
        replace (String.prefix (Routes.LOGIN ++ "/") ("/login" ++ String "/" tail))
          with true; [rewrite !Bool.orb_true_r; reflexivity|].
        symmetry. apply prefix_iff. exists tail. reflexivity.
      * split.
        -- intros H. exfalso.
           unfold Proxy.isPublicRoute, JS.some, Routes.PUBLIC_ROUTES, JS.startsWith,
             Routes.HOME, Routes.LOGIN, Routes.FORGOT_PASSWORD in H.
           cbn [existsb] in H.
           repeat match goal with
                  | Hx : (_ || _)%bool = true |- _ =>
                      apply Bool.orb_true_iff in Hx; destruct Hx as [Hx|Hx]
                  | Hx : (_ =? _)%string = true |- _ =>
                      apply String.eqb_eq in Hx; cbn [append] in Hx; congruence
                  | Hx : String.prefix _ _ = true |- _ =>
                      apply prefix_iff in Hx; destruct Hx as [r Hx];
                      cbn [append] in Hx; congruence
                  | Hx : false = true |- _ => discriminate Hx
                  end.
        -- intros [H|[t H]]; [discriminate|]. injection H as -> _. contradiction.
Qed.

(** X28.  [getActiveNavigationItem] answers by exact path only: for the
    fifteen paths the main and secondary navigation list (entries and the
    four children of the reports entry) it finds an entry, either the one
    whose own [href] is the path or the reports entry for the path of one
    of its children, and for every other path, in particular for a path
    below an entry, it finds nothing. *)
Theorem getActiveNavigationItem_exact (path : string) :
  let listed :=
    ["/dashboard"; "/dashboard/doctors"; "/dashboard/patients";
     "/dashboard/riders"; "/dashboard/service-areas"; "/dashboard/stocks";
     "/dashboard/reports"; "/dashboard/reports/overview";
     "/dashboard/reports/patients"; "/dashboard/reports/riders";
     "/dashboard/reports/services"; "/dashboard/profile";
     "/dashboard/settings"; "/help"; "/contact"] in
  match Navigation.getActiveNavigationItem path with
  | Some item =>
      In path listed
      /\ In item (Navigation.MAIN_NAVIGATION ++ Navigation.SECONDARY_NAVIGATION)
      /\ (Navigation.href item = path
          \/ (item = Navigation.REPORTS_ITEM
              /\ In path ["/dashboard/reports/overview"; "/dashboard/reports/patients";
                          "/dashboard/reports/riders"; "/dashboard/reports/services"]))
  | None => ~ In path listed
  end.
Proof.
  cbv zeta.
  unfold Navigation.getActiveNavigationItem, Navigation.MAIN_NAVIGATION,
    Navigation.SECONDARY_NAVIGATION, JS.some.
  cbn [app find Navigation.href Navigation.children existsb
       Navigation.DASHBOARD_ITEM Navigation.DOCTORS_ITEM Navigation.PATIENTS_ITEM
       Navigation.RIDERS_ITEM Navigation.SERVICE_AREAS_ITEM Navigation.STOCKS_ITEM
       Navigation.REPORTS_ITEM Navigation.entry Navigation.child orb].
  repeat match goal with
         | |- context [String.eqb ?a path] =>
             destruct (String.eqb_spec a path) as [<-|?];
             [cbn [orb];
              split; [cbn [In]; tauto|];
              split;
              [cbn [In]; tauto
              | first [left; reflexivity
                      | right; split; [reflexivity | cbn [In]; tauto]]]
             |]
         end.
  cbn [orb]. cbn [In]. intuition congruence.
Qed.
